(** * Fintrack: installment allocation and monthly-invoice maintenance

    A shallow embedding of [storage.ts] ([DatabaseStorage]) and of the
    table and validation declarations of [schema.ts], followed by the
    properties of purchase creation, purchase deletion and the monthly
    invoice refresh.

    Modelling conventions.
    - A JavaScript [number] is a double: a finite value, held as the
      rational it denotes, [NaN] or an infinity.  Arithmetic rounds to the
      nearest double, ties to even ([numberOf]); the text [x.toString()]
      is the shortest decimal that reads back as [x] ([Number_toString]).
      The two zeros are one value: they differ only as divisors, and the
      one quotient the storage layer computes is not read when its
      divisor is a zero.
    - A [decimal(10,2)] column holds a whole number of hundredths or
      [NaN] ([decimal]).  The text written to it is rounded half away
      from zero to two places, as PostgreSQL does, and is refused when
      the result needs more than eight integral digits or the text is an
      infinity.
    - An [integer] column refuses a number that is not an integer of 32
      bits; a [date] column refuses a string that names no day of the
      years 1 to 9999; a row that references a card is refused when no
      card carries the identifier.
    - A statement the database refuses writes nothing and rejects its
      promise with [DatabaseError], whatever the reason; each statement
      is committed on its own.  Failures of the connection are outside
      the model.
    - A [string] is a text the database can hold; identifiers are
      compared only, and are natural numbers here.
    - [gen_random_uuid()] is a counter kept in the database state; the
      [created_at] timestamps are left out, no function of the storage
      layer reads them.
    - A [Date] object is its local calendar fields.  A date-only ISO string
      is parsed as midnight UTC, so in a zone behind UTC the local fields
      are those of the previous day; the time of day is carried along
      unchanged by every operation used here and is left out.  A purchase
      date is a date-only string, [IsoDate]. *)

From Stdlib Require Import ZArith QArith Qround Qabs Qpower List String Ascii Bool Lia Lqa.
From Stdlib Require Import DecimalString Permutation Sorted.
Import ListNotations.
Local Open Scope string_scope.
Local Open Scope list_scope.
Local Open Scope Z_scope.

(* ================================================================== *)
(** ** JavaScript numbers                                              *)
(* ================================================================== *)

Inductive number :=
| Finite (q : Q)
| NaN
| PosInfinity
| NegInfinity.
Coercion Finite : Q >-> number.
Bind Scope Q_scope with number.

Definition pow2 (e : Z) : Q := (2 ^ e)%Q.
Definition pow10 (e : Z) : Q := (10 ^ e)%Q.

(** The exponent [e] with [2^e <= q < 2^(e+1)], for a positive [q]. *)
Definition ilog2 (q : Q) : Z :=
  let l := Z.log2 (Qnum q) - Z.log2 (Z.pos (Qden q)) in
  if Qle_bool (pow2 l) q then l else l - 1.

(** The nearest integer, a tie going to the even one. *)
Definition roundHalfEven (q : Q) : Z :=
  let f := Qfloor q in
  match (q - inject_Z f ?= 1 # 2)%Q with
  | Lt => f
  | Gt => f + 1
  | Eq => if Z.even f then f else f + 1
  end.

(** The nearest value with a significand of 53 bits and an exponent of
    at least -1074 (the doubles, their largest exponent apart), for a
    positive [q]. *)
Definition roundPositive (q : Q) : Q :=
  let e := Z.max (ilog2 q - 52) (-1074) in
  (inject_Z (roundHalfEven (q / pow2 e)) * pow2 e)%Q.

Definition roundToDouble (q : Q) : Q :=
  match (q ?= 0)%Q with
  | Eq => 0%Q
  | Gt => roundPositive q
  | Lt => (- roundPositive (- q))%Q
  end.

(** The Number value for a real: the nearest double, an infinity once
    the rounded magnitude reaches [2^1024]. *)
Definition numberOf (q : Q) : number :=
  let v := roundToDouble q in
  if Qle_bool (pow2 1024) (Qabs v)
  then (if Qle_bool 0 v then PosInfinity else NegInfinity)
  else Finite v.

(** The operator [/]. *)
Definition Number_div (x y : number) : number :=
  match x, y with
  | NaN, _ | _, NaN => NaN
  | Finite a, Finite b =>
      if Qeq_bool b 0
      then match (a ?= 0)%Q with
           | Eq => NaN
           | Gt => PosInfinity
           | Lt => NegInfinity
           end
      else numberOf (a / b)
  | Finite _, _ => Finite 0
  | PosInfinity, Finite b => if Qle_bool 0 b then PosInfinity else NegInfinity
  | NegInfinity, Finite b => if Qle_bool 0 b then NegInfinity else PosInfinity
  | _, _ => NaN
  end.

(** The exponent [e] with [10^e <= q < 10^(e+1)], for a positive [q]. *)
Definition ilog10 (q : Q) : Z :=
  let g := ilog2 q * 30103 / 100000 in
  match find (fun k => Qle_bool (pow10 k) q) [g + 2; g + 1; g; g - 1; g - 2] with
  | Some k => k
  | None => g
  end.

(** [v] reads back as the double [x]. *)
Definition readsBackAs (v x : Q) : bool := Qeq_bool (roundToDouble v) x.

(** The decimal of [k] significant digits that [x.toString()] writes, if
    one of [k] digits reads back as [x]: the nearer of the two that
    enclose [x], the one with the even last digit when they are equally
    near.  [n] is the number of digits of [x] before the point. *)
Definition decimalOfDigits (x : Q) (n k : Z) : option Q :=
  let scale := pow10 (n - k) in
  let s := Qfloor (x / scale) in
  let below := (inject_Z s * scale)%Q in
  let above := (inject_Z (s + 1) * scale)%Q in
  match readsBackAs below x, readsBackAs above x with
  | true, true =>
      match (x - below ?= above - x)%Q with
      | Lt => Some below
      | Gt => Some above
      | Eq => Some (if Z.even s then below else above)
      end
  | true, false => Some below
  | false, true => Some above
  | false, false => None
  end.

Fixpoint firstSome {A B} (f : A -> option B) (l : list A) : option B :=
  match l with
  | [] => None
  | a :: rest =>
      match f a with
      | Some b => Some b
      | None => firstSome f rest
      end
  end.

(** The value of the text [x.toString()] for a positive double [x]: the
    decimal with the fewest significant digits that reads back as [x]
    (seventeen digits always do). *)
Definition shortestDecimal (x : Q) : Q :=
  let n := ilog10 x + 1 in
  match firstSome (decimalOfDigits x n)
          [1; 2; 3; 4; 5; 6; 7; 8; 9; 10; 11; 12; 13; 14; 15; 16; 17] with
  | Some v => v
  | None => x
  end.

(** The value of the text [x.toString()] for a finite [x]. *)
Definition Number_toString (x : Q) : Q :=
  match (x ?= 0)%Q with
  | Eq => 0%Q
  | Gt => shortestDecimal x
  | Lt => (- shortestDecimal (- x))%Q
  end.

(* ================================================================== *)
(** ** Decimal columns, integer columns                                *)
(* ================================================================== *)

(** What a [decimal(10,2)] column holds: hundredths, or [NaN]. *)
Inductive decimal :=
| Dec (hundredths : Z)
| DecNaN.
Coercion Dec : Z >-> decimal.
Bind Scope Z_scope with decimal.

(** Equality of two decimals as PostgreSQL decides it: [NaN] equals
    [NaN]. *)
Definition decimal_eqb (a b : decimal) : bool :=
  match a, b with
  | Dec x, Dec y => x =? y
  | DecNaN, DecNaN => true
  | _, _ => false
  end.

Definition decimal_add (a b : decimal) : decimal :=
  match a, b with
  | Dec x, Dec y => Dec (x + y)
  | _, _ => DecNaN
  end.

Definition roundHalfAwayFromZero (x : Q) : Z :=
  if Qle_bool 0 x then Qfloor (x + (1 # 2)) else - Qfloor (- x + (1 # 2)).

(** The hundredths a [decimal(10,2)] column can hold lie strictly
    between the two limits. *)
Definition decimalLimit : Z := 10000000000.

(** What a [decimal(10,2)] column makes of the text [x.toString()];
    [None] when it refuses the text. *)
Definition toDecimal (x : number) : option decimal :=
  match x with
  | Finite q =>
      let hundredths := roundHalfAwayFromZero (Number_toString q * inject_Z 100) in
      if Z.abs hundredths <? decimalLimit then Some (Dec hundredths) else None
  | NaN => Some DecNaN
  | PosInfinity | NegInfinity => None
  end.

(** [parseFloat] of the text of a decimal. *)
Definition parseFloat (d : decimal) : number :=
  match d with
  | Dec hundredths => numberOf (hundredths # 100)
  | DecNaN => NaN
  end.

Definition int32 (z : Z) : bool := (-2147483648 <=? z) && (z <=? 2147483647).

(** What an [integer] column makes of a number; [None] when it refuses
    it. *)
Definition toInteger (x : number) : option Z :=
  match x with
  | Finite q =>
      if Qeq_bool q (inject_Z (Qfloor q)) && int32 (Qfloor q)
      then Some (Qfloor q)
      else None
  | _ => None
  end.

(* ================================================================== *)
(** ** Strings built by the template literal                           *)
(* ================================================================== *)

(** [String(n)] for an integral number. *)
Definition String_of_Z (n : Z) : string := NilZero.string_of_int (Z.to_int n).

Fixpoint repeatChar (n : nat) (c : ascii) : string :=
  match n with
  | O => EmptyString
  | S n' => String c (repeatChar n' c)
  end.

(** [s.padStart(targetLength, c)] for a one-character filler. *)
Definition padStart (s : string) (targetLength : nat) (c : ascii) : string :=
  (repeatChar (targetLength - String.length s) c ++ s)%string.

(* ================================================================== *)
(** ** Calendar dates and the [Date] object                            *)
(* ================================================================== *)

(** A date-only string [YYYY-MM-DD], the year written in four digits;
    [iso_month] is 1..12. *)
Record IsoDate := mkIso { iso_year : Z; iso_month : Z; iso_day : Z }.

Definition IsoDate_eqb (a b : IsoDate) : bool :=
  (iso_year a =? iso_year b) && (iso_month a =? iso_month b)
  && (iso_day a =? iso_day b).

(** Local calendar fields of a [Date]; [d_month] is 0..11 as [getMonth]
    returns it. *)
Record JsDate := mkDate { d_year : Z; d_month : Z; d_date : Z }.

Definition isLeapYear (y : Z) : bool :=
  (y mod 4 =? 0) && (negb (y mod 100 =? 0) || (y mod 400 =? 0)).

(** Days in month [m] (0-based) of year [y]. *)
Definition daysInMonth (y m : Z) : Z :=
  if m =? 1 then (if isLeapYear y then 29 else 28)
  else if (m =? 3) || (m =? 5) || (m =? 8) || (m =? 10) then 30
  else 31.

Definition validIsoDate (s : IsoDate) : bool :=
  (1 <=? iso_month s) && (iso_month s <=? 12)
  && (1 <=? iso_day s) && (iso_day s <=? daysInMonth (iso_year s) (iso_month s - 1)).

(** ECMAScript [MakeDay (year, month, date)] read back as calendar fields:
    the day that lies [date - 1] days after the first of the month named
    by [year] and [month], the month being reduced modulo 12 into the
    year.  For [1 <= date <= 31] the day overflows by at most one month. *)
Definition MakeDay (year month date : Z) : JsDate :=
  let ym := year + month / 12 in
  let mn := month mod 12 in
  if date <=? daysInMonth ym mn then mkDate ym mn date
  else
    let date' := date - daysInMonth ym mn in
    if mn =? 11 then mkDate (ym + 1) 0 date' else mkDate ym (mn + 1) date'.

(** The zone the process runs in, as far as date-only strings can tell. *)
Inductive TimeZone := UtcOrEast | WestOfUtc.

(** The calendar day before [s]. *)
Definition dayBefore (s : IsoDate) : JsDate :=
  let y := iso_year s in
  let m := iso_month s - 1 in
  if 1 <? iso_day s then mkDate y m (iso_day s - 1)
  else if m =? 0 then mkDate (y - 1) 11 31
  else mkDate y (m - 1) (daysInMonth y (m - 1)).

(** [new Date("YYYY-MM-DD")]. *)
Definition newDate (tz : TimeZone) (s : IsoDate) : JsDate :=
  match tz with
  | UtcOrEast => mkDate (iso_year s) (iso_month s - 1) (iso_day s)
  | WestOfUtc => dayBefore s
  end.

Definition getDate (d : JsDate) : Z := d_date d.
Definition getMonth (d : JsDate) : Z := d_month d.
Definition getFullYear (d : JsDate) : Z := d_year d.

(** [d.setMonth(month)]: the date the object holds afterwards. *)
Definition setMonth (d : JsDate) (month : Z) : JsDate :=
  MakeDay (d_year d) month (d_date d).

(** ECMAScript [DayFromYear] and [DaysInYear], the days of a year before
    each month, and the day number (days since 1970-01-01) of calendar
    fields: what the time value of a [Date] counts. *)
Definition DayFromYear (y : Z) : Z :=
  365 * (y - 1970) + (y - 1969) / 4 - (y - 1901) / 100 + (y - 1601) / 400.

Definition DaysInYear (y : Z) : Z := if isLeapYear y then 366 else 365.

Definition daysBeforeMonth (y m : Z) : Z :=
  let leap := if isLeapYear y then 1 else 0 in
  match m with
  | 0 => 0
  | 1 => 31
  | 2 => 59 + leap
  | 3 => 90 + leap
  | 4 => 120 + leap
  | 5 => 151 + leap
  | 6 => 181 + leap
  | 7 => 212 + leap
  | 8 => 243 + leap
  | 9 => 273 + leap
  | 10 => 304 + leap
  | _ => 334 + leap
  end.

Definition Day (d : JsDate) : Z :=
  DayFromYear (d_year d) + daysBeforeMonth (d_year d) (d_month d) + (d_date d - 1).

(** Calendar fields that name a day. *)
Definition validDate (d : JsDate) : bool :=
  (0 <=? d_month d) && (d_month d <=? 11)
  && (1 <=? d_date d) && (d_date d <=? daysInMonth (d_year d) (d_month d)).

(** What a [date] column makes of a date-only string; [None] when it
    refuses it: the string must name a day of the calendar, and of the
    four-digit years the column knows no year 0000. *)
Definition toDate (s : IsoDate) : option IsoDate :=
  if validIsoDate s && (1 <=? iso_year s) && (iso_year s <=? 9999)
  then Some s
  else None.

(* ================================================================== *)
(** ** Tables of [schema.ts]                                           *)
(* ================================================================== *)

Definition Uuid := nat.

Record Card := mkCard {
  c_id : Uuid;
  c_bankName : string;
  c_logoUrl : option string;
  c_closingDay : Z;
  c_dueDay : Z
}.

Record Purchase := mkPurchase {
  p_id : Uuid;
  p_cardId : Uuid;
  p_purchaseDate : IsoDate;
  p_name : string;
  p_category : string;
  p_totalValue : decimal;
  p_totalInstallments : Z;
  p_currentInstallment : Z;
  p_installmentValue : decimal;
  p_invoiceMonth : string
}.

Record MonthlyInvoice := mkMonthlyInvoice {
  mi_id : Uuid;
  mi_month : string;
  mi_cardId : Uuid;
  mi_totalValue : decimal
}.

(** [InsertPurchase], the value [insertPurchaseSchema] produces; the
    optional [currentInstallment] is never read by the storage layer. *)
Record InsertPurchase := mkInsertPurchase {
  ip_cardId : Uuid;
  ip_purchaseDate : IsoDate;
  ip_name : string;
  ip_category : string;
  ip_totalValue : number;
  ip_totalInstallments : number
}.

(** The refinements [insertPurchaseSchema] adds with [extend]:
    [totalInstallments: z.number().min(1).max(99)], which [NaN] and the
    infinities fail; the value of [totalValue] is whatever [parseFloat]
    returned, [NaN] and the infinities included. *)
Definition insertPurchaseSchema (ins : InsertPurchase) : bool :=
  match ip_totalInstallments ins with
  | Finite n => Qle_bool 1 n && Qle_bool n 99
  | _ => false
  end.

(** The object handed to [db.insert(purchases).values]. *)
Record PurchaseData := mkPurchaseData {
  pd_cardId : Uuid;
  pd_purchaseDate : IsoDate;
  pd_name : string;
  pd_category : string;
  pd_totalValue : number;
  pd_totalInstallments : number;
  pd_currentInstallment : Z;
  pd_installmentValue : number;
  pd_invoiceMonth : string
}.

Record Db := mkDb {
  cards : list Card;
  purchases : list Purchase;
  monthlyInvoices : list MonthlyInvoice;
  nextUuid : Uuid
}.

(* ================================================================== *)
(** ** Promises over the database                                      *)
(* ================================================================== *)

Inductive Error := CardNotFound | DatabaseError.

Inductive Settled (A : Type) :=
| Fulfilled (a : A)
| Rejected (e : Error).
Arguments Fulfilled {A} a.
Arguments Rejected {A} e.

(** An [async] computation: the database it leaves and how it settled. *)
Definition Promise (A : Type) := Db -> Db * Settled A.

Definition resolve {A} (a : A) : Promise A := fun db => (db, Fulfilled a).
Definition throw {A} (e : Error) : Promise A := fun db => (db, Rejected e).

Definition await {A B} (c : Promise A) (k : A -> Promise B) : Promise B :=
  fun db =>
    match c db with
    | (db', Fulfilled a) => k a db'
    | (db', Rejected e) => (db', Rejected e)
    end.

Notation "x <- c ;; k" := (await c (fun x => k))
  (at level 61, c at next level, right associativity).
Notation "c ;;; k" := (await c (fun _ => k))
  (at level 61, right associativity).

(** [for (const x of xs) { await body(x) }]. *)
Fixpoint forOf {A} (xs : list A) (body : A -> Promise unit) : Promise unit :=
  match xs with
  | [] => resolve tt
  | x :: rest => body x ;;; forOf rest body
  end.

(** The values [i] takes in [for (let i = 0; i < n; i++)] when every
    turn of the loop completes.  No [i] is below [NaN]; every [i] is
    below [Infinity], and of that endless run the first turn is kept:
    the one loop over such a bound, in [createPurchase], is left by the
    rejection of its first insert. *)
Definition forRange (n : number) : list Z :=
  match n with
  | Finite q => map Z.of_nat (seq 0 (Z.to_nat (Qceiling q)))
  | PosInfinity => [0]
  | NaN | NegInfinity => []
  end.

(** A counted loop that threads the array it pushes to. *)
Fixpoint forPush {A} (indices : list Z) (body : Z -> Promise A) (acc : list A)
  : Promise (list A) :=
  match indices with
  | [] => resolve acc
  | i :: rest => a <- body i ;; forPush rest body (acc ++ [a])
  end.

(** [Array.from(new Set(xs))]: first occurrences, in order. *)
Fixpoint uniqueFrom (seen xs : list string) : list string :=
  match xs with
  | [] => []
  | x :: rest =>
      if existsb (String.eqb x) seen then uniqueFrom seen rest
      else x :: uniqueFrom (x :: seen) rest
  end.

Definition arrayFromSet (xs : list string) : list string := uniqueFrom [] xs.

(* ------------------------------------------------------------------ *)
(** *** Statements                                                      *)
(* ------------------------------------------------------------------ *)

Definition select_cards (where_ : Card -> bool) : Promise (list Card) :=
  fun db => (db, Fulfilled (filter where_ (cards db))).

Definition select_purchases (where_ : Purchase -> bool) : Promise (list Purchase) :=
  fun db => (db, Fulfilled (filter where_ (purchases db))).

(** The foreign key of [purchases] and of [monthly_invoices]: a card
    carries the identifier. *)
Definition referencesCard (cardId : Uuid) (db : Db) : bool :=
  existsb (fun c => Nat.eqb (c_id c) cardId) (cards db).

(** The row [db.insert(purchases).values(v)] writes under the identifier
    [id]; [None] when a column refuses its value. *)
Definition purchaseRow (v : PurchaseData) (id : Uuid) : option Purchase :=
  match toDate (pd_purchaseDate v), toDecimal (pd_totalValue v),
        toInteger (pd_totalInstallments v), toDecimal (pd_installmentValue v) with
  | Some purchaseDate, Some totalValue, Some totalInstallments, Some installmentValue =>
      if int32 (pd_currentInstallment v)
      then Some (mkPurchase id (pd_cardId v) purchaseDate (pd_name v) (pd_category v)
                   totalValue totalInstallments (pd_currentInstallment v)
                   installmentValue (pd_invoiceMonth v))
      else None
  | _, _, _, _ => None
  end.

(** [db.insert(purchases).values(v).returning()]. *)
Definition insert_purchases (v : PurchaseData) : Promise Purchase :=
  fun db =>
    match purchaseRow v (nextUuid db) with
    | Some row =>
        if referencesCard (pd_cardId v) db
        then (mkDb (cards db) (purchases db ++ [row]) (monthlyInvoices db)
                   (S (nextUuid db)),
              Fulfilled row)
        else (db, Rejected DatabaseError)
    | None => (db, Rejected DatabaseError)
    end.

Definition delete_purchases (where_ : Purchase -> bool) : Promise unit :=
  fun db =>
    (mkDb (cards db) (filter (fun p => negb (where_ p)) (purchases db))
          (monthlyInvoices db) (nextUuid db),
     Fulfilled tt).

Definition sumDecimal (l : list decimal) : decimal := fold_right decimal_add (Dec 0) l.

(** [COALESCE(SUM(installment_value), 0)] over the rows selected. *)
Definition sum_installmentValue (where_ : Purchase -> bool) : Promise decimal :=
  fun db =>
    (db, Fulfilled (sumDecimal (map p_installmentValue (filter where_ (purchases db))))).

Definition select_monthlyInvoices (where_ : MonthlyInvoice -> bool)
  : Promise (list MonthlyInvoice) :=
  fun db => (db, Fulfilled (filter where_ (monthlyInvoices db))).

Definition set_totalValue (totalValue : decimal) (r : MonthlyInvoice) : MonthlyInvoice :=
  mkMonthlyInvoice (mi_id r) (mi_month r) (mi_cardId r) totalValue.

(** [db.update(monthlyInvoices).set({ totalValue }).where(...)]; the
    text is converted for the rows it is assigned to. *)
Definition update_monthlyInvoices (v : number) (where_ : MonthlyInvoice -> bool)
  : Promise unit :=
  fun db =>
    if existsb where_ (monthlyInvoices db)
    then match toDecimal v with
         | Some totalValue =>
             (mkDb (cards db) (purchases db)
                   (map (fun r => if where_ r then set_totalValue totalValue r else r)
                        (monthlyInvoices db))
                   (nextUuid db),
              Fulfilled tt)
         | None => (db, Rejected DatabaseError)
         end
    else (db, Fulfilled tt).

(** [db.insert(monthlyInvoices).values({ month, cardId, totalValue })]. *)
Definition insert_monthlyInvoices (month : string) (cardId : Uuid) (v : number)
  : Promise unit :=
  fun db =>
    match toDecimal v with
    | Some totalValue =>
        if referencesCard cardId db
        then (mkDb (cards db) (purchases db)
                   (monthlyInvoices db
                      ++ [mkMonthlyInvoice (nextUuid db) month cardId totalValue])
                   (S (nextUuid db)),
              Fulfilled tt)
        else (db, Rejected DatabaseError)
    | None => (db, Rejected DatabaseError)
    end.

(* ================================================================== *)
(** ** [DatabaseStorage]                                               *)
(* ================================================================== *)

Definition getCard (id : Uuid) : Promise (option Card) :=
  rows <- select_cards (fun c => Nat.eqb (c_id c) id) ;;
  resolve (hd_error rows).

Definition invoiceWhere (month : string) (cardId : Uuid) (r : MonthlyInvoice) : bool :=
  String.eqb (mi_month r) month && Nat.eqb (mi_cardId r) cardId.

Definition updateMonthlyInvoice (month : string) (cardId : Uuid) (totalValue : number)
  : Promise unit :=
  existing <- select_monthlyInvoices (invoiceWhere month cardId) ;;
  if (0 <? List.length existing)%nat
  then update_monthlyInvoices totalValue (invoiceWhere month cardId)
  else insert_monthlyInvoices month cardId totalValue.

Definition purchaseWhere (month : string) (cardId : Uuid) (p : Purchase) : bool :=
  String.eqb (p_invoiceMonth p) month && Nat.eqb (p_cardId p) cardId.

Definition updateMonthlyInvoiceForCard (month : string) (cardId : Uuid) : Promise unit :=
  sum <- sum_installmentValue (purchaseWhere month cardId) ;;
  let totalValue := parseFloat sum in
  updateMonthlyInvoice month cardId totalValue.

(** The invoice month the template literal writes for a date. *)
Definition invoiceMonthOf (installmentDate : JsDate) : string :=
  (String_of_Z (getFullYear installmentDate) ++ "-"
   ++ padStart (String_of_Z (getMonth installmentDate + 1)) 2 "0")%string.

(** [firstInvoiceDate] once the closing-day test has run, for the
    purchase date [isoDate] of the input. *)
Definition firstInvoiceDate (tz : TimeZone) (isoDate : IsoDate) (closingDay : Z)
  : JsDate :=
  let purchaseDate := newDate tz isoDate in
  let purchaseDay := getDate purchaseDate in
  let firstInvoiceDate := purchaseDate in
  if closingDay <=? purchaseDay
  then setMonth firstInvoiceDate (getMonth firstInvoiceDate + 1)
  else firstInvoiceDate.

(** [installmentDate] of loop index [i]. *)
Definition installmentDate (first : JsDate) (i : Z) : JsDate :=
  setMonth first (getMonth first + i).

(** [createPurchase]; [None] stands for the [undefined] that
    [purchaseList[0]] is on an empty list.  A purchase date that is no
    calendar date gives an invalid [Date] in JavaScript; the fields
    computed for it here are never stored, the date column refusing the
    first insert. *)
Definition createPurchase (tz : TimeZone) (insertPurchase : InsertPurchase)
  : Promise (option Purchase) :=
  let installmentValue :=
    Number_div (ip_totalValue insertPurchase) (ip_totalInstallments insertPurchase) in
  card <- getCard (ip_cardId insertPurchase) ;;
  match card with
  | None => throw CardNotFound
  | Some card =>
      let first :=
        firstInvoiceDate tz (ip_purchaseDate insertPurchase) (c_closingDay card) in
      purchaseList <-
        forPush (forRange (ip_totalInstallments insertPurchase))
          (fun i =>
             let invoiceMonth := invoiceMonthOf (installmentDate first i) in
             let purchaseData :=
               mkPurchaseData (ip_cardId insertPurchase)
                 (ip_purchaseDate insertPurchase) (ip_name insertPurchase)
                 (ip_category insertPurchase) (ip_totalValue insertPurchase)
                 (ip_totalInstallments insertPurchase) (i + 1)
                 installmentValue invoiceMonth in
             purchase <- insert_purchases purchaseData ;;
             updateMonthlyInvoiceForCard invoiceMonth (ip_cardId insertPurchase) ;;;
             resolve purchase)
          [] ;;
      resolve (hd_error purchaseList)
  end.

(** The [where] clause shared by the sibling lookup and the delete. *)
Definition siblingWhere (purchase p : Purchase) : bool :=
  Nat.eqb (p_cardId p) (p_cardId purchase)
  && IsoDate_eqb (p_purchaseDate p) (p_purchaseDate purchase)
  && String.eqb (p_name p) (p_name purchase)
  && decimal_eqb (p_totalValue p) (p_totalValue purchase)
  && (p_totalInstallments p =? p_totalInstallments purchase).

Definition deletePurchase (id : Uuid) : Promise unit :=
  purchaseToDelete <- select_purchases (fun p => Nat.eqb (p_id p) id) ;;
  match purchaseToDelete with
  | [] => resolve tt
  | purchase :: _ =>
      relatedPurchases <- select_purchases (siblingWhere purchase) ;;
      let invoiceMonths := arrayFromSet (map p_invoiceMonth relatedPurchases) in
      delete_purchases (siblingWhere purchase) ;;;
      forOf invoiceMonths
        (fun invoiceMonth => updateMonthlyInvoiceForCard invoiceMonth (p_cardId purchase))
  end.

(* ================================================================== *)
(** ** Derived notions used by the statements                          *)
(* ================================================================== *)

(** The sum the refresh query returns for a month and a card. *)
Definition invoiceSum (month : string) (cardId : Uuid) (db : Db) : decimal :=
  sumDecimal (map p_installmentValue
                (filter (purchaseWhere month cardId) (purchases db))).

(** Every monthly-invoice row carries the sum of its installments. *)
Definition invoicesConsistent (db : Db) : bool :=
  forallb
    (fun r => decimal_eqb (mi_totalValue r) (invoiceSum (mi_month r) (mi_cardId r) db))
    (monthlyInvoices db).

(** A decimal the column takes back unchanged: [NaN], or hundredths
    within the limits. *)
Definition fitsColumn (d : decimal) : bool :=
  match d with
  | Dec hundredths => Z.abs hundredths <? decimalLimit
  | DecNaN => true
  end.

(** The refresh of a month and card completes: the sum fits the column,
    and a row of the pair exists to be updated or a card carries the
    identifier, so that a row can be inserted. *)
Definition refreshCompletes (month : string) (cardId : Uuid) (db : Db) : bool :=
  fitsColumn (invoiceSum month cardId db)
  && (existsb (invoiceWhere month cardId) (monthlyInvoices db)
      || referencesCard cardId db).

(** The database a refresh that completes leaves: the sum written to
    every row of the pair, or to a new row when there is none. *)
Definition refresh (month : string) (cardId : Uuid) (db : Db) : Db :=
  let total := invoiceSum month cardId db in
  if existsb (invoiceWhere month cardId) (monthlyInvoices db)
  then mkDb (cards db) (purchases db)
         (map (fun r => if invoiceWhere month cardId r then set_totalValue total r else r)
              (monthlyInvoices db))
         (nextUuid db)
  else mkDb (cards db) (purchases db)
         (monthlyInvoices db ++ [mkMonthlyInvoice (nextUuid db) month cardId total])
         (S (nextUuid db)).

(** The database left by one completed refresh per month, in order. *)
Definition refreshAll (months : list string) (cardId : Uuid) (db : Db) : Db :=
  fold_left (fun d month => refresh month cardId d) months db.

(** Consistency of every row but those of [cardId] whose month is still
    awaiting its refresh. *)
Definition consistentExcept (pending : list string) (cardId : Uuid) (db : Db) : Prop :=
  forall r, In r (monthlyInvoices db) ->
    (mi_cardId r = cardId /\ In (mi_month r) pending)
    \/ mi_totalValue r = invoiceSum (mi_month r) (mi_cardId r) db.

(** The month of a card is settled: a monthly-invoice row of the pair
    exists and every such row holds the sum of the pair. *)
Definition settled (month : string) (cardId : Uuid) (db : Db) : Prop :=
  existsb (invoiceWhere month cardId) (monthlyInvoices db) = true
  /\ forall r, In r (monthlyInvoices db) -> invoiceWhere month cardId r = true ->
               mi_totalValue r = invoiceSum month cardId db.

(** The object the loop of [createPurchase] hands to the insert at
    index [i], for a card closing on [closingDay]. *)
Definition installmentData (tz : TimeZone) (ins : InsertPurchase) (closingDay i : Z)
  : PurchaseData :=
  mkPurchaseData (ip_cardId ins) (ip_purchaseDate ins) (ip_name ins) (ip_category ins)
    (ip_totalValue ins) (ip_totalInstallments ins) (i + 1)
    (Number_div (ip_totalValue ins) (ip_totalInstallments ins))
    (invoiceMonthOf
       (installmentDate (firstInvoiceDate tz (ip_purchaseDate ins) closingDay) i)).

(** One turn of the loop of [createPurchase], at index [i]. *)
Definition installmentTurn (tz : TimeZone) (ins : InsertPurchase) (card : Card) (i : Z)
  : Promise Purchase :=
  let purchaseData := installmentData tz ins (c_closingDay card) i in
  purchase <- insert_purchases purchaseData ;;
  updateMonthlyInvoiceForCard (pd_invoiceMonth purchaseData) (ip_cardId ins) ;;;
  resolve purchase.

(** The database with the sibling rows of [purchase] removed. *)
Definition withoutSiblings (purchase : Purchase) (db : Db) : Db :=
  mkDb (cards db)
       (filter (fun p => negb (siblingWhere purchase p)) (purchases db))
       (monthlyInvoices db) (nextUuid db).

(** Months counted from year 0, so that the month after is one more. *)
Definition monthIndex (d : JsDate) : Z := 12 * d_year d + d_month d.

Definition isDigit (c : ascii) : bool :=
  (48 <=? nat_of_ascii c)%nat && (nat_of_ascii c <=? 57)%nat.

Definition digitValue (c : ascii) : nat := (nat_of_ascii c - 48)%nat.

(** Four digits. *)
Definition isYYYY (s : string) : bool :=
  match s with
  | String a (String b (String c (String d EmptyString))) =>
      isDigit a && isDigit b && isDigit c && isDigit d
  | _ => false
  end.

(** Two digits that name a month, [01] to [12]. *)
Definition isMM (s : string) : bool :=
  match s with
  | String a (String b EmptyString) =>
      isDigit a && isDigit b
      && (1 <=? 10 * digitValue a + digitValue b)%nat
      && (10 * digitValue a + digitValue b <=? 12)%nat
  | _ => false
  end.

(** The format [YYYY-MM]. *)
Definition isYearMonth (s : string) : bool :=
  match s with
  | String a (String b (String c (String d (String h mm)))) =>
      isYYYY (String a (String b (String c (String d EmptyString))))
      && Ascii.eqb h "-" && isMM mm
  | _ => false
  end.

(** The integers [lo], [lo + 1], ..., [len] of them. *)
Definition rangeZ (lo len : Z) : list Z :=
  map (fun k => lo + Z.of_nat k) (seq 0 (Z.to_nat len)).

(** The magnitude of a stored amount; [NaN] counts for nothing, a sum it
    enters being [NaN], which the column takes. *)
Definition decimal_abs (d : decimal) : Z :=
  match d with
  | Dec hundredths => Z.abs hundredths
  | DecNaN => 0
  end.

(** The installment values a card has on record, in magnitude: a bound
    on every monthly total of the card. *)
Definition cardExposure (cardId : Uuid) (db : Db) : Z :=
  fold_right Z.add 0
    (map (fun p => decimal_abs (p_installmentValue p))
       (filter (fun p => Nat.eqb (p_cardId p) cardId) (purchases db))).

(** A call of one of the two mutations, and a history of calls; a call
    that is rejected leaves whatever it had written. *)
Inductive Call :=
| CreatePurchase (insertPurchase : InsertPurchase)
| DeletePurchase (id : Uuid).

Definition runCall (tz : TimeZone) (db : Db) (c : Call) : Db :=
  match c with
  | CreatePurchase ins => fst (createPurchase tz ins db)
  | DeletePurchase id => fst (deletePurchase id db)
  end.

Definition runCalls (tz : TimeZone) (calls : list Call) (db : Db) : Db :=
  fold_left (runCall tz) calls db.

(* ------------------------------------------------------------------ *)
(** *** Sample data                                                     *)
(* ------------------------------------------------------------------ *)

Definition sampleCards : list Card :=
  [ mkCard 0%nat "Nubank" None 15 22;
    mkCard 1%nat "Inter" None 31 10;
    mkCard 2%nat "Itau" None 10 17 ].

Definition sampleDb : Db := mkDb sampleCards [] [] 3%nat.

Definition sampleInput (cardId : Uuid) (purchaseDate : IsoDate)
  (totalValue totalInstallments : number) : InsertPurchase :=
  mkInsertPurchase cardId purchaseDate "TV" "eletronicos" totalValue totalInstallments.

(** 100.00 in three installments, bought on 2024-03-10, closing day 15. *)
Definition samplePurchase : InsertPurchase :=
  sampleInput 0%nat (mkIso 2024 3 10) (inject_Z 100) (inject_Z 3).

(** The same purchase with one and a half installments asked for. *)
Definition fractionalPurchase : InsertPurchase :=
  sampleInput 0%nat (mkIso 2024 3 10) (inject_Z 100) (3 # 2).

(** A purchase of 60 000 000.00 in one installment, and the database
    after it has been entered twice: the second call inserts its row and
    is then rejected, the total of the month no longer fitting the
    column. *)
Definition largePurchase : InsertPurchase :=
  sampleInput 0%nat (mkIso 2024 3 10) (inject_Z 60000000) (inject_Z 1).

Definition overdrawnDb : Db :=
  runCalls UtcOrEast [CreatePurchase largePurchase; CreatePurchase largePurchase] sampleDb.

(** Three purchases on one card whose totals fit the column month by
    month: 90 000 000.00 at once, a refund of 99 999 999.98 in two
    installments, 50 000 000.00 at once. *)
Definition tightDb : Db :=
  runCalls UtcOrEast
    [ CreatePurchase
        (mkInsertPurchase 0%nat (mkIso 2024 3 10) "A" "casa" (inject_Z 90000000)
           (inject_Z 1));
      CreatePurchase
        (mkInsertPurchase 0%nat (mkIso 2024 3 10) "B" "casa"
           (numberOf (-9999999998 # 100)) (inject_Z 2));
      CreatePurchase
        (mkInsertPurchase 0%nat (mkIso 2024 3 10) "C" "casa" (inject_Z 50000000)
           (inject_Z 1)) ]
    sampleDb.

(** The loop test [0 < n] of the first turn. *)
Definition zeroBelow (n : number) : bool :=
  match n with
  | Finite q => negb (Qle_bool q 0)
  | PosInfinity => true
  | NaN | NegInfinity => false
  end.
(* ================================================================== *)
(** ** Cards and the read queries of [DatabaseStorage]                 *)
(* ================================================================== *)

(** [InsertCard], the value [insertCardSchema] produces. *)
Record InsertCard := mkInsertCard {
  ic_bankName : string;
  ic_logoUrl : option string;
  ic_closingDay : number;
  ic_dueDay : number
}.

(** The refinements [insertCardSchema] adds with [extend]:
    [z.number().min(1).max(31)] for both days, which [NaN] and the
    infinities fail. *)
Definition insertCardSchema (c : InsertCard) : bool :=
  match ic_closingDay c, ic_dueDay c with
  | Finite closingDay, Finite dueDay =>
      Qle_bool 1 closingDay && Qle_bool closingDay 31
      && Qle_bool 1 dueDay && Qle_bool dueDay 31
  | _, _ => false
  end.

(** [db.insert(cards).values(v).returning()]; both days go to [integer]
    columns. *)
Definition insert_cards (v : InsertCard) : Promise Card :=
  fun db =>
    match toInteger (ic_closingDay v), toInteger (ic_dueDay v) with
    | Some closingDay, Some dueDay =>
        let row := mkCard (nextUuid db) (ic_bankName v) (ic_logoUrl v)
                     closingDay dueDay in
        (mkDb (cards db ++ [row]) (purchases db) (monthlyInvoices db)
              (S (nextUuid db)),
         Fulfilled row)
    | _, _ => (db, Rejected DatabaseError)
    end.

Definition createCard (insertCard : InsertCard) : Promise Card :=
  insert_cards insertCard.

(** [db.delete(cards).where(...)].  The rows of [purchases] and of
    [monthly_invoices] that reference a deleted card go with it: both
    foreign keys are declared [onDelete: "cascade"]. *)
Definition delete_cards (where_ : Card -> bool) : Promise unit :=
  fun db =>
    let deleted (cardId : Uuid) :=
      existsb (fun c => where_ c && Nat.eqb (c_id c) cardId) (cards db) in
    (mkDb (filter (fun c => negb (where_ c)) (cards db))
          (filter (fun p => negb (deleted (p_cardId p))) (purchases db))
          (filter (fun r => negb (deleted (mi_cardId r))) (monthlyInvoices db))
          (nextUuid db),
     Fulfilled tt).

Definition deleteCard (id : Uuid) : Promise unit :=
  delete_cards (fun c => Nat.eqb (c_id c) id).

(** Order of two dates, the earlier first. *)
Definition IsoDate_leb (a b : IsoDate) : bool :=
  (iso_year a <? iso_year b)
  || ((iso_year a =? iso_year b)
      && ((iso_month a <? iso_month b)
          || ((iso_month a =? iso_month b) && (iso_day a <=? iso_day b)))).

(** [orderBy(desc(purchases.purchaseDate))]: the rows latest date first.
    The server leaves the order of rows of one date open; here they stay
    in the order of the table. *)
Fixpoint insertDesc {A} (date : A -> IsoDate) (x : A) (l : list A) : list A :=
  match l with
  | [] => [x]
  | y :: rest =>
      if IsoDate_leb (date y) (date x) then x :: y :: rest
      else y :: insertDesc date x rest
  end.

Definition orderByDesc {A} (date : A -> IsoDate) (l : list A) : list A :=
  fold_right (insertDesc date) [] l.

(** [leftJoin(cards, eq(t.cardId, cards.id))]: every row with each card
    it references, or with no card when it references none. *)
Definition leftJoin_cards {A} (cardId : A -> Uuid) (rows : list A) (cs : list Card)
  : list (A * option Card) :=
  flat_map
    (fun a =>
       match filter (fun c => Nat.eqb (cardId a) (c_id c)) cs with
       | [] => [(a, None)]
       | matching => map (fun c => (a, Some c)) matching
       end)
    rows.

(** The three purchase queries; [card] is the [row.cards!] of the
    source, [None] where the join found no card. *)
Definition getPurchases : Promise (list (Purchase * option Card)) :=
  fun db =>
    (db, Fulfilled
           (orderByDesc (fun row => p_purchaseDate (fst row))
              (leftJoin_cards p_cardId (purchases db) (cards db)))).

Definition getPurchasesByMonth (month : string)
  : Promise (list (Purchase * option Card)) :=
  fun db =>
    (db, Fulfilled
           (orderByDesc (fun row => p_purchaseDate (fst row))
              (filter (fun row => String.eqb (p_invoiceMonth (fst row)) month)
                 (leftJoin_cards p_cardId (purchases db) (cards db))))).

Definition getPurchasesByCard (cardId : Uuid) : Promise (list Purchase) :=
  fun db =>
    (db, Fulfilled
           (orderByDesc p_purchaseDate
              (filter (fun p => Nat.eqb (p_cardId p) cardId) (purchases db)))).

Definition getMonthlyInvoices (month : string)
  : Promise (list (MonthlyInvoice * option Card)) :=
  fun db =>
    (db, Fulfilled
           (filter (fun row => String.eqb (mi_month (fst row)) month)
              (leftJoin_cards mi_cardId (monthlyInvoices db) (cards db)))).

(* ------------------------------------------------------------------ *)
(** *** Notions used by the statements about them                      *)
(* ------------------------------------------------------------------ *)

(** The columns of a monthly-invoice row that no refresh changes. *)
Definition invoiceKey (r : MonthlyInvoice) : Uuid * string * Uuid :=
  (mi_id r, mi_month r, mi_cardId r).

(** The invoice month that lies [index] months after January of year 0. *)
Definition yearMonth (index : Z) : string :=
  invoiceMonthOf (mkDate (index / 12) (index mod 12) 1).

(** Latest date first: [a] is not before [b]. *)
Definition notBefore {A} (date : A -> IsoDate) (a b : A) : Prop :=
  IsoDate_leb (date b) (date a) = true.

(** The sample database after the sample purchase. *)
Definition sampleDbAfter : Db :=
  fst (createPurchase UtcOrEast samplePurchase sampleDb).

(** A second purchase for the card of the sample purchase: 250.50 in two
    installments, bought on 2024-03-20. *)
Definition secondPurchase : InsertPurchase :=
  mkInsertPurchase 0%nat (mkIso 2024 3 20) "Geladeira" "casa"
    (roundToDouble (25050 # 100)) (inject_Z 2).

(** 50.65 in ten installments: the quotient, as a double, is a little
    below 5.065. *)
Definition tenthsPurchase : InsertPurchase :=
  mkInsertPurchase 0%nat (mkIso 2024 3 20) "Fogao" "casa"
    (roundToDouble (5065 # 100)) (inject_Z 10).

(** A card to add to the sample database. *)
Definition sampleNewCard : InsertCard :=
  mkInsertCard "Bradesco" None (inject_Z 5) (inject_Z 12).

(** The month index a [YYYY-MM] string names. *)
Definition monthIndexOfString (s : string) : Z :=
  match s with
  | String a (String b (String c (String d (String _ (String m1 (String m2 _)))))) =>
      12 * (1000 * Z.of_nat (digitValue a) + 100 * Z.of_nat (digitValue b)
            + 10 * Z.of_nat (digitValue c) + Z.of_nat (digitValue d))
      + (10 * Z.of_nat (digitValue m1) + Z.of_nat (digitValue m2)) - 1
  | _ => 0
  end.

(* ------------------------------------------------------------------ *)
(** *** Error bounds of the double arithmetic                           *)
(* ------------------------------------------------------------------ *)

(** The relative error of a double: half a unit in the 53rd bit. *)
Definition doubleEpsilon : Q := 1 # 9007199254740992.

(** A bound on half the spacing of the smallest doubles, [2^-1075]. *)
Definition doubleTiny : Q := 1 # 10 ^ 300.

(* ------------------------------------------------------------------ *)
(** *** Tactics                                                         *)
(* ------------------------------------------------------------------ *)

(** Closed statements about sample data are settled by evaluation. *)
Ltac by_computation :=
  cbv zeta;
  repeat match goal with |- _ /\ _ => split end;
  vm_compute; reflexivity.

(** Replace [Qabs x] by [x] or [- x], whichever it is. *)
Ltac split_Qabs x :=
  let H := fresh "S" in
  destruct (Qlt_le_dec x 0) as [H|H];
  [rewrite ?(Qabs_neg x) in * by (apply Qlt_le_weak; exact H)
  |rewrite ?(Qabs_pos x) in * by exact H].

(* ================================================================== *)
(** ** Rounding to a double                                            *)
(* ================================================================== *)

Lemma pow2_pos (e : Z) : (0 < pow2 e)%Q.
Proof. unfold pow2. apply Qpower_0_lt. reflexivity. Qed.

Lemma pow2_plus (a b : Z) : (pow2 (a + b) == pow2 a * pow2 b)%Q.
Proof. unfold pow2. apply Qpower_plus. discriminate. Qed.

Lemma pow2_inject (e : Z) : 0 <= e -> (pow2 e == inject_Z (2 ^ e))%Q.
Proof. intros H. unfold pow2. now rewrite Zpower_Qpower. Qed.

Lemma pow2_le (a b : Z) : a <= b -> (pow2 a <= pow2 b)%Q.
Proof. intros H. unfold pow2. apply Qpower_le_compat_l; [exact H | discriminate]. Qed.

(** The exponent [ilog2] finds encloses a positive number. *)
Lemma ilog2_spec (q : Q) :
  (0 < q)%Q -> (pow2 (ilog2 q) <= q /\ q < pow2 (ilog2 q + 1))%Q.
Proof.
  intros Hq. destruct q as [a b].
  assert (Ha : 0 < a) by (unfold Qlt in Hq; cbn in Hq; lia).
  unfold ilog2. cbn [Qnum Qden].
  set (la := Z.log2 a). set (lb := Z.log2 (Z.pos b)).
  assert (La : 2 ^ la <= a < 2 ^ (la + 1)).
  { subst la. pose proof (Z.log2_spec a Ha) as H. now rewrite <- Z.add_1_r in H. }
  assert (Lb : 2 ^ lb <= Z.pos b < 2 ^ (lb + 1)).
  { subst lb. pose proof (Z.log2_spec (Z.pos b) ltac:(lia)) as H.
    now rewrite <- Z.add_1_r in H. }
  assert (Hla : 0 <= la) by apply Z.log2_nonneg.
  assert (Hlb : 0 <= lb) by apply Z.log2_nonneg.
  (* a / b lies strictly between 2^(la - lb - 1) and 2^(la - lb + 1) *)
  assert (Lo : (pow2 (la - lb - 1) < a # b)%Q).
  { assert (E : (pow2 (la - lb - 1) * pow2 (lb + 1) == pow2 la)%Q).
    { rewrite <- pow2_plus. now replace (la - lb - 1 + (lb + 1)) with la by lia. }
    rewrite (pow2_inject la), (pow2_inject (lb + 1)) in E by lia.
    pose proof (pow2_pos (la - lb - 1)) as P.
    set (x := pow2 (la - lb - 1)) in *. clearbody x.
    destruct x as [xn xd]. unfold Qlt, Qeq, Qmult, inject_Z in *. cbn [Qnum Qden] in *.
    nia. }
  assert (Hi : (a # b < pow2 (la - lb + 1))%Q).
  { assert (E : (pow2 (la - lb + 1) * pow2 lb == pow2 (la + 1))%Q).
    { rewrite <- pow2_plus. now replace (la - lb + 1 + lb) with (la + 1) by lia. }
    rewrite (pow2_inject (la + 1)), (pow2_inject lb) in E by lia.
    pose proof (pow2_pos (la - lb + 1)) as P.
    set (x := pow2 (la - lb + 1)) in *. clearbody x.
    destruct x as [xn xd]. unfold Qlt, Qeq, Qmult, inject_Z in *. cbn [Qnum Qden] in *.
    nia. }
  destruct (Qle_bool (pow2 (la - lb)) (a # b)) eqn:C.
  - split; [now apply Qle_bool_iff|exact Hi].
  - split.
    + apply Qlt_le_weak. exact Lo.
    + replace (la - lb - 1 + 1) with (la - lb) by lia.
      apply Qnot_le_lt. intros H. apply Qle_bool_iff in H. congruence.
Qed.

(** Rounding to the nearest integer moves a number by at most one
    half. *)
Lemma roundHalfEven_close (x : Q) :
  (Qabs (inject_Z (roundHalfEven x) - x) <= 1 # 2)%Q.
Proof.
  pose proof (Qfloor_le x) as L. pose proof (Qlt_floor x) as U.
  rewrite inject_Z_plus in U. change (inject_Z 1) with 1%Q in U.
  unfold roundHalfEven.
  destruct (Qcompare_spec (x - inject_Z (Qfloor x)) (1 # 2)) as [E|E|E];
    [destruct (Z.even (Qfloor x))| |];
    rewrite ?inject_Z_plus; change (inject_Z 1) with 1%Q;
    set (f := inject_Z (Qfloor x)) in *; clearbody f;
    apply Qabs_Qle_condition; split; lra.
Qed.

Lemma pow2_53 : (pow2 (-53) == doubleEpsilon)%Q.
Proof. reflexivity. Qed.

Lemma pow2_1075 : (pow2 (-1075) <= doubleTiny)%Q.
Proof. apply Qle_bool_iff. vm_compute. reflexivity. Qed.

Lemma roundPositive_close (q : Q) :
  (0 < q)%Q ->
  (Qabs (roundPositive q - q) <= q * doubleEpsilon + doubleTiny)%Q.
Proof.
  intros Hq. unfold roundPositive. cbv zeta.
  destruct (ilog2_spec q Hq) as [Lo _].
  set (e := Z.max (ilog2 q - 52) (-1074)).
  pose proof (pow2_pos e) as Pe.
  pose proof (roundHalfEven_close (q / pow2 e)) as C.
  set (m := inject_Z (roundHalfEven (q / pow2 e))) in *. clearbody m.
  (* the error is at most half of 2^e *)
  assert (H1 : (Qabs (m * pow2 e - q) <= pow2 e * (1 # 2))%Q).
  { setoid_replace (m * pow2 e - q)%Q with ((m - q / pow2 e) * pow2 e)%Q
      by (field; lra).
    rewrite Qabs_Qmult, (Qabs_pos (pow2 e)) by lra.
    rewrite (Qmult_comm (pow2 e)). apply Qmult_le_compat_r; [exact C | lra]. }
  (* and half of 2^e is within the bound *)
  assert (H2 : (pow2 e * (1 # 2) <= q * doubleEpsilon + doubleTiny)%Q).
  { assert (Hh : forall k, (pow2 k * (1 # 2) == pow2 (k - 1))%Q).
    { intros k. replace (k - 1) with (k + -1) by lia. rewrite pow2_plus. reflexivity. }
    rewrite Hh. subst e.
    destruct (Z.max_spec (ilog2 q - 52) (-1074)) as [[_ ->] | [_ ->]].
    - pose proof pow2_1075. change (-1074 - 1) with (-1075).
      assert (0 <= q * doubleEpsilon)%Q
        by (apply Qmult_le_0_compat; [lra | discriminate]).
      lra.
    - replace (ilog2 q - 52 - 1) with (ilog2 q + -53) by lia.
      rewrite pow2_plus, pow2_53.
      assert (pow2 (ilog2 q) * doubleEpsilon <= q * doubleEpsilon)%Q
        by (apply Qmult_le_compat_r; [exact Lo | discriminate]).
      assert (0 <= doubleTiny)%Q by discriminate.
      lra. }
  eapply Qle_trans; [exact H1 | exact H2].
Qed.

Lemma roundToDouble_close (q : Q) :
  (Qabs (roundToDouble q - q) <= Qabs q * doubleEpsilon + doubleTiny)%Q.
Proof.
  unfold roundToDouble. destruct (Qcompare_spec q 0) as [E|L|G].
  - rewrite E. cbn. discriminate.
  - assert (P : (0 < - q)%Q) by lra.
    pose proof (roundPositive_close (- q) P) as C.
    rewrite (Qabs_neg q) by lra.
    setoid_replace (- roundPositive (- q) - q)%Q with (- (roundPositive (- q) - - q))%Q
      by ring.
    now rewrite Qabs_opp.
  - rewrite (Qabs_pos q) by lra. now apply roundPositive_close.
Qed.

Lemma firstSome_Some {A B} (f : A -> option B) (l : list A) (b : B) :
  firstSome f l = Some b -> exists a, In a l /\ f a = Some b.
Proof.
  induction l as [|a l IH]; cbn; [discriminate|].
  destruct (f a) as [b'|] eqn:E.
  - intros [= <-]. eauto.
  - intros H. destruct (IH H) as (a' & Ha & Ea). eauto.
Qed.

Lemma decimalOfDigits_reads (x : Q) (n k : Z) (v : Q) :
  decimalOfDigits x n k = Some v -> (roundToDouble v == x)%Q.
Proof.
  unfold decimalOfDigits, readsBackAs. cbv zeta.
  set (below := (inject_Z (Qfloor (x / pow10 (n - k))) * pow10 (n - k))%Q).
  set (above := (inject_Z (Qfloor (x / pow10 (n - k)) + 1) * pow10 (n - k))%Q).
  destruct (Qeq_bool (roundToDouble below) x) eqn:B,
           (Qeq_bool (roundToDouble above) x) eqn:A;
    try discriminate;
    try apply Qeq_bool_iff in B; try apply Qeq_bool_iff in A.
  - destruct (x - below ?= above - x)%Q; [destruct (Z.even _)| |];
      intros [= <-]; assumption.
  - now intros [= <-].
  - now intros [= <-].
Qed.

(** The text of a number denotes the number itself or a decimal that
    reads back as it. *)
Lemma shortestDecimal_reads (x : Q) :
  (shortestDecimal x == x \/ roundToDouble (shortestDecimal x) == x)%Q.
Proof.
  unfold shortestDecimal. cbv zeta.
  destruct (firstSome _ _) as [v|] eqn:F; [right|left; reflexivity].
  apply firstSome_Some in F. destruct F as (k & _ & F).
  now apply decimalOfDigits_reads in F.
Qed.

Lemma shortestDecimal_close (x : Q) :
  (Qabs (shortestDecimal x - x)
   <= Qabs (shortestDecimal x) * doubleEpsilon + doubleTiny)%Q.
Proof.
  destruct (shortestDecimal_reads x) as [E|E].
  - rewrite E. setoid_replace (x - x)%Q with 0%Q by ring. cbn [Qabs Qnum Z.abs].
    assert (0 <= Qabs x * doubleEpsilon)%Q
      by (apply Qmult_le_0_compat; [apply Qabs_nonneg | discriminate]).
    assert (0 <= doubleTiny)%Q by discriminate.
    change (Qabs 0) with 0%Q. lra.
  - pose proof (roundToDouble_close (shortestDecimal x)) as C.
    rewrite E in C.
    setoid_replace (shortestDecimal x - x)%Q with (- (x - shortestDecimal x))%Q by ring.
    now rewrite Qabs_opp.
Qed.

(** The text of a double is within the double's relative error of it. *)
Lemma Number_toString_close (x : Q) :
  (Qabs (Number_toString x - x)
   <= Qabs (Number_toString x) * doubleEpsilon + doubleTiny)%Q.
Proof.
  unfold Number_toString. destruct (Qcompare_spec x 0) as [E|L|G].
  - rewrite E. cbn. discriminate.
  - pose proof (shortestDecimal_close (- x)) as C.
    rewrite Qabs_opp.
    setoid_replace (- shortestDecimal (- x) - x)%Q
      with (- (shortestDecimal (- x) - - x))%Q by ring.
    now rewrite Qabs_opp.
  - apply shortestDecimal_close.
Qed.

(* ================================================================== *)
(** ** The decimal column                                              *)
(* ================================================================== *)

Lemma Qfloor_unique (y : Q) (z : Z) :
  (inject_Z z <= y)%Q -> (y < inject_Z (z + 1))%Q -> Qfloor y = z.
Proof.
  intros L U.
  assert (H1 : z <= Qfloor y).
  { rewrite <- (Qfloor_Z z). now apply Qfloor_resp_le. }
  assert (H2 : Qfloor y < z + 1).
  { rewrite Zlt_Qlt. eapply Qle_lt_trans; [apply Qfloor_le | exact U]. }
  lia.
Qed.

(** A number within less than a half of an integer rounds to it. *)
Lemma roundHalfAwayFromZero_near (x : Q) (z : Z) :
  (Qabs (x - inject_Z z) < 1 # 2)%Q -> roundHalfAwayFromZero x = z.
Proof.
  intros H. apply Qabs_Qlt_condition in H. destruct H as [L U].
  unfold roundHalfAwayFromZero. destruct (Qle_bool 0 x).
  - apply Qfloor_unique; rewrite ?inject_Z_plus; change (inject_Z 1) with 1%Q; lra.
  - assert (E : Qfloor (- x + (1 # 2)) = - z).
    { apply Qfloor_unique; rewrite ?inject_Z_plus, inject_Z_opp;
        change (inject_Z 1) with 1%Q; lra. }
    rewrite E. lia.
Qed.

(** A number whose magnitude is within a half of [l] or beyond rounds to
    [l] or beyond. *)
Lemma roundHalfAwayFromZero_far (x : Q) (l : Z) :
  (inject_Z l - (1 # 2) <= Qabs x)%Q -> l <= Z.abs (roundHalfAwayFromZero x).
Proof.
  intros H. unfold roundHalfAwayFromZero.
  destruct (Qle_bool 0 x) eqn:S.
  - apply Qle_bool_iff in S. rewrite Qabs_pos in H by exact S.
    assert (l <= Qfloor (x + (1 # 2))).
    { rewrite <- (Qfloor_Z l). apply Qfloor_resp_le. lra. }
    lia.
  - assert (S' : (x < 0)%Q).
    { apply Qnot_le_lt. intros C. apply Qle_bool_iff in C. congruence. }
    rewrite Qabs_neg in H by lra.
    assert (l <= Qfloor (- x + (1 # 2))).
    { rewrite <- (Qfloor_Z l). apply Qfloor_resp_le. lra. }
    lia.
Qed.

Lemma roundHalfAwayFromZero_close (x : Q) :
  (Qabs (inject_Z (roundHalfAwayFromZero x) - x) <= 1 # 2)%Q.
Proof.
  apply Qabs_Qle_condition. unfold roundHalfAwayFromZero.
  destruct (Qle_bool 0 x).
  - pose proof (Qfloor_le (x + (1 # 2))) as L.
    pose proof (Qlt_floor (x + (1 # 2))) as U.
    rewrite inject_Z_plus in U.
    set (f := inject_Z (Qfloor (x + (1 # 2)))) in *.
    change (inject_Z 1) with 1%Q in U.
    split; lra.
  - pose proof (Qfloor_le (- x + (1 # 2))) as L.
    pose proof (Qlt_floor (- x + (1 # 2))) as U.
    rewrite inject_Z_plus in U. rewrite inject_Z_opp.
    set (f := inject_Z (Qfloor (- x + (1 # 2)))) in *.
    change (inject_Z 1) with 1%Q in U.
    split; lra.
Qed.

Lemma hundredths_eq (z : Z) : (z # 100 == inject_Z z * (1 # 100))%Q.
Proof. unfold Qeq, Qmult, inject_Z. cbn [Qnum Qden]. lia. Qed.

Lemma pow2_1024_large : (1000000000000 < pow2 1024)%Q.
Proof. reflexivity. Qed.

(** A sum read with [parseFloat] and written back with [toString] comes
    back unchanged when it fits the column, and is refused when it does
    not. *)
Lemma toDecimal_parseFloat (d : decimal) :
  toDecimal (parseFloat d) = if fitsColumn d then Some d else None.
Proof.
  destruct d as [z|]; [|reflexivity].
  unfold parseFloat, numberOf, fitsColumn, decimalLimit. cbv zeta.
  pose proof (roundToDouble_close (z # 100)) as F1.
  set (v := roundToDouble (z # 100)) in *. clearbody v.
  rewrite hundredths_eq in F1.
  assert (Eps : doubleEpsilon = 1 # 9007199254740992) by reflexivity.
  assert (Tiny : (0 <= doubleTiny /\ doubleTiny <= 1 # 1000000000000)%Q)
    by (split; [discriminate | apply Qle_bool_iff; vm_compute; reflexivity]).
  destruct Tiny as [T0 T1].
  apply Qabs_Qle_condition in F1. destruct F1 as [F1l F1u].
  pose proof pow2_1024_large as Big.
  destruct (Z.ltb_spec (Z.abs z) 10000000000) as [Hz|Hz].
  - (* the sum fits: nothing overflows and the hundredths come back *)
    assert (Hq : (- 10000000000 < inject_Z z /\ inject_Z z < 10000000000)%Q).
    { unfold Qlt, inject_Z. cbn [Qnum Qden]. lia. }
    destruct Hq as [Hq1 Hq2].
    set (zq := inject_Z z) in *.
    rewrite Eps in *.
    assert (Hv : Qle_bool (pow2 1024) (Qabs v) = false).
    { apply not_true_iff_false. intros C. apply Qle_bool_iff in C.
      clearbody zq. split_Qabs v; split_Qabs (zq * (1 # 100))%Q; lra. }
    rewrite Hv. cbn [toDecimal].
    pose proof (Number_toString_close v) as F2.
    set (t := Number_toString v) in *. clearbody t.
    apply Qabs_Qle_condition in F2. destruct F2 as [F2l F2u]. rewrite Eps in *.
    assert (R : roundHalfAwayFromZero (t * inject_Z 100) = z).
    { apply roundHalfAwayFromZero_near. change (inject_Z 100) with 100%Q.
      fold zq. apply Qabs_Qlt_condition.
      split_Qabs t; split_Qabs (zq * (1 # 100))%Q; split; lra. }
    rewrite R. destruct (Z.ltb_spec (Z.abs z) decimalLimit) as [_|C];
      [reflexivity | unfold decimalLimit in C; lia].
  - (* the sum does not fit: an infinity or too many digits *)
    destruct (Qle_bool (pow2 1024) (Qabs v)); [now destruct (Qle_bool 0 v)|].
    cbn [toDecimal].
    pose proof (Number_toString_close v) as F2.
    set (t := Number_toString v) in *. clearbody t.
    apply Qabs_Qle_condition in F2. destruct F2 as [F2l F2u]. rewrite Eps in *.
    assert (R : 10000000000 <= Z.abs (roundHalfAwayFromZero (t * inject_Z 100))).
    { apply roundHalfAwayFromZero_far. change (inject_Z 100) with 100%Q.
      change (inject_Z 10000000000) with 10000000000%Q.
      assert (Hq : (inject_Z z <= - 10000000000 \/ 10000000000 <= inject_Z z)%Q).
      { unfold Qle, inject_Z. cbn [Qnum Qden]. lia. }
      set (zq := inject_Z z) in *. clearbody zq.
      destruct Hq as [Hq|Hq];
        split_Qabs t; split_Qabs (zq * (1 # 100))%Q; split_Qabs (t * 100)%Q; lra. }
    destruct (Z.ltb_spec (Z.abs (roundHalfAwayFromZero (t * inject_Z 100))) decimalLimit)
      as [C|_]; [unfold decimalLimit in C; lia | reflexivity].
Qed.

(* ------------------------------------------------------------------ *)
(** *** A quotient on its way to the column                            *)
(* ------------------------------------------------------------------ *)

Lemma doubleTiny_small : (0 <= doubleTiny /\ doubleTiny <= 1 # 1000000000000)%Q.
Proof. split; [discriminate | apply Qle_bool_iff; vm_compute; reflexivity]. Qed.

(** The hundredths the column keeps of the text of the double nearest
    to [x] are within a half and a hundred-thousandth of [100 x], for a
    [x] below two hundred million in magnitude. *)
Lemma hundredths_close (x : Q) :
  (Qabs x <= 200000000)%Q ->
  (Qabs (inject_Z (roundHalfAwayFromZero
                     (Number_toString (roundToDouble x) * inject_Z 100))
         - x * 100)
   <= (1 # 2) + (1 # 100000))%Q.
Proof.
  intros Hx.
  pose proof (roundToDouble_close x) as F1.
  set (y := roundToDouble x) in *. clearbody y.
  pose proof (Number_toString_close y) as F2.
  set (t := Number_toString y) in *. clearbody t.
  pose proof (roundHalfAwayFromZero_close (t * inject_Z 100)) as F3.
  set (v := inject_Z (roundHalfAwayFromZero (t * inject_Z 100))) in *. clearbody v.
  change (inject_Z 100) with 100%Q in *.
  destruct doubleTiny_small as [T0 T1].
  assert (Eps : doubleEpsilon = 1 # 9007199254740992) by reflexivity.
  rewrite Eps in *.
  apply Qabs_Qle_condition in F1, F2, F3.
  destruct F1 as [F1l F1u], F2 as [F2l F2u], F3 as [F3l F3u].
  apply Qabs_Qle_condition.
  split_Qabs x; split_Qabs t; split; lra.
Qed.

(** Conversely, hundredths the column has taken bound the number. *)
Lemma hundredths_stored (x : Q) :
  Z.abs (roundHalfAwayFromZero (Number_toString (roundToDouble x) * inject_Z 100))
  < decimalLimit ->
  (Qabs x <= 200000000)%Q.
Proof.
  intros Hv.
  assert (Hq : (- 10000000000
                < inject_Z (roundHalfAwayFromZero
                              (Number_toString (roundToDouble x) * inject_Z 100))
                < 10000000000)%Q).
  { unfold decimalLimit in Hv.
    set (z := roundHalfAwayFromZero _) in *. clearbody z.
    unfold Qlt. cbn. lia. }
  pose proof (roundToDouble_close x) as F1.
  set (y := roundToDouble x) in *. clearbody y.
  pose proof (Number_toString_close y) as F2.
  set (t := Number_toString y) in *. clearbody t.
  pose proof (roundHalfAwayFromZero_close (t * inject_Z 100)) as F3.
  set (v := inject_Z (roundHalfAwayFromZero (t * inject_Z 100))) in *. clearbody v.
  change (inject_Z 100) with 100%Q in *.
  destruct doubleTiny_small as [T0 T1].
  assert (Eps : doubleEpsilon = 1 # 9007199254740992) by reflexivity.
  rewrite Eps in *.
  apply Qabs_Qle_condition in F1, F2, F3.
  destruct F1 as [F1l F1u], F2 as [F2l F2u], F3 as [F3l F3u], Hq as [Hq1 Hq2].
  split_Qabs x; split_Qabs t; lra.
Qed.

(** What the column makes of a quotient of finite numbers by a number
    that is not zero. *)
Lemma toDecimal_quotient (a b : Q) :
  ~ (b == 0)%Q ->
  toDecimal (Number_div (Finite a) (Finite b)) =
  if Qle_bool (pow2 1024) (Qabs (roundToDouble (a / b))) then None
  else
    let hundredths :=
      roundHalfAwayFromZero
        (Number_toString (roundToDouble (a / b)) * inject_Z 100) in
    if Z.abs hundredths <? decimalLimit then Some (Dec hundredths) else None.
Proof.
  intros Hb. cbn [Number_div].
  destruct (Qeq_bool b 0) eqn:E; [apply Qeq_bool_iff in E; contradiction|].
  unfold numberOf. cbv zeta.
  destruct (Qle_bool (pow2 1024) _); [now destruct (Qle_bool 0 _) | reflexivity].
Qed.

(** C5 in numbers: the installment value the column keeps is within
    0.005 and a ten-millionth of the exact quotient. *)
Lemma installmentValue_close (a b : Q) (n : Z) (d : decimal) :
  (b == inject_Z n)%Q -> 1 <= n ->
  toDecimal (Number_div (Finite a) (Finite b)) = Some d ->
  exists v, d = Dec v
            /\ (Qabs (inject_Z v * (1 # 100) - a / inject_Z n)
                <= (1 # 200) + (1 # 10000000))%Q.
Proof.
  intros Hb Hn. 
  assert (Hn0 : ~ (b == 0)%Q).
  { rewrite Hb. intros C. unfold Qeq, inject_Z in C. cbn in C. lia. }
  rewrite (toDecimal_quotient a b Hn0).
  destruct (Qle_bool (pow2 1024) _); [discriminate|]. cbv zeta.
  destruct (Z.ltb_spec
              (Z.abs (roundHalfAwayFromZero
                        (Number_toString (roundToDouble (a / b)) * inject_Z 100)))
              decimalLimit) as [Hv|]; [|discriminate].
  intros [= <-]. eexists. split; [reflexivity|].
  pose proof (hundredths_close (a / b) (hundredths_stored _ Hv)) as C.
  set (v := inject_Z (roundHalfAwayFromZero _)) in *. clearbody v.
  assert (E : (a / inject_Z n == a / b)%Q) by now rewrite Hb.
  rewrite E. set (x := (a / b)%Q) in *. clearbody x.
  apply Qabs_Qle_condition in C. destruct C as [Cl Cu].
  apply Qabs_Qle_condition. split; lra.
Qed.

Lemma Qabs_near (a b e : Q) :
  (Qabs (a - b) <= e)%Q -> (Qabs a <= Qabs b + e)%Q.
Proof.
  intros H. apply Qabs_Qle_condition in H. destruct H as [L U].
  split_Qabs a; split_Qabs b; lra.
Qed.

Lemma Qabs_inject_Z (z : Z) : Qabs (inject_Z z) = inject_Z (Z.abs z).
Proof. reflexivity. Qed.

(** An amount whose text has two decimals at most, divided by a whole
    number of installments: the column takes the quotient, and the
    installments together stay within one hundredth each of the
    amount. *)
Lemma quotient_fits (a b : Q) (n c : Z) :
  (b == inject_Z n)%Q -> 1 <= n ->
  (Number_toString a * inject_Z 100 == inject_Z c)%Q ->
  Z.abs c + n < decimalLimit ->
  exists v,
    toDecimal (Number_div (Finite a) (Finite b)) = Some (Dec v)
    /\ n * Z.abs v <= Z.abs c + n.
Proof.
  intros Hb Hn Hc Hroom. unfold decimalLimit in Hroom.
  assert (Hn0 : ~ (b == 0)%Q).
  { rewrite Hb. intros C. unfold Qeq, inject_Z in C. cbn in C. lia. }
  rewrite (toDecimal_quotient a b Hn0). cbv zeta.
  destruct doubleTiny_small as [T0 T1].
  assert (Eps : doubleEpsilon = 1 # 9007199254740992) by reflexivity.
  (* the amount is the value of its text, nearly *)
  assert (Ha : (100 * Qabs a <= inject_Z (Z.abs c) + (1 # 100000))%Q).
  { pose proof (Number_toString_close a) as F0.
    assert (Et : (Number_toString a == inject_Z c * (1 # 100))%Q).
    { change (inject_Z 100) with 100%Q in Hc.
      setoid_replace (Number_toString a) with (Number_toString a * 100 * (1 # 100))%Q
        by ring.
      now rewrite Hc. }
    rewrite Et in F0. rewrite Eps in F0.
    assert (Hcq : (inject_Z (Z.abs c) <= 10000000000)%Q).
    { unfold Qle. cbn. lia. }
    rewrite <- Qabs_inject_Z in *.
    set (cq := inject_Z c) in *. clearbody cq.
    apply Qabs_Qle_condition in F0. destruct F0 as [F0l F0u].
    split_Qabs a; split_Qabs cq; split_Qabs (cq * (1 # 100))%Q; lra. }
  (* the quotient is no larger than the amount *)
  set (x := (a / b)%Q).
  assert (Nq : (1 <= inject_Z n)%Q) by (unfold Qle; cbn; lia).
  assert (Hx : (Qabs x * inject_Z n == Qabs a)%Q).
  { rewrite <- (Qabs_pos (inject_Z n)) at 1 by lra.
    rewrite <- Qabs_Qmult. apply Qabs_wd. subst x. rewrite <- Hb. field. exact Hn0. }
  assert (Hx1 : (Qabs x <= Qabs a)%Q).
  { rewrite <- Hx.
    assert (P : (0 <= Qabs x * (inject_Z n - 1))%Q)
      by (apply Qmult_le_0_compat; [apply Qabs_nonneg | lra]).
    setoid_replace (Qabs x * (inject_Z n - 1))%Q
      with (Qabs x * inject_Z n - Qabs x)%Q in P by ring.
    set (p := (Qabs x * inject_Z n)%Q) in *. clearbody p. lra. }
  assert (Hcq : (inject_Z (Z.abs c) <= 10000000000)%Q) by (unfold Qle; cbn; lia).
  assert (Hx2 : (Qabs x <= 200000000)%Q).
  { pose proof (Qabs_nonneg a). lra. }
  (* nothing overflows *)
  pose proof (roundToDouble_close x) as F1. apply Qabs_near in F1.
  assert (Hy : Qle_bool (pow2 1024) (Qabs (roundToDouble x)) = false).
  { apply not_true_iff_false. intros C. apply Qle_bool_iff in C.
    pose proof pow2_1024_large. rewrite Eps in F1. pose proof (Qabs_nonneg x). lra. }
  rewrite Hy.
  pose proof (hundredths_close x Hx2) as C. apply Qabs_near in C.
  set (v := roundHalfAwayFromZero _) in *. clearbody v.
  rewrite Qabs_inject_Z in C.
  assert (Ex : (Qabs (x * 100) == 100 * Qabs x)%Q).
  { rewrite Qabs_Qmult. change (Qabs 100) with 100%Q. ring. }
  rewrite Ex in C.
  (* the hundredths of one installment, and of all of them *)
  assert (Hv1 : Z.abs v <= Z.abs c).
  { assert (H : (inject_Z (Z.abs v) < inject_Z (Z.abs c + 1))%Q).
    { rewrite inject_Z_plus. change (inject_Z 1) with 1%Q. lra. }
    rewrite <- Zlt_Qlt in H. lia. }
  assert (Hv2 : n * Z.abs v <= Z.abs c + n).
  { rewrite Zle_Qle, inject_Z_mult, inject_Z_plus.
    assert (M : (inject_Z (Z.abs v) * inject_Z n
                 <= (100 * Qabs x + ((1 # 2) + (1 # 100000))) * inject_Z n)%Q)
      by (apply Qmult_le_compat_r; [exact C | lra]).
    setoid_replace ((100 * Qabs x + ((1 # 2) + (1 # 100000))) * inject_Z n)%Q
      with (100 * (Qabs x * inject_Z n) + ((1 # 2) + (1 # 100000)) * inject_Z n)%Q
      in M by ring.
    rewrite Hx in M. rewrite (Qmult_comm (inject_Z n)).
    set (p := (inject_Z (Z.abs v) * inject_Z n)%Q) in *. clearbody p. lra. }
  exists v. split; [|exact Hv2].
  destruct (Z.ltb_spec (Z.abs v) decimalLimit) as [_|C'];
    [reflexivity | unfold decimalLimit in C'; lia].
Qed.

Lemma decimal_eqb_eq (a b : decimal) : decimal_eqb a b = true <-> a = b.
Proof.
  destruct a as [x|], b as [y|]; cbn; try (split; [discriminate | intros [=]]).
  - rewrite Z.eqb_eq. split; [now intros -> | now intros [= ->]].
  - split; reflexivity.
Qed.

Lemma decimal_eqb_refl (a : decimal) : decimal_eqb a a = true.
Proof. now apply decimal_eqb_eq. Qed.

Lemma decimal_add_comm (a b : decimal) : decimal_add a b = decimal_add b a.
Proof. destruct a, b; cbn; try reflexivity. f_equal. lia. Qed.

Lemma decimal_add_assoc (a b c : decimal) :
  decimal_add a (decimal_add b c) = decimal_add (decimal_add a b) c.
Proof. destruct a, b, c; cbn; try reflexivity. f_equal. lia. Qed.

Lemma decimal_add_0_l (a : decimal) : decimal_add (Dec 0) a = a.
Proof. now destruct a. Qed.

Lemma decimal_add_0_r (a : decimal) : decimal_add a (Dec 0) = a.
Proof. destruct a; cbn; [f_equal; lia | reflexivity]. Qed.

(* ================================================================== *)
(** ** The integer column and the counted loop                         *)
(* ================================================================== *)

Lemma toInteger_Some (x : number) (n : Z) :
  toInteger x = Some n ->
  exists q, x = Finite q /\ (q == inject_Z n)%Q /\ int32 n = true.
Proof.
  destruct x as [q| | |]; cbn [toInteger]; try discriminate.
  destruct (Qeq_bool q (inject_Z (Qfloor q))) eqn:E; [|discriminate].
  destruct (int32 (Qfloor q)) eqn:R; [|discriminate].
  cbn [andb]. intros [= <-]. exists q. split; [reflexivity|].
  split; [now apply Qeq_bool_eq | exact R].
Qed.

Lemma toInteger_Z (n : Z) : int32 n = true -> toInteger (Finite (inject_Z n)) = Some n.
Proof.
  intros H. cbn [toInteger]. rewrite Qfloor_Z, Qeq_bool_refl, H. reflexivity.
Qed.

Lemma int32_iff (z : Z) : int32 z = true <-> -2147483648 <= z <= 2147483647.
Proof. unfold int32. rewrite andb_true_iff, !Z.leb_le. tauto. Qed.

(** The loop over a number the integer column takes as [n] visits
    [0], ..., [n - 1]. *)
Lemma forRange_integer (x : number) (n : Z) :
  toInteger x = Some n -> forRange x = map Z.of_nat (seq 0 (Z.to_nat n)).
Proof.
  intros H. apply toInteger_Some in H. destruct H as (q & -> & E & _).
  cbn [forRange]. now rewrite (Qceiling_comp q _ E), Qceiling_Z.
Qed.

(** Every loop visits an initial segment of the naturals. *)
Lemma forRange_seq (x : number) :
  exists len, forRange x = map Z.of_nat (seq 0 len).
Proof.
  destruct x as [q| | |]; cbn [forRange].
  - eauto.
  - now exists 0%nat.
  - now exists 1%nat.
  - now exists 0%nat.
Qed.

(** The loop visits exactly the integers [0 <= i < n], for a finite
    [n]. *)
Lemma forRange_spec (n : Q) (i : Z) :
  In i (forRange (Finite n)) <-> 0 <= i /\ (inject_Z i < n)%Q.
Proof.
  cbn [forRange]. rewrite in_map_iff. split.
  - intros (k & <- & Hk). apply in_seq in Hk. split; [lia|].
    apply Qle_lt_trans with (inject_Z (Qceiling n - 1)).
    + rewrite <- Zle_Qle. lia.
    + apply Qceiling_lt.
  - intros [Hi Hlt]. exists (Z.to_nat i). split; [lia|].
    apply in_seq. split; [lia|].
    assert (H : i < Qceiling n).
    { rewrite Zlt_Qlt. eapply Qlt_le_trans; [exact Hlt | apply Qle_ceiling]. }
    lia.
Qed.

Lemma forRange_nonpositive (x : Q) : (x <= 0)%Q -> forRange (Finite x) = [].
Proof.
  intros H. cbn [forRange].
  assert (Hc : Qceiling x <= 0).
  { rewrite <- (Qceiling_Z 0). now apply Qceiling_resp_le. }
  replace (Z.to_nat (Qceiling x)) with 0%nat by lia. reflexivity.
Qed.

Lemma forRange_positive (x : Q) :
  (0 < x)%Q -> exists rest, forRange (Finite x) = 0 :: rest.
Proof.
  intros H. cbn [forRange].
  assert (Hc : 0 < Qceiling x).
  { rewrite Zlt_Qlt. eapply Qlt_le_trans; [exact H | apply Qle_ceiling]. }
  destruct (Z.to_nat (Qceiling x)) as [|k] eqn:E; [lia|].
  cbn [seq map]. eauto.
Qed.

(* ================================================================== *)
(** ** The aggregate refresh                                           *)
(* ================================================================== *)

Lemma length_filter_existsb {A} (f : A -> bool) (l : list A) :
  (0 <? List.length (filter f l))%nat = existsb f l.
Proof.
  induction l as [|a l IH]; cbn; [reflexivity|].
  destruct (f a); cbn; [reflexivity | exact IH].
Qed.

(** Every way a call of [updateMonthlyInvoice] can go. *)
Lemma updateMonthlyInvoice_run (month : string) (cardId : Uuid) (v : number) (db : Db) :
  updateMonthlyInvoice month cardId v db =
  match toDecimal v with
  | None => (db, Rejected DatabaseError)
  | Some totalValue =>
      if existsb (invoiceWhere month cardId) (monthlyInvoices db)
      then (mkDb (cards db) (purchases db)
              (map (fun r => if invoiceWhere month cardId r
                             then set_totalValue totalValue r else r)
                   (monthlyInvoices db))
              (nextUuid db),
            Fulfilled tt)
      else if referencesCard cardId db
      then (mkDb (cards db) (purchases db)
              (monthlyInvoices db ++ [mkMonthlyInvoice (nextUuid db) month cardId totalValue])
              (S (nextUuid db)),
            Fulfilled tt)
      else (db, Rejected DatabaseError)
  end.
Proof.
  unfold updateMonthlyInvoice, await, select_monthlyInvoices.
  rewrite length_filter_existsb.
  unfold update_monthlyInvoices, insert_monthlyInvoices.
  destruct (existsb (invoiceWhere month cardId) (monthlyInvoices db)) eqn:Ex;
    [rewrite Ex|]; now destruct (toDecimal v).
Qed.

(** A refresh completes with the sum upserted, or is refused and writes
    nothing. *)
Lemma updateMonthlyInvoiceForCard_run (month : string) (cardId : Uuid) (db : Db) :
  updateMonthlyInvoiceForCard month cardId db =
  if refreshCompletes month cardId db
  then (refresh month cardId db, Fulfilled tt)
  else (db, Rejected DatabaseError).
Proof.
  unfold updateMonthlyInvoiceForCard, await, sum_installmentValue.
  rewrite updateMonthlyInvoice_run, toDecimal_parseFloat.
  fold (invoiceSum month cardId db).
  unfold refreshCompletes, refresh.
  destruct (fitsColumn (invoiceSum month cardId db)); cbn [andb]; [|reflexivity].
  destruct (existsb (invoiceWhere month cardId) (monthlyInvoices db)); cbn [orb];
    [reflexivity|].
  now destruct (referencesCard cardId db).
Qed.

Lemma updateMonthlyInvoiceForCard_fulfilled (month : string) (cardId : Uuid)
  (db db' : Db) (u : unit) :
  updateMonthlyInvoiceForCard month cardId db = (db', Fulfilled u) ->
  refreshCompletes month cardId db = true /\ db' = refresh month cardId db.
Proof.
  rewrite updateMonthlyInvoiceForCard_run.
  destruct (refreshCompletes month cardId db); [|discriminate].
  intros [= <-]. auto.
Qed.

Lemma updateMonthlyInvoiceForCard_rejected (month : string) (cardId : Uuid)
  (db db' : Db) (e : Error) :
  updateMonthlyInvoiceForCard month cardId db = (db', Rejected e) ->
  refreshCompletes month cardId db = false /\ db' = db /\ e = DatabaseError.
Proof.
  rewrite updateMonthlyInvoiceForCard_run.
  destruct (refreshCompletes month cardId db); [discriminate|].
  intros [= <- <-]. auto.
Qed.

Lemma refresh_purchases (month : string) (cardId : Uuid) (db : Db) :
  purchases (refresh month cardId db) = purchases db.
Proof. unfold refresh. now destruct existsb. Qed.

Lemma refresh_cards (month : string) (cardId : Uuid) (db : Db) :
  cards (refresh month cardId db) = cards db.
Proof. unfold refresh. now destruct existsb. Qed.

(** Whether it completes or not, a refresh leaves the cards and the
    purchase rows alone. *)
Lemma updateMonthlyInvoiceForCard_purchases (month : string) (cardId : Uuid) (db : Db) :
  purchases (fst (updateMonthlyInvoiceForCard month cardId db)) = purchases db
  /\ cards (fst (updateMonthlyInvoiceForCard month cardId db)) = cards db.
Proof.
  rewrite updateMonthlyInvoiceForCard_run.
  destruct (refreshCompletes month cardId db); cbn [fst]; [|auto].
  split; [apply refresh_purchases | apply refresh_cards].
Qed.

Lemma invoiceSum_purchases (month : string) (cardId : Uuid) (db db' : Db) :
  purchases db' = purchases db -> invoiceSum month cardId db' = invoiceSum month cardId db.
Proof. unfold invoiceSum. now intros ->. Qed.

Lemma invoiceWhere_refl (month : string) (cardId : Uuid) (i : Uuid) (t : decimal) :
  invoiceWhere month cardId (mkMonthlyInvoice i month cardId t) = true.
Proof. unfold invoiceWhere. cbn. now rewrite String.eqb_refl, Nat.eqb_refl. Qed.

Lemma invoiceWhere_true (month : string) (cardId : Uuid) (r : MonthlyInvoice) :
  invoiceWhere month cardId r = true <-> mi_month r = month /\ mi_cardId r = cardId.
Proof.
  unfold invoiceWhere. rewrite andb_true_iff, String.eqb_eq, Nat.eqb_eq. tauto.
Qed.

(** In the refreshed table every row is either a row of the pair, now
    holding the sum, or a row of another pair, left as it was. *)
Lemma refresh_rows (month : string) (cardId : Uuid) (db : Db) (r : MonthlyInvoice) :
  In r (monthlyInvoices (refresh month cardId db)) ->
  (invoiceWhere month cardId r = true
   /\ mi_totalValue r = invoiceSum month cardId db)
  \/ (invoiceWhere month cardId r = false /\ In r (monthlyInvoices db)).
Proof.
  unfold refresh.
  destruct (existsb (invoiceWhere month cardId) (monthlyInvoices db)) eqn:Ex; cbn.
  - rewrite in_map_iff. intros (r0 & E & Hin).
    destruct (invoiceWhere month cardId r0) eqn:W.
    + left. subst r. split; [|reflexivity].
      apply invoiceWhere_true in W. apply invoiceWhere_true. exact W.
    + right. subst r. auto.
  - rewrite in_app_iff. intros [Hin | [<- | []]].
    + destruct (invoiceWhere month cardId r) eqn:W.
      * exfalso.
        assert (X : existsb (invoiceWhere month cardId) (monthlyInvoices db) = true)
          by (apply existsb_exists; eauto).
        congruence.
      * right. auto.
    + left. split; [apply invoiceWhere_refl | reflexivity].
Qed.

Lemma refresh_row_exists (month : string) (cardId : Uuid) (db : Db) :
  existsb (invoiceWhere month cardId) (monthlyInvoices (refresh month cardId db)) = true.
Proof.
  unfold refresh.
  destruct (existsb (invoiceWhere month cardId) (monthlyInvoices db)) eqn:Ex;
    cbn [monthlyInvoices].
  - apply existsb_exists in Ex. destruct Ex as (r & Hr & W).
    apply existsb_exists.
    exists (set_totalValue (invoiceSum month cardId db) r).
    split.
    + apply in_map_iff. exists r. now rewrite W.
    + apply invoiceWhere_true in W. now apply invoiceWhere_true.
  - rewrite existsb_app. cbn [existsb].
    rewrite invoiceWhere_refl. now rewrite orb_true_r.
Qed.

(* ================================================================== *)
(** ** Consistency of the invoice table                                *)
(* ================================================================== *)

Lemma invoicesConsistent_iff (db : Db) :
  invoicesConsistent db = true <->
  forall r, In r (monthlyInvoices db) ->
            mi_totalValue r = invoiceSum (mi_month r) (mi_cardId r) db.
Proof.
  unfold invoicesConsistent. rewrite forallb_forall.
  split; intros H r Hr; specialize (H r Hr); now apply decimal_eqb_eq.
Qed.

Lemma consistentExcept_nil (cardId : Uuid) (db : Db) :
  consistentExcept [] cardId db <-> invoicesConsistent db = true.
Proof.
  rewrite invoicesConsistent_iff. unfold consistentExcept. split; intros H r Hr.
  - destruct (H r Hr) as [[_ []] | E]; exact E.
  - right. auto.
Qed.

(** One refresh settles the month it is run for. *)
Lemma refresh_consistentExcept (month : string) (pending : list string)
  (cardId : Uuid) (db : Db) :
  consistentExcept (month :: pending) cardId db ->
  consistentExcept pending cardId (refresh month cardId db).
Proof.
  intros H r Hr.
  rewrite (invoiceSum_purchases _ _ db) by apply refresh_purchases.
  destruct (refresh_rows _ _ _ _ Hr) as [[W E] | [W Hin]].
  - right. apply invoiceWhere_true in W. destruct W as [-> ->]. exact E.
  - destruct (H r Hin) as [[Ec [Em | Hp]] | E].
    + exfalso. assert (X : invoiceWhere month cardId r = true)
        by (apply invoiceWhere_true; auto). congruence.
    + left. auto.
    + right. exact E.
Qed.

Lemma refreshAll_consistent (months : list string) (cardId : Uuid) (db : Db) :
  consistentExcept months cardId db ->
  invoicesConsistent (refreshAll months cardId db) = true.
Proof.
  unfold refreshAll. revert db.
  induction months as [|m months IH]; intros db H; cbn [fold_left].
  - now apply (consistentExcept_nil cardId).
  - apply IH. now apply refresh_consistentExcept.
Qed.

Lemma refreshAll_purchases (months : list string) (cardId : Uuid) (db : Db) :
  purchases (refreshAll months cardId db) = purchases db.
Proof.
  unfold refreshAll. revert db.
  induction months as [|m months IH]; intros db; cbn [fold_left]; [reflexivity|].
  rewrite IH. apply refresh_purchases.
Qed.

Lemma refreshAll_cards (months : list string) (cardId : Uuid) (db : Db) :
  cards (refreshAll months cardId db) = cards db.
Proof.
  unfold refreshAll. revert db.
  induction months as [|m months IH]; intros db; cbn [fold_left]; [reflexivity|].
  rewrite IH. apply refresh_cards.
Qed.

(** A run of refreshes that completes leaves what one completed refresh
    per month leaves. *)
Lemma forOf_fulfilled (months : list string) (cardId : Uuid) (db db' : Db) (u : unit) :
  forOf months (fun invoiceMonth => updateMonthlyInvoiceForCard invoiceMonth cardId) db
  = (db', Fulfilled u) ->
  db' = refreshAll months cardId db.
Proof.
  unfold refreshAll. revert db.
  induction months as [|m months IH]; intros db; cbn [fold_left forOf].
  - now intros [= <-].
  - unfold await. rewrite updateMonthlyInvoiceForCard_run.
    destruct (refreshCompletes m cardId db); [apply IH | discriminate].
Qed.

(** What holds of the database before a run of refreshes and is kept by
    each of them, completed or not, holds after the run however it
    ends. *)
Lemma forOf_invariant (P : Db -> Prop) (months : list string) (cardId : Uuid) :
  (forall month db, P db -> P (fst (updateMonthlyInvoiceForCard month cardId db))) ->
  forall db, P db ->
    P (fst (forOf months
              (fun invoiceMonth => updateMonthlyInvoiceForCard invoiceMonth cardId) db)).
Proof.
  intros Hstep. induction months as [|m months IH]; intros db H; cbn [forOf].
  - exact H.
  - unfold await. specialize (Hstep m db H).
    destruct (updateMonthlyInvoiceForCard m cardId db) as [d [u|e]]; cbn [fst] in *.
    + now apply IH.
    + exact Hstep.
Qed.

Lemma forOf_rejected (months : list string) (cardId : Uuid) (db db' : Db) (e : Error) :
  forOf months (fun invoiceMonth => updateMonthlyInvoiceForCard invoiceMonth cardId) db
  = (db', Rejected e) ->
  e = DatabaseError.
Proof.
  revert db. induction months as [|m months IH]; intros db; cbn [forOf].
  - discriminate.
  - unfold await.
    destruct (updateMonthlyInvoiceForCard m cardId db) as [d [u|e']] eqn:R.
    + apply IH.
    + apply updateMonthlyInvoiceForCard_rejected in R. destruct R as (_ & _ & ->).
      now intros [= _ <-].
Qed.

Lemma sumDecimal_app (l1 l2 : list decimal) :
  sumDecimal (l1 ++ l2) = decimal_add (sumDecimal l1) (sumDecimal l2).
Proof.
  unfold sumDecimal. induction l1 as [|a l1 IH]; cbn [app fold_right].
  - now rewrite decimal_add_0_l.
  - now rewrite IH, decimal_add_assoc.
Qed.

Lemma purchaseWhere_true (month : string) (cardId : Uuid) (p : Purchase) :
  purchaseWhere month cardId p = true <-> p_invoiceMonth p = month /\ p_cardId p = cardId.
Proof.
  unfold purchaseWhere. rewrite andb_true_iff, String.eqb_eq, Nat.eqb_eq. tauto.
Qed.

(** Adding a row changes the sum of its own month and card only. *)
Lemma invoiceSum_insert (month : string) (cardId : Uuid) (db : Db) (row : Purchase) :
  invoiceSum month cardId
    (mkDb (cards db) (purchases db ++ [row]) (monthlyInvoices db) (S (nextUuid db)))
  = decimal_add (invoiceSum month cardId db)
      (if purchaseWhere month cardId row then p_installmentValue row else Dec 0).
Proof.
  unfold invoiceSum. cbn [purchases].
  rewrite filter_app, map_app, sumDecimal_app. cbn [filter].
  destruct (purchaseWhere month cardId row); cbn [map sumDecimal fold_right];
    now rewrite ?decimal_add_0_r.
Qed.

(** A row inserted and its month refreshed keeps the table consistent. *)
Lemma insert_refresh_consistent (db : Db) (row : Purchase) :
  invoicesConsistent db = true ->
  invoicesConsistent
    (refresh (p_invoiceMonth row) (p_cardId row)
       (mkDb (cards db) (purchases db ++ [row]) (monthlyInvoices db) (S (nextUuid db))))
  = true.
Proof.
  intros H. apply (consistentExcept_nil (p_cardId row)).
  apply refresh_consistentExcept.
  rewrite invoicesConsistent_iff in H. intros r Hr. cbn [monthlyInvoices] in Hr.
  rewrite invoiceSum_insert.
  destruct (purchaseWhere (mi_month r) (mi_cardId r) row) eqn:W.
  - left. apply purchaseWhere_true in W. destruct W as [-> ->]. cbn. auto.
  - right. rewrite (H r Hr). now rewrite decimal_add_0_r.
Qed.

(* ------------------------------------------------------------------ *)
(** *** The set of months collected before a delete                    *)
(* ------------------------------------------------------------------ *)

Lemma existsb_eqb_In (x : string) (l : list string) :
  existsb (String.eqb x) l = true <-> In x l.
Proof.
  rewrite existsb_exists. split.
  - intros (y & Hy & E). apply String.eqb_eq in E. now subst.
  - intros H. exists x. split; [exact H | apply String.eqb_refl].
Qed.

Lemma uniqueFrom_In (seen xs : list string) (x : string) :
  In x (uniqueFrom seen xs) <-> In x xs /\ ~ In x seen.
Proof.
  revert seen. induction xs as [|y xs IH]; intros seen; cbn; [tauto|].
  destruct (existsb (String.eqb y) seen) eqn:E.
  - apply existsb_eqb_In in E. rewrite IH. split.
    + tauto.
    + intros [[-> | H] Hn]; [contradiction | tauto].
  - assert (Hy : ~ In y seen).
    { intros Hin. apply existsb_eqb_In in Hin. congruence. }
    cbn. rewrite IH. cbn. split.
    + intros [<- | [H Hn]]; [tauto|]. split; [tauto|]. intros Hs. apply Hn. auto.
    + intros [[<- | H] Hn]; [tauto|].
      destruct (string_dec y x) as [->|Hne]; [tauto|].
      right. split; [exact H|]. intros [E' | Hs]; [congruence | contradiction].
Qed.

Lemma uniqueFrom_NoDup (seen xs : list string) : NoDup (uniqueFrom seen xs).
Proof.
  revert seen. induction xs as [|y xs IH]; intros seen; cbn; [constructor|].
  destruct (existsb (String.eqb y) seen); [apply IH|].
  constructor; [|apply IH].
  rewrite uniqueFrom_In. cbn. tauto.
Qed.

Lemma arrayFromSet_In (xs : list string) (x : string) :
  In x (arrayFromSet xs) <-> In x xs.
Proof. unfold arrayFromSet. rewrite uniqueFrom_In. cbn. tauto. Qed.

Lemma arrayFromSet_NoDup (xs : list string) : NoDup (arrayFromSet xs).
Proof. apply uniqueFrom_NoDup. Qed.

(* ================================================================== *)
(** ** What the two mutations compute                                  *)
(* ================================================================== *)

Lemma getCard_run (id : Uuid) (db : Db) :
  getCard id db
  = (db, Fulfilled (hd_error (filter (fun c => Nat.eqb (c_id c) id) (cards db)))).
Proof. reflexivity. Qed.

Lemma referencesCard_found (id : Uuid) (db : Db) (card : Card) :
  hd_error (filter (fun c => Nat.eqb (c_id c) id) (cards db)) = Some card ->
  referencesCard id db = true.
Proof.
  intros H. unfold referencesCard. apply existsb_exists.
  destruct (filter _ (cards db)) as [|c l] eqn:F; [discriminate|].
  assert (X : In c (filter (fun c => Nat.eqb (c_id c) id) (cards db)))
    by (rewrite F; now left).
  apply filter_In in X. exists c. exact X.
Qed.

(** The columns of a row the insert has written. *)
Lemma purchaseRow_Some (v : PurchaseData) (id : Uuid) (r : Purchase) :
  purchaseRow v id = Some r ->
  toDate (pd_purchaseDate v) = Some (p_purchaseDate r)
  /\ toDecimal (pd_totalValue v) = Some (p_totalValue r)
  /\ toInteger (pd_totalInstallments v) = Some (p_totalInstallments r)
  /\ toDecimal (pd_installmentValue v) = Some (p_installmentValue r)
  /\ int32 (pd_currentInstallment v) = true
  /\ r = mkPurchase id (pd_cardId v) (p_purchaseDate r) (pd_name v) (pd_category v)
           (p_totalValue r) (p_totalInstallments r) (pd_currentInstallment v)
           (p_installmentValue r) (pd_invoiceMonth v).
Proof.
  unfold purchaseRow.
  destruct (toDate _) as [d|]; [|discriminate].
  destruct (toDecimal (pd_totalValue v)) as [t|]; [|discriminate].
  destruct (toInteger _) as [n|]; [|discriminate].
  destruct (toDecimal (pd_installmentValue v)) as [w|]; [|discriminate].
  destruct (int32 _); [|discriminate].
  intros [= <-]. cbn. auto 10.
Qed.

Lemma toDate_Some (s d : IsoDate) :
  toDate s = Some d ->
  d = s /\ validIsoDate s = true /\ 1 <= iso_year s <= 9999.
Proof.
  unfold toDate.
  destruct (validIsoDate s) eqn:V; [|discriminate].
  destruct (Z.leb_spec 1 (iso_year s)); [|discriminate].
  destruct (Z.leb_spec (iso_year s) 9999); [|discriminate].
  cbn. intros [= <-]. auto.
Qed.

(** One turn of the loop: the row is refused, or it is inserted and its
    month refreshed, or it is inserted and the refresh is refused. *)
Lemma installmentTurn_run (tz : TimeZone) (ins : InsertPurchase) (card : Card) (i : Z)
  (db : Db) :
  installmentTurn tz ins card i db =
  let v := installmentData tz ins (c_closingDay card) i in
  match purchaseRow v (nextUuid db) with
  | None => (db, Rejected DatabaseError)
  | Some row =>
      if referencesCard (ip_cardId ins) db
      then
        let db1 := mkDb (cards db) (purchases db ++ [row]) (monthlyInvoices db)
                     (S (nextUuid db)) in
        if refreshCompletes (pd_invoiceMonth v) (ip_cardId ins) db1
        then (refresh (pd_invoiceMonth v) (ip_cardId ins) db1, Fulfilled row)
        else (db1, Rejected DatabaseError)
      else (db, Rejected DatabaseError)
  end.
Proof.
  unfold installmentTurn, await, insert_purchases. cbv zeta.
  destruct (purchaseRow _ _) as [row|]; [|reflexivity].
  change (pd_cardId (installmentData tz ins (c_closingDay card) i)) with (ip_cardId ins).
  destruct (referencesCard (ip_cardId ins) db); [|reflexivity].
  rewrite updateMonthlyInvoiceForCard_run.
  now destruct (refreshCompletes _ _ _).
Qed.

Lemma createPurchase_unfold (tz : TimeZone) (ins : InsertPurchase) (db : Db) :
  createPurchase tz ins db =
  match hd_error (filter (fun c => Nat.eqb (c_id c) (ip_cardId ins)) (cards db)) with
  | None => (db, Rejected CardNotFound)
  | Some card =>
      match forPush (forRange (ip_totalInstallments ins)) (installmentTurn tz ins card)
              [] db with
      | (db', Fulfilled purchaseList) => (db', Fulfilled (hd_error purchaseList))
      | (db', Rejected e) => (db', Rejected e)
      end
  end.
Proof.
  unfold createPurchase. unfold await at 1. rewrite getCard_run.
  destruct (hd_error _) as [card|]; reflexivity.
Qed.

(** The loop of [createPurchase] over the indices [start], ...,
    [start + len - 1]. *)
Lemma createPurchase_loop (tz : TimeZone) (ins : InsertPurchase) (card : Card)
  (len start : nat) (acc : list Purchase) (db : Db) :
  exists rows,
    let res := forPush (map Z.of_nat (seq start len)) (installmentTurn tz ins card)
                 acc db in
    purchases (fst res) = purchases db ++ rows
    /\ cards (fst res) = cards db
    /\ (List.length rows <= len)%nat
    /\ (forall k r, nth_error rows k = Some r ->
          exists id,
            purchaseRow (installmentData tz ins (c_closingDay card) (Z.of_nat (start + k)))
              id = Some r)
    /\ (forall r, hd_error rows = Some r -> p_id r = nextUuid db)
    /\ match snd res with
       | Fulfilled l =>
           l = acc ++ rows /\ List.length rows = len
           /\ (invoicesConsistent db = true -> invoicesConsistent (fst res) = true)
       | Rejected e => e = DatabaseError
       end.
Proof.
  revert start acc db.
  induction len as [|len IH]; intros start acc db; cbn [seq map forPush].
  - exists []. cbn [fst snd resolve]. rewrite !app_nil_r.
    repeat split; auto; try discriminate. intros [|k] r; discriminate.
  - unfold await. rewrite installmentTurn_run. cbv zeta.
    set (v := installmentData tz ins (c_closingDay card) (Z.of_nat start)).
    destruct (purchaseRow v (nextUuid db)) as [row|] eqn:Hrow.
    2:{ exists []. cbn [fst snd]. rewrite app_nil_r.
        repeat split; auto; try discriminate; try (cbn; lia).
        intros [|k] r; discriminate. }
    destruct (referencesCard (ip_cardId ins) db).
    2:{ exists []. cbn [fst snd]. rewrite app_nil_r.
        repeat split; auto; try discriminate; try (cbn; lia).
        intros [|k] r; discriminate. }
    pose proof (purchaseRow_Some _ _ _ Hrow) as (_ & _ & _ & _ & _ & Erow).
    set (db1 := mkDb (cards db) (purchases db ++ [row]) (monthlyInvoices db)
                  (S (nextUuid db))).
    destruct (refreshCompletes (pd_invoiceMonth v) (ip_cardId ins) db1).
    2:{ exists [row]. cbn [fst snd]. repeat split; auto.
        - cbn. lia.
        - intros [|[|k]] r; [|discriminate..]. intros [= <-].
          exists (nextUuid db). now rewrite Nat.add_0_r.
        - intros r [= <-]. rewrite Erow. reflexivity. }
    destruct (IH (S start) (acc ++ [row])
                (refresh (pd_invoiceMonth v) (ip_cardId ins) db1))
      as (rows & Hp & Hc & Hlen & Hnth & _ & Hres).
    cbv zeta in Hp, Hc, Hres.
    exists (row :: rows). cbv zeta.
    rewrite Hp, Hc, refresh_purchases, refresh_cards. subst db1. cbn [purchases cards].
    rewrite <- app_assoc. cbn [app].
    split; [reflexivity|]. split; [reflexivity|]. split; [cbn; lia|].
    split; [|split].
    + intros [|k] r; cbn [nth_error].
      * intros [= <-]. exists (nextUuid db). now rewrite Nat.add_0_r.
      * intros Hk. destruct (Hnth k r Hk) as (id & Hid). exists id.
        now replace (start + S k)%nat with (S start + k)%nat by lia.
    + intros r [= <-]. rewrite Erow. reflexivity.
    + destruct (snd (forPush _ _ _ _)) as [l|e]; [|exact Hres].
      destruct Hres as (El & Hl & Hi).
      split; [now rewrite El, <- app_assoc|]. split; [cbn; lia|].
      intros H. apply Hi.
      replace (pd_invoiceMonth v) with (p_invoiceMonth row)
        by (rewrite Erow; reflexivity).
      replace (ip_cardId ins) with (p_cardId row) by (rewrite Erow; reflexivity).
      now apply insert_refresh_consistent.
Qed.

(** Every way a call of [createPurchase] can go.  With no card it is
    rejected and writes nothing.  Otherwise it appends rows for the
    first indices of the loop, each the row the insert makes of the
    object built for its index; it completes when the row of every
    index has been inserted and its month refreshed, and returns the
    first of them; it is rejected by the database otherwise. *)
Lemma createPurchase_run (tz : TimeZone) (ins : InsertPurchase) (db : Db) :
  match hd_error (filter (fun c => Nat.eqb (c_id c) (ip_cardId ins)) (cards db)) with
  | None => createPurchase tz ins db = (db, Rejected CardNotFound)
  | Some card =>
      exists rows len,
        forRange (ip_totalInstallments ins) = map Z.of_nat (seq 0 len)
        /\ purchases (fst (createPurchase tz ins db)) = purchases db ++ rows
        /\ cards (fst (createPurchase tz ins db)) = cards db
        /\ (List.length rows <= len)%nat
        /\ (forall k r, nth_error rows k = Some r ->
              exists id,
                purchaseRow (installmentData tz ins (c_closingDay card) (Z.of_nat k)) id
                = Some r)
        /\ (forall r, hd_error rows = Some r -> p_id r = nextUuid db)
        /\ match snd (createPurchase tz ins db) with
           | Fulfilled returned =>
               returned = hd_error rows /\ List.length rows = len
               /\ (invoicesConsistent db = true ->
                   invoicesConsistent (fst (createPurchase tz ins db)) = true)
           | Rejected e => e = DatabaseError
           end
  end.
Proof.
  rewrite createPurchase_unfold.
  destruct (hd_error _) as [card|]; [|reflexivity].
  destruct (forRange_seq (ip_totalInstallments ins)) as (len & Hrange).
  rewrite Hrange.
  destruct (createPurchase_loop tz ins card len 0 [] db)
    as (rows & Hp & Hc & Hlen & Hnth & Hid & Hres).
  cbv zeta in Hp, Hc, Hres.
  exists rows, len.
  destruct (forPush _ _ _ _) as [db' [l|e]]; cbn [fst snd] in *.
  - destruct Hres as (-> & Hl & Hi). repeat split; auto.
  - repeat split; auto.
Qed.

(** What holds of the database before a call of [createPurchase] and is
    kept by every insert of a row of the card and by every refresh of a
    month of the card, completed or not, holds after the call however
    it ends. *)
Lemma forPush_invariant {A} (P : Db -> Prop) (body : Z -> Promise A) :
  (forall i db, P db -> P (fst (body i db))) ->
  forall indices acc db, P db -> P (fst (forPush indices body acc db)).
Proof.
  intros Hbody indices.
  induction indices as [|i rest IH]; intros acc db H; cbn [forPush]; [exact H|].
  unfold await. specialize (Hbody i db H).
  destruct (body i db) as [db1 [a|e]]; cbn [fst] in *; [now apply IH | exact Hbody].
Qed.

Lemma createPurchase_invariant (P : Db -> Prop) (tz : TimeZone) (ins : InsertPurchase)
  (db : Db) :
  P db ->
  (forall v d, pd_cardId v = ip_cardId ins -> P d ->
               P (fst (insert_purchases v d))) ->
  (forall month d, P d -> P (fst (updateMonthlyInvoiceForCard month (ip_cardId ins) d))) ->
  P (fst (createPurchase tz ins db)).
Proof.
  intros H Hins Href. rewrite createPurchase_unfold.
  destruct (hd_error _) as [card|]; [|exact H].
  assert (Hloop : P (fst (forPush (forRange (ip_totalInstallments ins))
                            (installmentTurn tz ins card) [] db))).
  { apply forPush_invariant; [|exact H].
    intros i d Hd. unfold installmentTurn, await. cbv zeta.
    match goal with |- context [insert_purchases ?v d] =>
      specialize (Hins v d eq_refl Hd); destruct (insert_purchases v d) as [d1 [p|e]]
    end; cbn [fst] in *; [|exact Hins].
    match goal with |- context [updateMonthlyInvoiceForCard ?m ?c d1] =>
      specialize (Href m d1 Hins);
      destruct (updateMonthlyInvoiceForCard m c d1) as [d2 [u|e]]
    end; exact Href. }
  destruct (forPush _ _ [] db) as [db' [l|e]]; exact Hloop.
Qed.

Lemma IsoDate_eqb_eq (a b : IsoDate) : IsoDate_eqb a b = true <-> a = b.
Proof.
  unfold IsoDate_eqb. rewrite !andb_true_iff, !Z.eqb_eq.
  destruct a, b; cbn. split.
  - intros [[-> ->] ->]. reflexivity.
  - intros [= -> -> ->]. auto.
Qed.

(** The sibling test is equality on the five grouping columns. *)
Lemma siblingWhere_true (purchase p : Purchase) :
  siblingWhere purchase p = true <->
  p_cardId p = p_cardId purchase
  /\ p_purchaseDate p = p_purchaseDate purchase
  /\ p_name p = p_name purchase
  /\ p_totalValue p = p_totalValue purchase
  /\ p_totalInstallments p = p_totalInstallments purchase.
Proof.
  unfold siblingWhere.
  rewrite !andb_true_iff, Nat.eqb_eq, IsoDate_eqb_eq, String.eqb_eq, decimal_eqb_eq,
    Z.eqb_eq.
  tauto.
Qed.

(** [deletePurchase] is the removal of the siblings followed by the run
    of refreshes over the months collected. *)
Lemma deletePurchase_run (id : Uuid) (db : Db) :
  deletePurchase id db =
  match filter (fun p => Nat.eqb (p_id p) id) (purchases db) with
  | [] => (db, Fulfilled tt)
  | purchase :: _ =>
      forOf
        (arrayFromSet (map p_invoiceMonth (filter (siblingWhere purchase) (purchases db))))
        (fun invoiceMonth => updateMonthlyInvoiceForCard invoiceMonth (p_cardId purchase))
        (withoutSiblings purchase db)
  end.
Proof.
  unfold deletePurchase, await, select_purchases, delete_purchases.
  now destruct (filter _ (purchases db)) as [|purchase rest].
Qed.

Lemma filter_filter_implied {A} (f g : A -> bool) (l : list A) :
  (forall x, In x l -> f x = true -> g x = true) ->
  filter f (filter g l) = filter f l.
Proof.
  induction l as [|a l IH]; intros H; cbn [filter]; [reflexivity|].
  assert (IH' : filter f (filter g l) = filter f l)
    by (apply IH; intros x Hx; apply H; now right).
  destruct (g a) eqn:G; cbn [filter].
  - now rewrite IH'.
  - destruct (f a) eqn:F; [|exact IH'].
    rewrite (H a (or_introl eq_refl) F) in G. discriminate.
Qed.

(** Removing the siblings leaves the sum of every pair untouched, except
    the pairs of the card whose months were collected. *)
Lemma withoutSiblings_consistentExcept (purchase : Purchase) (db : Db) :
  invoicesConsistent db = true ->
  consistentExcept
    (arrayFromSet (map p_invoiceMonth (filter (siblingWhere purchase) (purchases db))))
    (p_cardId purchase) (withoutSiblings purchase db).
Proof.
  intros H. rewrite invoicesConsistent_iff in H. intros r Hr.
  cbn [withoutSiblings monthlyInvoices] in Hr.
  set (months := arrayFromSet _).
  assert (Hsum :
    ~ (mi_cardId r = p_cardId purchase /\ In (mi_month r) months) ->
    invoiceSum (mi_month r) (mi_cardId r) (withoutSiblings purchase db)
    = invoiceSum (mi_month r) (mi_cardId r) db).
  { intros Hn. unfold invoiceSum, withoutSiblings. cbn [purchases].
    rewrite filter_filter_implied; [reflexivity|].
    intros q Hq W. apply purchaseWhere_true in W. destruct W as [Wm Wc].
    destruct (siblingWhere purchase q) eqn:S; [|reflexivity].
    exfalso. apply Hn. split.
    - apply siblingWhere_true in S. destruct S as [Sc _]. congruence.
    - subst months. apply arrayFromSet_In. rewrite <- Wm.
      apply in_map. apply filter_In. auto. }
  destruct (Nat.eq_dec (mi_cardId r) (p_cardId purchase)) as [Ec|Ec].
  - destruct (in_dec string_dec (mi_month r) months) as [Hm|Hm].
    + left. auto.
    + right. rewrite Hsum by tauto. auto.
  - right. rewrite Hsum by tauto. auto.
Qed.

(* ================================================================== *)
(** ** The invariant of the invoice table                              *)
(* ================================================================== *)



(** A call of [createPurchase] the database rejects half way leaves the
    invoice table inconsistent: the second purchase of 60 000 000.00
    has its row inserted, the refresh of the month is refused, and the
    monthly invoice still shows the first purchase alone. *)
Example rejected_createPurchase_leaves_stale_invoice :
  let db1 := fst (createPurchase UtcOrEast largePurchase sampleDb) in
  invoicesConsistent db1 = true
  /\ snd (createPurchase UtcOrEast largePurchase db1) = Rejected DatabaseError
  /\ fst (createPurchase UtcOrEast largePurchase db1) = overdrawnDb
  /\ map p_installmentValue (purchases overdrawnDb) = [Dec 6000000000; Dec 6000000000]
  /\ map mi_totalValue (monthlyInvoices overdrawnDb) = [Dec 6000000000]
  /\ invoicesConsistent overdrawnDb = false.
Proof. by_computation. Qed.

(* ================================================================== *)
(** ** The refresh as an upsert                                        *)
(* ================================================================== *)

Lemma invoiceSum_no_rows (month : string) (cardId : Uuid) (db : Db) :
  filter (purchaseWhere month cardId) (purchases db) = [] ->
  invoiceSum month cardId db = Dec 0.
Proof. unfold invoiceSum. now intros ->. Qed.

(** C6, as the code has it.  The aggregate refresh is an upsert of the
    sum, provided the database takes it.  For every month and card the
    sum is that of [installmentValue] over the purchase rows of the
    month and card, [0] when there is none.  When the sum fits the
    column ([NaN], or fewer than [10^10] hundredths in magnitude) and
    either a monthly-invoice row of the pair exists or a card carries
    the identifier, the refresh completes, touches neither the cards
    nor the purchase rows, and stores the sum: the total of every
    existing row of the pair is overwritten and no row is added, or
    else one row holding the sum is appended; a row of the pair exists
    afterwards and no row is removed.  Otherwise the refresh is
    rejected by the database and nothing is written. *)
Theorem refresh_upserts_sum (month : string) (cardId : Uuid) (db : Db) :
  let total := invoiceSum month cardId db in
  (if existsb (purchaseWhere month cardId) (purchases db) then True else total = Dec 0)
  /\ if fitsColumn total
        && (existsb (invoiceWhere month cardId) (monthlyInvoices db)
            || existsb (fun c => Nat.eqb (c_id c) cardId) (cards db))
     then
       exists db',
         updateMonthlyInvoiceForCard month cardId db = (db', Fulfilled tt)
         /\ updateMonthlyInvoice month cardId (parseFloat total) db = (db', Fulfilled tt)
         /\ cards db' = cards db
         /\ purchases db' = purchases db
         /\ monthlyInvoices db' =
            (if existsb (invoiceWhere month cardId) (monthlyInvoices db)
             then map (fun r => if invoiceWhere month cardId r
                                then mkMonthlyInvoice (mi_id r) (mi_month r) (mi_cardId r)
                                       total
                                else r)
                      (monthlyInvoices db)
             else monthlyInvoices db ++ [mkMonthlyInvoice (nextUuid db) month cardId total])
         /\ existsb (invoiceWhere month cardId) (monthlyInvoices db') = true
         /\ forallb (fun r => implb (invoiceWhere month cardId r)
                                (decimal_eqb (mi_totalValue r) total))
              (monthlyInvoices db') = true
         /\ (List.length (monthlyInvoices db) <= List.length (monthlyInvoices db'))%nat
     else updateMonthlyInvoiceForCard month cardId db = (db, Rejected DatabaseError).
Proof.
  intros total. split.
  { destruct (existsb _ (purchases db)) eqn:Ex; [exact I|].
    apply invoiceSum_no_rows.
    destruct (filter _ (purchases db)) as [|q l] eqn:F; [reflexivity|].
    assert (Hq : In q (filter (purchaseWhere month cardId) (purchases db)))
      by (rewrite F; now left).
    apply filter_In in Hq. destruct Hq as [Hq W].
    assert (X : existsb (purchaseWhere month cardId) (purchases db) = true)
      by (apply existsb_exists; eauto).
    congruence. }
  pose proof (updateMonthlyInvoiceForCard_run month cardId db) as R.
  unfold refreshCompletes, referencesCard in R. fold total in R.
  destruct (fitsColumn total && _) eqn:C; [|exact R].
  exists (refresh month cardId db).
  split; [exact R|].
  split.
  { rewrite <- R. reflexivity. }
  split; [apply refresh_cards|].
  split; [apply refresh_purchases|].
  split.
  { unfold refresh. fold total. now destruct (existsb _ (monthlyInvoices db)). }
  split; [apply refresh_row_exists|].
  split.
  { apply forallb_forall. intros r Hr.
    destruct (refresh_rows _ _ _ _ Hr) as [[W E] | [W _]]; rewrite W; cbn.
    - now apply decimal_eqb_eq.
    - reflexivity. }
  unfold refresh. destruct (existsb _ (monthlyInvoices db)); cbn [monthlyInvoices].
  - now rewrite length_map.
  - rewrite length_app. cbn. lia.
Qed.

(** C6, as stated, fails where the sum does not fit the column: with two
    purchase rows of 60 000 000.00 in one month the refresh is rejected
    and writes nothing, the monthly invoice keeping a total that is not
    the sum. *)
Lemma refresh_refused_when_sum_overflows :
  map p_installmentValue
    (filter (purchaseWhere "2024-03" 0%nat) (purchases overdrawnDb))
  = [Dec 6000000000; Dec 6000000000]
  /\ invoiceSum "2024-03" 0%nat overdrawnDb = Dec 12000000000
  /\ updateMonthlyInvoiceForCard "2024-03" 0%nat overdrawnDb
     = (overdrawnDb, Rejected DatabaseError)
  /\ map (fun r => (mi_month r, mi_cardId r, mi_totalValue r)) (monthlyInvoices overdrawnDb)
     = [("2024-03", 0%nat, Dec 6000000000)].
Proof. by_computation. Qed.

Lemma refresh_idem (month : string) (cardId : Uuid) (db : Db) :
  refresh month cardId (refresh month cardId db) = refresh month cardId db.
Proof.
  unfold refresh at 1. rewrite refresh_row_exists.
  rewrite (invoiceSum_purchases _ _ db) by apply refresh_purchases.
  assert (Hmap :
    map (fun r => if invoiceWhere month cardId r
                  then set_totalValue (invoiceSum month cardId db) r
                  else r)
        (monthlyInvoices (refresh month cardId db))
    = monthlyInvoices (refresh month cardId db)).
  { rewrite <- (map_id (monthlyInvoices (refresh month cardId db))) at 2.
    apply map_ext_in. intros r Hr.
    destruct (refresh_rows _ _ _ _ Hr) as [[W E] | [W _]]; rewrite W; [|reflexivity].
    destruct r; cbn in *. now rewrite E. }
  rewrite Hmap. generalize (refresh month cardId db). now intros [].
Qed.

(** C7.  The refresh is idempotent: run a second time from the database
    the first run left, with no purchase row changed in between, it ends
    as the first run did and leaves that same database, so the stored
    total of the month and card is the one the first run stored; a
    first run the database rejects has written nothing and ends the
    sequence. *)
Theorem refresh_idempotent (month : string) (cardId : Uuid) (db : Db) :
  (updateMonthlyInvoiceForCard month cardId ;;;
   updateMonthlyInvoiceForCard month cardId) db
  = updateMonthlyInvoiceForCard month cardId db.
Proof.
  unfold await. rewrite (updateMonthlyInvoiceForCard_run month cardId db).
  destruct (refreshCompletes month cardId db) eqn:C; [|reflexivity].
  rewrite updateMonthlyInvoiceForCard_run.
  assert (C2 : refreshCompletes month cardId (refresh month cardId db) = true).
  { unfold refreshCompletes in *. rewrite refresh_row_exists.
    rewrite (invoiceSum_purchases _ _ db) by apply refresh_purchases.
    apply andb_true_iff in C. destruct C as [-> _]. reflexivity. }
  rewrite C2. now rewrite refresh_idem.
Qed.

(* ================================================================== *)
(** ** Deleting a purchase                                             *)
(* ================================================================== *)

Lemma refresh_settles (month : string) (cardId : Uuid) (db : Db) :
  settled month cardId (refresh month cardId db).
Proof.
  split; [apply refresh_row_exists|].
  intros r Hr W. rewrite (invoiceSum_purchases _ _ db) by apply refresh_purchases.
  destruct (refresh_rows _ _ _ _ Hr) as [[_ E] | [W' _]]; [exact E | congruence].
Qed.

Lemma refresh_keeps_settled (month other : string) (cardId : Uuid) (db : Db) :
  settled month cardId db -> settled month cardId (refresh other cardId db).
Proof.
  intros [Hex Hrows].
  destruct (String.eqb_spec other month) as [->|Hne]; [apply refresh_settles|].
  split.
  - apply existsb_exists in Hex. destruct Hex as (r & Hr & W).
    apply existsb_exists. exists r. split; [|exact W].
    unfold refresh. destruct (existsb _ (monthlyInvoices db)); cbn [monthlyInvoices].
    + apply in_map_iff. exists r. split; [|exact Hr].
      destruct (invoiceWhere other cardId r) eqn:W'; [|reflexivity].
      apply invoiceWhere_true in W, W'. destruct W as [W _], W' as [W' _]. congruence.
    + apply in_or_app. now left.
  - intros r Hr W. rewrite (invoiceSum_purchases _ _ db) by apply refresh_purchases.
    destruct (refresh_rows _ _ _ _ Hr) as [[W' _] | [_ Hin]]; [|now apply Hrows].
    apply invoiceWhere_true in W, W'. destruct W as [W _], W' as [W' _]. congruence.
Qed.

Lemma refreshAll_keeps_settled (months : list string) (month : string) (cardId : Uuid)
  (db : Db) :
  settled month cardId db -> settled month cardId (refreshAll months cardId db).
Proof.
  unfold refreshAll. revert db.
  induction months as [|m months IH]; intros db H; cbn [fold_left]; [exact H|].
  apply IH. now apply refresh_keeps_settled.
Qed.

Lemma refreshAll_settles (months : list string) (month : string) (cardId : Uuid)
  (db : Db) :
  In month months -> settled month cardId (refreshAll months cardId db).
Proof.
  unfold refreshAll. revert db.
  induction months as [|m months IH]; intros db; cbn [fold_left]; [intros []|].
  intros [-> | Hin].
  - apply (refreshAll_keeps_settled months). apply refresh_settles.
  - now apply IH.
Qed.

(** C8, as the code has it.  [deletePurchase] on an identifier no
    purchase row carries completes and leaves the database as it was.
    Otherwise, with [purchase] the row found, it removes exactly the
    rows equal to [purchase] on card, purchase date, name, total value
    and number of installments (whatever logical purchase they came
    from), keeping every other row in order, and this however the call
    ends; the invoice months of the removed rows are collected before
    the removal, each once; the call then is the run of one refresh per
    collected month, in order, for the card of [purchase], on the
    database without the removed rows.  When the call completes every
    collected month is settled: a monthly-invoice row of the month and
    card exists and each holds the sum over the rows that remain.  A
    refresh the database refuses ends the run: the call is rejected with
    the error of the database and the removal stands. *)
Theorem deletePurchase_removes_sibling_set (id : Uuid) (db : Db) :
  match filter (fun p => Nat.eqb (p_id p) id) (purchases db) with
  | [] => deletePurchase id db = (db, Fulfilled tt)
  | purchase :: _ =>
      let siblings := filter (siblingWhere purchase) (purchases db) in
      let invoiceMonths := arrayFromSet (map p_invoiceMonth siblings) in
      let db' := fst (deletePurchase id db) in
      cards db' = cards db
      /\ purchases db'
         = filter (fun p => negb (siblingWhere purchase p)) (purchases db)
      /\ (forall q, In q (purchases db') <->
                    In q (purchases db)
                    /\ ~ (p_cardId q = p_cardId purchase
                          /\ p_purchaseDate q = p_purchaseDate purchase
                          /\ p_name q = p_name purchase
                          /\ p_totalValue q = p_totalValue purchase
                          /\ p_totalInstallments q = p_totalInstallments purchase))
      /\ NoDup invoiceMonths
      /\ (forall month, In month invoiceMonths <->
                        exists q, In q siblings /\ p_invoiceMonth q = month)
      /\ deletePurchase id db
         = forOf invoiceMonths
             (fun invoiceMonth =>
                updateMonthlyInvoiceForCard invoiceMonth (p_cardId purchase))
             (withoutSiblings purchase db)
      /\ match snd (deletePurchase id db) with
         | Fulfilled _ =>
             forall month, In month invoiceMonths ->
               existsb (invoiceWhere month (p_cardId purchase)) (monthlyInvoices db')
               = true
               /\ forall r, In r (monthlyInvoices db') ->
                    invoiceWhere month (p_cardId purchase) r = true ->
                    mi_totalValue r = invoiceSum month (p_cardId purchase) db'
         | Rejected e => e = DatabaseError
         end
  end.
Proof.
  rewrite deletePurchase_run.
  destruct (filter _ (purchases db)) as [|purchase rest]; [reflexivity|].
  cbv zeta.
  set (months := arrayFromSet _).
  set (run := forOf months _ (withoutSiblings purchase db)).
  assert (Hinv : cards (fst run) = cards db
                 /\ purchases (fst run)
                    = filter (fun p => negb (siblingWhere purchase p)) (purchases db)).
  { subst run.
    apply (forOf_invariant
             (fun d => cards d = cards db
                       /\ purchases d
                          = filter (fun p => negb (siblingWhere purchase p))
                              (purchases db))).
    - intros month d [Hc Hp].
      destruct (updateMonthlyInvoiceForCard_purchases month (p_cardId purchase) d)
        as [-> ->]. auto.
    - auto. }
  destruct Hinv as [Hc Hp].
  split; [exact Hc|]. split; [exact Hp|].
  split.
  { intros q. rewrite Hp.
    rewrite filter_In, negb_true_iff, <- siblingWhere_true.
    destruct (siblingWhere purchase q); split; intros [? ?]; split;
      auto; congruence. }
  split; [apply arrayFromSet_NoDup|].
  split.
  { intros month. unfold months. rewrite arrayFromSet_In, in_map_iff.
    split; intros (q & H1 & H2); exists q; auto. }
  split; [reflexivity|].
  destruct run as [d [u|e]] eqn:R; cbn [fst snd].
  - apply forOf_fulfilled in R. subst d. intros month Hm.
    apply (refreshAll_settles months month _ _ Hm).
  - now apply forOf_rejected in R.
Qed.

(** C8, as stated, fails where a refresh is refused.  From [tightDb],
    deleting the refund removes its two rows, of March and April; the
    refresh of March is refused, the remaining 140 000 000.00 not
    fitting the column; the call is rejected, April is never refreshed,
    and both monthly invoices keep totals that are not the sums of the
    rows left. *)
Lemma deletePurchase_stops_at_refused_refresh :
  map (fun p => (p_id p, p_name p, p_installmentValue p, p_invoiceMonth p))
    (purchases tightDb)
  = [ (3%nat, "A", Dec 9000000000, "2024-03");
      (5%nat, "B", Dec (-4999999999), "2024-03");
      (6%nat, "B", Dec (-4999999999), "2024-04");
      (8%nat, "C", Dec 5000000000, "2024-03") ]
  /\ invoicesConsistent tightDb = true
  /\ snd (deletePurchase 5%nat tightDb) = Rejected DatabaseError
  /\ map p_name (purchases (fst (deletePurchase 5%nat tightDb))) = ["A"; "C"]
  /\ monthlyInvoices (fst (deletePurchase 5%nat tightDb)) = monthlyInvoices tightDb
  /\ map (fun r => (mi_month r, mi_totalValue r,
                    invoiceSum (mi_month r) (mi_cardId r)
                      (fst (deletePurchase 5%nat tightDb))))
       (monthlyInvoices (fst (deletePurchase 5%nat tightDb)))
     = [ ("2024-03", Dec 9000000001, Dec 14000000000);
         ("2024-04", Dec (-4999999999), Dec 0) ].
Proof. by_computation. Qed.

(** Two purchases entered one after the other with the same card, date,
    name, total value and number of installments: deleting one
    installment of the first removes the six rows of both and leaves the
    three monthly invoices at zero. *)
Example identical_purchases_deleted_together :
  let db2 := runCalls UtcOrEast
               [CreatePurchase samplePurchase; CreatePurchase samplePurchase]
               sampleDb in
  map p_id (purchases db2) = [3; 5; 7; 9; 10; 11]%nat
  /\ map (fun r => (mi_month r, mi_totalValue r)) (monthlyInvoices db2)
     = [("2024-03", Dec 6666); ("2024-04", Dec 6666); ("2024-05", Dec 6666)]
  /\ deletePurchase 3%nat db2 = (fst (deletePurchase 3%nat db2), Fulfilled tt)
  /\ purchases (fst (deletePurchase 3%nat db2)) = []
  /\ map (fun r => (mi_month r, mi_totalValue r))
       (monthlyInvoices (fst (deletePurchase 3%nat db2)))
     = [("2024-03", Dec 0); ("2024-04", Dec 0); ("2024-05", Dec 0)].
Proof. by_computation. Qed.

(* ================================================================== *)
(** ** The missing card                                                *)
(* ================================================================== *)

(** C9.  [createPurchase] is rejected with [CardNotFound] exactly when
    [getCard] finds no card for the [cardId] of the input, that is when
    no row of the cards table carries it; and in that case the database
    is left as it was: no purchase row and no monthly-invoice row is
    written or changed. *)
Theorem createPurchase_CardNotFound_iff (tz : TimeZone) (ins : InsertPurchase) (db : Db) :
  (snd (createPurchase tz ins db) = Rejected CardNotFound
   <-> getCard (ip_cardId ins) db = (db, Fulfilled None))
  /\ (getCard (ip_cardId ins) db = (db, Fulfilled None)
      <-> forall c, In c (cards db) -> c_id c <> ip_cardId ins)
  /\ (snd (createPurchase tz ins db) = Rejected CardNotFound
      <-> createPurchase tz ins db = (db, Rejected CardNotFound)).
Proof.
  pose proof (createPurchase_run tz ins db) as R.
  rewrite getCard_run.
  assert (Hcards :
    hd_error (filter (fun c => Nat.eqb (c_id c) (ip_cardId ins)) (cards db)) = None
    <-> forall c, In c (cards db) -> c_id c <> ip_cardId ins).
  { destruct (filter _ (cards db)) as [|c l] eqn:F; cbn [hd_error].
    - split; [|reflexivity]. intros _ c Hc E.
      assert (X : In c (filter (fun c => Nat.eqb (c_id c) (ip_cardId ins)) (cards db)))
        by (apply filter_In; split; [exact Hc | now apply Nat.eqb_eq]).
      rewrite F in X. exact X.
    - split; [discriminate|]. intros H. exfalso.
      assert (X : In c (filter (fun c => Nat.eqb (c_id c) (ip_cardId ins)) (cards db)))
        by (rewrite F; now left).
      apply filter_In in X. destruct X as [Hc E]. apply Nat.eqb_eq in E.
      exact (H c Hc E). }
  assert (Hother : forall card,
    hd_error (filter (fun c => Nat.eqb (c_id c) (ip_cardId ins)) (cards db)) = Some card ->
    snd (createPurchase tz ins db) <> Rejected CardNotFound).
  { intros card Hc. rewrite Hc in R.
    destruct R as (rows & len & _ & _ & _ & _ & _ & _ & Hres).
    destruct (snd (createPurchase tz ins db)) as [o|e]; [discriminate|].
    subst e. discriminate. }
  split; [|split].
  - destruct (hd_error _) as [card|] eqn:Hc.
    + split; [|discriminate]. intros E. now destruct (Hother card eq_refl).
    + rewrite R. split; reflexivity.
  - rewrite <- Hcards. split.
    + now intros [= ->].
    + now intros ->.
  - split; [|now intros ->].
    intros E. destruct (hd_error _) as [card|] eqn:Hc; [|exact R].
    now destruct (Hother card eq_refl).
Qed.

(* ================================================================== *)
(** ** Invoice months                                                  *)
(* ================================================================== *)

Lemma daysInMonth_ge_28 (y m : Z) : 28 <= daysInMonth y m.
Proof.
  unfold daysInMonth.
  destruct (m =? 1); [destruct (isLeapYear y); lia|].
  destruct ((m =? 3) || (m =? 5) || (m =? 8) || (m =? 10)); lia.
Qed.

Lemma daysInMonth_le_31 (y m : Z) : daysInMonth y m <= 31.
Proof.
  unfold daysInMonth.
  destruct (m =? 1); [destruct (isLeapYear y); lia|].
  destruct ((m =? 3) || (m =? 5) || (m =? 8) || (m =? 10)); lia.
Qed.

(* ------------------------------------------------------------------ *)
(** *** The calendar fields against the day number                     *)
(* ------------------------------------------------------------------ *)

Lemma DayFromYear_succ (y : Z) : DayFromYear (y + 1) = DayFromYear y + DaysInYear y.
Proof.
  unfold DayFromYear, DaysInYear, isLeapYear.
  destruct (Z.eqb_spec (y mod 4) 0), (Z.eqb_spec (y mod 100) 0),
    (Z.eqb_spec (y mod 400) 0);
    cbn [andb orb negb]; Z.to_euclidean_division_equations; lia.
Qed.

Lemma daysBeforeMonth_succ (y m : Z) :
  0 <= m < 11 ->
  daysBeforeMonth y (m + 1) = daysBeforeMonth y m + daysInMonth y m.
Proof.
  intros H.
  assert (C : m = 0 \/ m = 1 \/ m = 2 \/ m = 3 \/ m = 4 \/ m = 5 \/ m = 6
              \/ m = 7 \/ m = 8 \/ m = 9 \/ m = 10) by lia.
  unfold daysBeforeMonth, daysInMonth.
  repeat (destruct C as [-> | C]); try subst m; cbn; destruct (isLeapYear y); lia.
Qed.

Lemma daysBeforeMonth_december (y : Z) :
  daysBeforeMonth y 11 + daysInMonth y 11 = DaysInYear y.
Proof.
  unfold daysBeforeMonth, daysInMonth, DaysInYear. cbn. destruct (isLeapYear y); lia.
Qed.

Lemma validDate_iff (d : JsDate) :
  validDate d = true <->
  0 <= d_month d <= 11 /\ 1 <= d_date d <= daysInMonth (d_year d) (d_month d).
Proof. unfold validDate. rewrite !andb_true_iff, !Z.leb_le. tauto. Qed.

(** [MakeDay] is the ECMAScript operation: for a day of the month from 1
    to 31 the fields it returns name a day, and that day lies [date - 1]
    days after the first of the month asked for. *)
Lemma MakeDay_Day (year month date : Z) :
  1 <= date <= 31 ->
  validDate (MakeDay year month date) = true
  /\ Day (MakeDay year month date)
     = Day (mkDate (year + month / 12) (month mod 12) 1) + (date - 1).
Proof.
  intros H. rewrite validDate_iff. unfold MakeDay. cbv zeta.
  set (ym := year + month / 12). set (mn := month mod 12).
  assert (Hmn : 0 <= mn <= 11) by (subst mn; Z.to_euclidean_division_equations; lia).
  pose proof (daysInMonth_ge_28 ym mn) as G.
  destruct (Z.leb_spec date (daysInMonth ym mn)) as [L|L].
  - cbn [d_year d_month d_date]. unfold Day. cbn [d_year d_month d_date]. lia.
  - destruct (Z.eqb_spec mn 11) as [E|E]; unfold Day; cbn [d_year d_month d_date].
    + pose proof (daysInMonth_ge_28 (ym + 1) 0).
      rewrite E in L, G |- *.
      rewrite DayFromYear_succ, <- daysBeforeMonth_december.
      change (daysBeforeMonth (ym + 1) 0) with 0. lia.
    + pose proof (daysInMonth_ge_28 ym (mn + 1)).
      rewrite daysBeforeMonth_succ by lia. lia.
Qed.

(** The day before a calendar date, as a [Date] in a zone behind UTC
    shows it. *)
Lemma dayBefore_Day (s : IsoDate) :
  validIsoDate s = true ->
  validDate (dayBefore s) = true
  /\ Day (dayBefore s) = Day (mkDate (iso_year s) (iso_month s - 1) (iso_day s)) - 1.
Proof.
  unfold validIsoDate. rewrite !andb_true_iff, !Z.leb_le. intros [[[H1 H2] H3] H4].
  rewrite validDate_iff. unfold dayBefore. cbv zeta.
  destruct (Z.ltb_spec 1 (iso_day s)) as [L|L].
  - unfold Day. cbn [d_year d_month d_date]. lia.
  - destruct (Z.eqb_spec (iso_month s - 1) 0) as [E|E]; unfold Day;
      cbn [d_year d_month d_date].
    + assert (Y : DayFromYear (iso_year s)
                  = DayFromYear (iso_year s - 1) + DaysInYear (iso_year s - 1)).
      { rewrite <- DayFromYear_succ. f_equal. lia. }
      rewrite E, Y, <- daysBeforeMonth_december.
      change (daysInMonth (iso_year s - 1) 11) with 31.
      change (daysBeforeMonth (iso_year s) 0) with 0. lia.
    + pose proof (daysInMonth_ge_28 (iso_year s) (iso_month s - 1 - 1)).
      replace (daysBeforeMonth (iso_year s) (iso_month s - 1))
        with (daysBeforeMonth (iso_year s) (iso_month s - 1 - 1 + 1)) by (f_equal; lia).
      rewrite daysBeforeMonth_succ by lia. lia.
Qed.

Lemma DayFromYear_mono (y k : Z) :
  0 <= k -> DayFromYear y + 365 * k <= DayFromYear (y + k).
Proof.
  intros H. revert y. pattern k. apply natlike_ind; [| |exact H].
  - intros y. replace (y + 0) with y by lia. lia.
  - intros x Hx IH y. replace (y + Z.succ x) with (y + 1 + x) by lia.
    specialize (IH (y + 1)). rewrite DayFromYear_succ in IH.
    unfold DaysInYear in IH. destruct (isLeapYear y); lia.
Qed.

Lemma daysBeforeMonth_bounds (y m : Z) :
  0 <= m <= 11 ->
  0 <= daysBeforeMonth y m /\ daysBeforeMonth y m + daysInMonth y m <= DaysInYear y.
Proof.
  intros H.
  assert (C : m = 0 \/ m = 1 \/ m = 2 \/ m = 3 \/ m = 4 \/ m = 5 \/ m = 6
              \/ m = 7 \/ m = 8 \/ m = 9 \/ m = 10 \/ m = 11) by lia.
  unfold daysBeforeMonth, daysInMonth, DaysInYear.
  repeat (destruct C as [-> | C]); try subst m; cbn; destruct (isLeapYear y); lia.
Qed.

Lemma daysBeforeMonth_mono (y m1 m2 : Z) :
  0 <= m1 -> m1 < m2 <= 11 ->
  daysBeforeMonth y m1 + daysInMonth y m1 <= daysBeforeMonth y m2.
Proof.
  intros H1 H2.
  replace m2 with (m1 + 1 + (m2 - m1 - 1)) by lia.
  assert (Hk : 0 <= m2 - m1 - 1) by lia.
  assert (Hb : m1 + 1 + (m2 - m1 - 1) <= 11) by lia.
  revert Hb. generalize (m2 - m1 - 1) Hk. clear H2 Hk.
  intros k Hk. pattern k. apply natlike_ind; [| |exact Hk].
  - intros Hb. replace (m1 + 1 + 0) with (m1 + 1) by lia.
    rewrite daysBeforeMonth_succ by lia. lia.
  - intros x Hx IH Hb.
    replace (m1 + 1 + Z.succ x) with (m1 + 1 + x + 1) by lia.
    rewrite daysBeforeMonth_succ by lia.
    pose proof (daysInMonth_ge_28 y (m1 + 1 + x)).
    specialize (IH ltac:(lia)). lia.
Qed.

(** A day number has one set of calendar fields, so the two lemmas above
    determine [MakeDay] and [dayBefore]. *)
Lemma Day_injective (a b : JsDate) :
  validDate a = true -> validDate b = true -> Day a = Day b -> a = b.
Proof.
  rewrite !validDate_iff. destruct a as [ya ma da], b as [yb mb db].
  unfold Day. cbn [d_year d_month d_date]. intros [Ha1 Ha2] [Hb1 Hb2] E.
  pose proof (daysBeforeMonth_bounds ya ma Ha1) as Ba.
  pose proof (daysBeforeMonth_bounds yb mb Hb1) as Bb.
  assert (Ey : ya = yb).
  { destruct (Z.lt_trichotomy ya yb) as [L | [Ey | L]]; [exfalso | exact Ey | exfalso].
    - pose proof (DayFromYear_mono (ya + 1) (yb - ya - 1) ltac:(lia)) as M.
      replace (ya + 1 + (yb - ya - 1)) with yb in M by lia.
      rewrite DayFromYear_succ in M. lia.
    - pose proof (DayFromYear_mono (yb + 1) (ya - yb - 1) ltac:(lia)) as M.
      replace (yb + 1 + (ya - yb - 1)) with ya in M by lia.
      rewrite DayFromYear_succ in M. lia. }
  subst yb.
  assert (Em : ma = mb).
  { destruct (Z.lt_trichotomy ma mb) as [L | [Em | L]]; [exfalso | exact Em | exfalso].
    - pose proof (daysBeforeMonth_mono ya ma mb ltac:(lia) ltac:(lia)). lia.
    - pose proof (daysBeforeMonth_mono ya mb ma ltac:(lia) ltac:(lia)). lia. }
  subst mb. f_equal. lia.
Qed.

(** A day that exists in the target month is kept, and the month is the
    one asked for. *)
Lemma MakeDay_fits (year month date : Z) :
  date <= daysInMonth (year + month / 12) (month mod 12) ->
  MakeDay year month date = mkDate (year + month / 12) (month mod 12) date.
Proof.
  intros H. unfold MakeDay. cbv zeta.
  destruct (Z.leb_spec date (daysInMonth (year + month / 12) (month mod 12)));
    [reflexivity | lia].
Qed.

(** A day that does not exist in the target month lands in the month
    after it. *)
Lemma MakeDay_overflows (year month date : Z) :
  daysInMonth (year + month / 12) (month mod 12) < date ->
  monthIndex (MakeDay year month date) = 12 * year + month + 1.
Proof.
  intros H. unfold MakeDay, monthIndex. cbv zeta.
  destruct (Z.leb_spec date (daysInMonth (year + month / 12) (month mod 12)));
    [lia|].
  destruct (Z.eqb_spec (month mod 12) 11) as [E|E]; cbn [d_year d_month];
    Z.to_euclidean_division_equations; lia.
Qed.

Lemma MakeDay_monthIndex (year month date : Z) :
  12 * year + month <= monthIndex (MakeDay year month date) <= 12 * year + month + 1.
Proof.
  destruct (Z.le_gt_cases date (daysInMonth (year + month / 12) (month mod 12))).
  - rewrite MakeDay_fits by assumption. unfold monthIndex. cbn [d_year d_month].
    Z.to_euclidean_division_equations; lia.
  - rewrite MakeDay_overflows by lia. lia.
Qed.

Lemma MakeDay_month_range (year month date : Z) :
  0 <= d_month (MakeDay year month date) <= 11.
Proof.
  unfold MakeDay. cbv zeta.
  destruct (date <=? _); [|destruct (Z.eqb_spec (month mod 12) 11)];
    cbn [d_month]; Z.to_euclidean_division_equations; lia.
Qed.

(** Up to day 28 [setMonth] moves to the month asked for, exactly. *)
Lemma setMonth_monthIndex (d : JsDate) (month : Z) :
  d_date d <= 28 ->
  monthIndex (setMonth d month) = 12 * d_year d + month
  /\ d_date (setMonth d month) = d_date d.
Proof.
  intros H. unfold setMonth. rewrite MakeDay_fits.
  - unfold monthIndex. cbn [d_year d_month d_date].
    split; [Z.to_euclidean_division_equations; lia | reflexivity].
  - pose proof (daysInMonth_ge_28 (d_year d + month / 12) (month mod 12)). lia.
Qed.

(** The closing-day rule, where the day of the month is at most 28: the
    first invoice month is the month of the local purchase date when the
    day is before the closing day, and the month after it otherwise. *)
Lemma firstInvoiceDate_upto_28 (tz : TimeZone) (purchaseDate : IsoDate) (closingDay : Z) :
  let local := newDate tz purchaseDate in
  getDate local <= 28 ->
  monthIndex (firstInvoiceDate tz purchaseDate closingDay)
  = if getDate local <? closingDay then monthIndex local else monthIndex local + 1.
Proof.
  intros local H. unfold firstInvoiceDate. fold local. cbv zeta.
  destruct (Z.leb_spec closingDay (getDate local)) as [L|L];
    destruct (Z.ltb_spec (getDate local) closingDay); try lia.
  destruct (setMonth_monthIndex local (getMonth local + 1) H) as [E _].
  rewrite E. unfold monthIndex, getMonth. lia.
Qed.

(** The installments, where the day of the first invoice date is at most
    28: installment [i] is billed exactly [i] months after the first. *)
Lemma installmentDate_upto_28 (first : JsDate) (i : Z) :
  getDate first <= 28 ->
  monthIndex (installmentDate first i) = monthIndex first + i.
Proof.
  intros H. unfold installmentDate.
  destruct (setMonth_monthIndex first (getMonth first + i) H) as [E _].
  rewrite E. unfold monthIndex, getMonth. lia.
Qed.

(** The examples of the closing-day rule: 2024-03-14 and 2024-03-15 with
    closing day 15; 2024-12-20 with closing day 10 and three
    installments. *)
Example first_invoice_month_examples :
  invoiceMonthOf (firstInvoiceDate UtcOrEast (mkIso 2024 3 14) 15) = "2024-03"
  /\ invoiceMonthOf (firstInvoiceDate UtcOrEast (mkIso 2024 3 15) 15) = "2024-04"
  /\ map p_invoiceMonth
       (purchases
          (fst (createPurchase UtcOrEast
                  (sampleInput 2%nat (mkIso 2024 12 20) (inject_Z 300) (inject_Z 3))
                  sampleDb)))
     = ["2025-01"; "2025-02"; "2025-03"].
Proof. by_computation. Qed.

(** In a zone behind UTC the day compared with the closing day is the
    day before the purchase date. *)
Example first_invoice_month_behind_utc :
  invoiceMonthOf (firstInvoiceDate WestOfUtc (mkIso 2024 3 15) 15) = "2024-03".
Proof. by_computation. Qed.

(** C2.  A purchase dated 2024-01-31 on a card closing on day 15 is on or
    after the closing day, yet its first installment is not billed in
    February: [setMonth] asks for a day February does not have (the 31st,
    or the 30th in a zone behind UTC) and lands in March, so the record
    [createPurchase] returns carries invoice month [2024-03], in whichever
    zone the process runs. *)
Theorem first_invoice_month_jan31_is_march (tz : TimeZone) :
  exists db' p,
    createPurchase tz (sampleInput 0%nat (mkIso 2024 1 31) (inject_Z 100) (inject_Z 1))
      sampleDb
    = (db', Fulfilled (Some p))
    /\ p_purchaseDate p = mkIso 2024 1 31
    /\ p_currentInstallment p = 1
    /\ p_invoiceMonth p = "2024-03".
Proof.
  destruct tz; eexists; eexists; (split; [vm_compute; reflexivity|]);
    repeat split.
Qed.

(** C3.  A purchase of three installments dated 2024-01-30 on a card
    closing on day 31 has first invoice date 30 January; installment 1
    asks for 30 February, which is 1 March, so the three records carry
    the invoice months [2024-01], [2024-03], [2024-03]: February is
    skipped and March is billed twice. *)
Theorem installment_months_jan30_skip_february :
  exists db' p,
    createPurchase UtcOrEast
      (sampleInput 1%nat (mkIso 2024 1 30) (inject_Z 300) (inject_Z 3)) sampleDb
    = (db', Fulfilled (Some p))
    /\ map p_currentInstallment (purchases db') = [1; 2; 3]
    /\ map p_invoiceMonth (purchases db') = ["2024-01"; "2024-03"; "2024-03"].
Proof.
  eexists; eexists. split; [vm_compute; reflexivity|]. split; reflexivity.
Qed.

(* ================================================================== *)
(** ** The installment records                                         *)
(* ================================================================== *)

Lemma rangeZ_In (lo len z : Z) :
  lo <= z < lo + len -> In z (rangeZ lo len).
Proof.
  intros H. unfold rangeZ. apply in_map_iff.
  exists (Z.to_nat (z - lo)). split; [lia|]. apply in_seq. lia.
Qed.

Lemma years_checked :
  forallb (fun y => isYYYY (String_of_Z y)) (rangeZ 1000 9000) = true.
Proof. by_computation. Qed.

Lemma months_checked :
  forallb (fun m => isMM (padStart (String_of_Z (m + 1)) 2 "0")) (rangeZ 0 12) = true.
Proof. by_computation. Qed.

Lemma isYearMonth_app (yyyy mm : string) :
  isYYYY yyyy = true -> isMM mm = true ->
  isYearMonth (yyyy ++ "-" ++ mm)%string = true.
Proof.
  intros Hy Hm.
  destruct yyyy as [|a [|b [|c [|d [|e rest]]]]]; try discriminate.
  cbn [String.append isYearMonth]. rewrite Hy, Hm. reflexivity.
Qed.

(** For a four-digit year the template literal writes [YYYY-MM]. *)
Lemma invoiceMonthOf_format (d : JsDate) :
  1000 <= getFullYear d <= 9999 -> 0 <= getMonth d <= 11 ->
  isYearMonth (invoiceMonthOf d) = true.
Proof.
  intros Hy Hm. unfold invoiceMonthOf. apply isYearMonth_app.
  - pose proof years_checked as H. rewrite forallb_forall in H.
    apply H. apply rangeZ_In. lia.
  - pose proof months_checked as H. rewrite forallb_forall in H.
    apply (H (getMonth d)). apply rangeZ_In. lia.
Qed.

Lemma dayBefore_fields (s : IsoDate) :
  validIsoDate s = true ->
  12 * iso_year s - 1 <= monthIndex (dayBefore s) <= 12 * iso_year s + 11
  /\ 0 <= d_month (dayBefore s) <= 11.
Proof.
  unfold validIsoDate. rewrite !andb_true_iff, !Z.leb_le. intros [[[H1 H2] H3] H4].
  unfold dayBefore, monthIndex. cbv zeta.
  destruct (1 <? iso_day s); [|destruct (Z.eqb_spec (iso_month s - 1) 0)];
    cbn [d_year d_month]; lia.
Qed.

Lemma newDate_fields (tz : TimeZone) (s : IsoDate) :
  validIsoDate s = true ->
  12 * iso_year s - 1 <= monthIndex (newDate tz s) <= 12 * iso_year s + 11
  /\ 0 <= d_month (newDate tz s) <= 11.
Proof.
  intros H. destruct tz; cbn [newDate]; [|now apply dayBefore_fields].
  unfold validIsoDate in H. rewrite !andb_true_iff, !Z.leb_le in H.
  unfold monthIndex. cbn [d_year d_month]. lia.
Qed.

Lemma firstInvoiceDate_fields (tz : TimeZone) (s : IsoDate) (closingDay : Z) :
  validIsoDate s = true ->
  12 * iso_year s - 1 <= monthIndex (firstInvoiceDate tz s closingDay)
                      <= 12 * iso_year s + 13
  /\ 0 <= d_month (firstInvoiceDate tz s closingDay) <= 11.
Proof.
  intros H. destruct (newDate_fields tz s H) as [Hi Hm].
  unfold firstInvoiceDate. cbv zeta.
  destruct (closingDay <=? getDate (newDate tz s)); [|split; [lia | exact Hm]].
  unfold setMonth, getMonth. split; [|apply MakeDay_month_range].
  pose proof (MakeDay_monthIndex (d_year (newDate tz s)) (d_month (newDate tz s) + 1)
                (d_date (newDate tz s))) as B.
  unfold monthIndex in *. lia.
Qed.

(** The years the installments of a validated purchase can fall in. *)
Lemma installmentDate_fields (tz : TimeZone) (s : IsoDate) (closingDay i : Z) :
  validIsoDate s = true -> 0 <= i <= 98 ->
  iso_year s - 1 <= getFullYear (installmentDate (firstInvoiceDate tz s closingDay) i)
                 <= iso_year s + 9
  /\ 0 <= getMonth (installmentDate (firstInvoiceDate tz s closingDay) i) <= 11.
Proof.
  intros H Hi. destruct (firstInvoiceDate_fields tz s closingDay H) as [Hf Hm].
  set (first := firstInvoiceDate tz s closingDay) in *.
  unfold installmentDate, setMonth, getFullYear, getMonth.
  pose proof (MakeDay_monthIndex (d_year first) (d_month first + i) (d_date first)) as B.
  pose proof (MakeDay_month_range (d_year first) (d_month first + i) (d_date first)) as R.
  unfold monthIndex in *. lia.
Qed.

(* ================================================================== *)
(** ** The installment records                                         *)
(* ================================================================== *)

Lemma roundHalfAwayFromZero_comp (x y : Q) :
  (x == y)%Q -> roundHalfAwayFromZero x = roundHalfAwayFromZero y.
Proof.
  intros E. unfold roundHalfAwayFromZero.
  rewrite (Qleb_comp 0%Q 0%Q (Qeq_refl 0%Q) x y E).
  destruct (Qle_bool 0 y).
  - apply Qfloor_comp. rewrite E. reflexivity.
  - f_equal. apply Qfloor_comp. rewrite E. reflexivity.
Qed.

Lemma roundHalfAwayFromZero_Z (z : Z) :
  roundHalfAwayFromZero (inject_Z z) = z.
Proof.
  apply roundHalfAwayFromZero_near.
  setoid_replace (inject_Z z - inject_Z z)%Q with 0%Q by ring. reflexivity.
Qed.

(** An amount whose text has two decimals at most is stored as the text
    has it. *)
Lemma toDecimal_two_decimals (a : Q) (c : Z) :
  (Number_toString a * inject_Z 100 == inject_Z c)%Q ->
  Z.abs c < decimalLimit ->
  toDecimal (Finite a) = Some (Dec c).
Proof.
  intros E H. cbn [toDecimal].
  rewrite (roundHalfAwayFromZero_comp _ _ E), roundHalfAwayFromZero_Z.
  destruct (Z.ltb_spec (Z.abs c) decimalLimit); [reflexivity | lia].
Qed.

(** The columns of the row inserted at index [i]. *)
Lemma installmentData_row (tz : TimeZone) (ins : InsertPurchase) (closingDay i : Z)
  (id : Uuid) (r : Purchase) :
  purchaseRow (installmentData tz ins closingDay i) id = Some r ->
  p_id r = id
  /\ p_cardId r = ip_cardId ins
  /\ p_purchaseDate r = ip_purchaseDate ins
  /\ p_name r = ip_name ins
  /\ p_category r = ip_category ins
  /\ toDecimal (ip_totalValue ins) = Some (p_totalValue r)
  /\ toInteger (ip_totalInstallments ins) = Some (p_totalInstallments r)
  /\ p_currentInstallment r = i + 1
  /\ toDecimal (Number_div (ip_totalValue ins) (ip_totalInstallments ins))
     = Some (p_installmentValue r)
  /\ p_invoiceMonth r
     = invoiceMonthOf
         (installmentDate (firstInvoiceDate tz (ip_purchaseDate ins) closingDay) i)
  /\ validIsoDate (ip_purchaseDate ins) = true
  /\ 1 <= iso_year (ip_purchaseDate ins) <= 9999.
Proof.
  intros H. apply purchaseRow_Some in H.
  destruct H as (Hd & Ht & Hn & Hv & _ & E).
  cbn [installmentData pd_purchaseDate pd_totalValue pd_totalInstallments
       pd_installmentValue pd_cardId pd_name pd_category pd_currentInstallment
       pd_invoiceMonth] in *.
  apply toDate_Some in Hd. destruct Hd as (Ed & Hvalid & Hyear).
  rewrite E. cbn. rewrite Ed. auto 15.
Qed.

(** The insert takes the row of index [i] when the date column, the two
    decimal columns and the integer columns take their values. *)
Lemma purchaseRow_installmentData (tz : TimeZone) (ins : InsertPurchase)
  (closingDay i n : Z) (id : Uuid) (totalValue installmentValue : decimal) :
  toDate (ip_purchaseDate ins) = Some (ip_purchaseDate ins) ->
  toDecimal (ip_totalValue ins) = Some totalValue ->
  toInteger (ip_totalInstallments ins) = Some n ->
  toDecimal (Number_div (ip_totalValue ins) (ip_totalInstallments ins))
  = Some installmentValue ->
  int32 (i + 1) = true ->
  purchaseRow (installmentData tz ins closingDay i) id
  = Some (mkPurchase id (ip_cardId ins) (ip_purchaseDate ins) (ip_name ins)
            (ip_category ins) totalValue n (i + 1) installmentValue
            (invoiceMonthOf
               (installmentDate (firstInvoiceDate tz (ip_purchaseDate ins) closingDay)
                  i))).
Proof.
  intros Hd Ht Hn Hv Hi. unfold purchaseRow.
  cbn [installmentData pd_purchaseDate pd_totalValue pd_totalInstallments
       pd_installmentValue pd_cardId pd_name pd_category pd_currentInstallment
       pd_invoiceMonth].
  now rewrite Hd, Ht, Hn, Hv, Hi.
Qed.

(* ------------------------------------------------------------------ *)
(** *** Room in the column for the monthly totals                      *)
(* ------------------------------------------------------------------ *)

Lemma sumDecimal_bound (l : list decimal) :
  match sumDecimal l with
  | Dec z => Z.abs z <= fold_right Z.add 0 (map decimal_abs l)
  | DecNaN => True
  end.
Proof.
  induction l as [|d l IH]; cbn [sumDecimal fold_right map]; [cbn; lia|].
  fold (sumDecimal l). destruct d as [x|]; [|exact I].
  destruct (sumDecimal l) as [z|]; [|exact I].
  cbn [decimal_add decimal_abs]. lia.
Qed.

Lemma absSum_filter {A} (h : A -> Z) (f g : A -> bool) (l : list A) :
  (forall a, 0 <= h a) ->
  (forall a, f a = true -> g a = true) ->
  fold_right Z.add 0 (map h (filter f l)) <= fold_right Z.add 0 (map h (filter g l)).
Proof.
  intros Hh Hfg. induction l as [|a l IH]; cbn [filter]; [lia|].
  pose proof (Hh a). pose proof (Hfg a) as Ha.
  destruct (f a), (g a); cbn [map fold_right]; lia.
Qed.

Lemma absSum_nonneg {A} (h : A -> Z) (l : list A) :
  (forall a, 0 <= h a) -> 0 <= fold_right Z.add 0 (map h l).
Proof.
  intros Hh. induction l as [|a l IH]; cbn [map fold_right]; [lia|].
  pose proof (Hh a). lia.
Qed.

Lemma decimal_abs_nonneg (d : decimal) : 0 <= decimal_abs d.
Proof. destruct d; cbn; lia. Qed.

Lemma cardExposure_nonneg (cardId : Uuid) (db : Db) : 0 <= cardExposure cardId db.
Proof.
  unfold cardExposure. apply absSum_nonneg. intros p. apply decimal_abs_nonneg.
Qed.

(** A card whose installments, in magnitude, stay below the limit of the
    column has every monthly total within it. *)
Lemma fitsColumn_invoiceSum (month : string) (cardId : Uuid) (db : Db) :
  cardExposure cardId db < decimalLimit ->
  fitsColumn (invoiceSum month cardId db) = true.
Proof.
  intros H. unfold invoiceSum.
  pose proof (sumDecimal_bound
                (map p_installmentValue
                   (filter (purchaseWhere month cardId) (purchases db)))) as B.
  destruct (sumDecimal _) as [z|]; [|reflexivity].
  cbn [fitsColumn]. apply Z.ltb_lt.
  rewrite map_map in B.
  pose proof (absSum_filter (fun p => decimal_abs (p_installmentValue p))
                (purchaseWhere month cardId) (fun p => Nat.eqb (p_cardId p) cardId)
                (purchases db)
                (fun p => decimal_abs_nonneg _)) as M.
  unfold cardExposure in H.
  assert (Himp : forall a, purchaseWhere month cardId a = true ->
                           Nat.eqb (p_cardId a) cardId = true).
  { intros a W. apply purchaseWhere_true in W. apply Nat.eqb_eq. tauto. }
  specialize (M Himp). lia.
Qed.

Lemma cardExposure_insert (cardId : Uuid) (db : Db) (row : Purchase) :
  p_cardId row = cardId ->
  cardExposure cardId
    (mkDb (cards db) (purchases db ++ [row]) (monthlyInvoices db) (S (nextUuid db)))
  = cardExposure cardId db + decimal_abs (p_installmentValue row).
Proof.
  intros E. unfold cardExposure. cbn [purchases].
  rewrite filter_app, map_app. cbn [filter]. rewrite E, Nat.eqb_refl. cbn [map].
  induction (map _ (filter _ (purchases db))) as [|z l IH]; cbn [app fold_right]; lia.
Qed.

Lemma cardExposure_refresh (month : string) (cardId c : Uuid) (db : Db) :
  cardExposure c (refresh month cardId db) = cardExposure c db.
Proof. unfold cardExposure. now rewrite refresh_purchases. Qed.

Lemma referencesCard_cards (cardId : Uuid) (db db' : Db) :
  cards db' = cards db -> referencesCard cardId db' = referencesCard cardId db.
Proof. unfold referencesCard. now intros ->. Qed.

(** The loop runs to its end when every row is taken and the card has
    room for the installments still to come. *)
Lemma createPurchase_loop_completes (tz : TimeZone) (ins : InsertPurchase) (card : Card)
  (w : Z) (len start : nat) (acc : list Purchase) (db : Db) :
  (forall i id, (start <= i < start + len)%nat ->
     exists row,
       purchaseRow (installmentData tz ins (c_closingDay card) (Z.of_nat i)) id = Some row
       /\ decimal_abs (p_installmentValue row) = w) ->
  referencesCard (ip_cardId ins) db = true ->
  cardExposure (ip_cardId ins) db + Z.of_nat len * w < decimalLimit ->
  exists l,
    snd (forPush (map Z.of_nat (seq start len)) (installmentTurn tz ins card) acc db)
    = Fulfilled l.
Proof.
  revert start acc db.
  induction len as [|len IH]; intros start acc db Hrows Hfk Hroom; cbn [seq map forPush].
  - eexists. reflexivity.
  - unfold await. rewrite installmentTurn_run. cbv zeta.
    destruct (Hrows start (nextUuid db) ltac:(lia)) as (row & Hrow & Hw).
    rewrite Hrow, Hfk.
    pose proof (purchaseRow_Some _ _ _ Hrow) as (_ & _ & _ & _ & _ & Erow).
    assert (Ec : p_cardId row = ip_cardId ins) by (rewrite Erow; reflexivity).
    set (db1 := mkDb (cards db) (purchases db ++ [row]) (monthlyInvoices db)
                  (S (nextUuid db))).
    assert (Hexp : cardExposure (ip_cardId ins) db1
                   = cardExposure (ip_cardId ins) db + w).
    { subst db1. rewrite cardExposure_insert by exact Ec. now rewrite Hw. }
    assert (Hw0 : 0 <= w) by (rewrite <- Hw; apply decimal_abs_nonneg).
    assert (Hc : refreshCompletes
                   (pd_invoiceMonth
                      (installmentData tz ins (c_closingDay card) (Z.of_nat start)))
                   (ip_cardId ins) db1 = true).
    { unfold refreshCompletes. rewrite fitsColumn_invoiceSum by nia.
      rewrite (referencesCard_cards _ db db1) by reflexivity.
      rewrite Hfk. now rewrite orb_true_r. }
    rewrite Hc. cbn [fst snd].
    apply IH.
    + intros i id Hi. apply Hrows. lia.
    + rewrite (referencesCard_cards _ db1) by apply refresh_cards. exact Hfk.
    + rewrite cardExposure_refresh, Hexp. nia.
Qed.

(** [createPurchase] completes and returns a record for a card that
    exists, a whole number of installments, a purchase date the date
    column takes, a total value whose text has two decimals at most,
    and room in the column for the monthly totals of the card. *)
Lemma createPurchase_completes (tz : TimeZone) (ins : InsertPurchase) (db : Db)
  (card : Card) (n : Z) (a : Q) (c : Z) :
  getCard (ip_cardId ins) db = (db, Fulfilled (Some card)) ->
  toInteger (ip_totalInstallments ins) = Some n ->
  1 <= n ->
  toDate (ip_purchaseDate ins) = Some (ip_purchaseDate ins) ->
  ip_totalValue ins = Finite a ->
  (Number_toString a * inject_Z 100 == inject_Z c)%Q ->
  cardExposure (ip_cardId ins) db + Z.abs c + n < decimalLimit ->
  exists db' first,
    createPurchase tz ins db = (db', Fulfilled (Some first)).
Proof.
  intros Hcard HN Hn Hd Ha Hc Hroom.
  rewrite getCard_run in Hcard. injection Hcard as Hcard.
  pose proof (cardExposure_nonneg (ip_cardId ins) db) as He.
  pose proof (toInteger_Some _ _ HN) as (b & Eb & Hb & H32).
  apply int32_iff in H32.
  destruct (quotient_fits a b n c Hb Hn Hc ltac:(lia)) as (v & Hv & Hnv).
  assert (Ht : toDecimal (ip_totalValue ins) = Some (Dec c)).
  { rewrite Ha. apply toDecimal_two_decimals; [exact Hc | lia]. }
  rewrite <- Ha, <- Eb in Hv.
  (* the loop runs to its end *)
  assert (Hloop : exists l,
    snd (forPush (forRange (ip_totalInstallments ins)) (installmentTurn tz ins card)
           [] db) = Fulfilled l).
  { rewrite (forRange_integer _ _ HN).
    apply (createPurchase_loop_completes tz ins card (Z.abs v)).
    - intros i id Hi. eexists. split.
      + apply (purchaseRow_installmentData tz ins (c_closingDay card) (Z.of_nat i) n id
                 (Dec c) (Dec v)); auto.
        apply int32_iff. lia.
      + reflexivity.
    - now apply (referencesCard_found _ _ card).
    - rewrite Z2Nat.id by lia. lia. }
  destruct Hloop as (l & Hl).
  (* and returns the first of at least one row *)
  pose proof (createPurchase_run tz ins db) as R. rewrite Hcard in R.
  destruct R as (rows & len & Hrange & _ & _ & _ & _ & _ & Hres).
  rewrite createPurchase_unfold, Hcard in Hres |- *.
  destruct (forPush _ _ _ _) as [db' [l'|e]]; cbn [snd] in *; [|discriminate].
  destruct Hres as (-> & Hlen & _).
  rewrite (forRange_integer _ _ HN) in Hrange.
  apply (f_equal (@List.length Z)) in Hrange.
  rewrite !length_map, !length_seq in Hrange.
  destruct rows as [|first rows]; [cbn in Hlen; lia|].
  exists db', first. reflexivity.
Qed.

(** C4, as the code has it.  For a card that exists, a number of
    installments that is an integer [n] from 1 to 99, a purchase date
    that is a calendar date of a year from 1001 to 9990, a total value
    whose text has two decimals at most ([c] hundredths), and room in
    the column for the monthly totals of the card (the installment
    values the card has on record, the new amount and a hundredth an
    installment stay below [10^8] together), [createPurchase] completes,
    appends exactly [n] purchase rows to the table and returns the first
    of them.  Row [k], counted from 0, has [currentInstallment = k + 1];
    every row carries the same [installmentValue], the card, date, name,
    category, total value and number of installments of the input, and
    an invoice month in the format [YYYY-MM], the one the template
    literal writes for the installment date of index [k]. *)
Theorem createPurchase_persists_installments (tz : TimeZone) (ins : InsertPurchase)
  (db : Db) (card : Card) (n : Z) (a : Q) (c : Z) :
  getCard (ip_cardId ins) db = (db, Fulfilled (Some card)) ->
  toInteger (ip_totalInstallments ins) = Some n ->
  1 <= n <= 99 ->
  validIsoDate (ip_purchaseDate ins) = true ->
  1001 <= iso_year (ip_purchaseDate ins) <= 9990 ->
  ip_totalValue ins = Finite a ->
  (Number_toString a * inject_Z 100 == inject_Z c)%Q ->
  cardExposure (ip_cardId ins) db + Z.abs c + n < decimalLimit ->
  exists db' rows first,
    createPurchase tz ins db = (db', Fulfilled (Some first))
    /\ purchases db' = purchases db ++ rows
    /\ List.length rows = Z.to_nat n
    /\ nth_error rows 0 = Some first
    /\ forall k r, nth_error rows k = Some r ->
         p_currentInstallment r = Z.of_nat k + 1
         /\ p_installmentValue r = p_installmentValue first
         /\ isYearMonth (p_invoiceMonth r) = true
         /\ p_invoiceMonth r
            = invoiceMonthOf
                (installmentDate
                   (firstInvoiceDate tz (ip_purchaseDate ins) (c_closingDay card))
                   (Z.of_nat k))
         /\ p_cardId r = ip_cardId ins
         /\ p_purchaseDate r = ip_purchaseDate ins
         /\ p_name r = ip_name ins
         /\ p_category r = ip_category ins
         /\ p_totalValue r = Dec c
         /\ p_totalInstallments r = n.
Proof.
  intros Hcard HN Hn Hdate Hyear Ha Hc Hroom.
  assert (Hd : toDate (ip_purchaseDate ins) = Some (ip_purchaseDate ins)).
  { unfold toDate. rewrite Hdate.
    destruct (Z.leb_spec 1 (iso_year (ip_purchaseDate ins))); [|lia].
    destruct (Z.leb_spec (iso_year (ip_purchaseDate ins)) 9999); [reflexivity | lia]. }
  destruct (createPurchase_completes tz ins db card n a c Hcard HN ltac:(lia) Hd Ha Hc
              Hroom) as (db' & first & E).
  pose proof (cardExposure_nonneg (ip_cardId ins) db) as He.
  assert (Ht : toDecimal (ip_totalValue ins) = Some (Dec c)).
  { rewrite Ha. apply toDecimal_two_decimals; [exact Hc | lia]. }
  rewrite getCard_run in Hcard. injection Hcard as Hcard.
  pose proof (createPurchase_run tz ins db) as R. rewrite Hcard in R.
  destruct R as (rows & len & Hrange & Hp & _ & _ & Hnth & _ & Hres).
  rewrite E in Hp, Hres. cbn [fst snd] in Hp, Hres.
  destruct Hres as (Hfirst & Hlen & _).
  rewrite (forRange_integer _ _ HN) in Hrange.
  apply (f_equal (@List.length Z)) in Hrange.
  rewrite !length_map, !length_seq in Hrange.
  exists db', rows, first.
  split; [exact E|]. split; [exact Hp|]. split; [lia|].
  assert (H0 : nth_error rows 0 = Some first).
  { destruct rows; [discriminate|]. cbn in *. congruence. }
  split; [exact H0|].
  destruct (Hnth 0%nat first H0) as (id0 & R0).
  apply installmentData_row in R0. destruct R0 as (_ & _ & _ & _ & _ & _ & _ & _ & V0 & _).
  intros k r Hk.
  assert (Hkn : (k < Z.to_nat n)%nat).
  { rewrite Hrange, <- Hlen. apply nth_error_Some. congruence. }
  destruct (Hnth k r Hk) as (id & Rk).
  apply installmentData_row in Rk.
  destruct Rk as (_ & Rc & Rd & Rn & Rg & Rt & Ri & Rk & Rv & Rm & _).
  repeat split; try assumption.
  - congruence.
  - rewrite Rm. apply invoiceMonthOf_format;
      destruct (installmentDate_fields tz (ip_purchaseDate ins) (c_closingDay card)
                  (Z.of_nat k) Hdate) as [Hy Hm]; try lia.
  - congruence.
  - congruence.
Qed.

Lemma createPurchase_persists_installments_witness :
  exists db' rows first,
    createPurchase UtcOrEast secondPurchase sampleDbAfter
    = (db', Fulfilled (Some first))
    /\ purchases db' = purchases sampleDbAfter ++ rows
    /\ List.length rows = 2%nat
    /\ nth_error rows 0 = Some first
    /\ forall k r, nth_error rows k = Some r ->
         p_currentInstallment r = Z.of_nat k + 1
         /\ p_installmentValue r = p_installmentValue first
         /\ isYearMonth (p_invoiceMonth r) = true
         /\ p_invoiceMonth r
            = invoiceMonthOf
                (installmentDate (firstInvoiceDate UtcOrEast (mkIso 2024 3 20) 15)
                   (Z.of_nat k))
         /\ p_cardId r = 0%nat
         /\ p_purchaseDate r = mkIso 2024 3 20
         /\ p_name r = "Geladeira"
         /\ p_category r = "casa"
         /\ p_totalValue r = Dec 25050
         /\ p_totalInstallments r = 2.
Proof.
  apply (createPurchase_persists_installments UtcOrEast secondPurchase sampleDbAfter
           (mkCard 0%nat "Nubank" None 15 22) 2 (roundToDouble (25050 # 100)) 25050).
  - vm_compute. reflexivity.
  - vm_compute. reflexivity.
  - lia.
  - reflexivity.
  - cbn. lia.
  - reflexivity.
  - vm_compute. reflexivity.
  - vm_compute. reflexivity.
Defined.

(** C4, as stated, fails for inputs the schema accepts.  A total value
    of 100 000 000 in one installment is refused by the column and no
    record is persisted; a total value of 10.005 is stored as 10.01, not
    verbatim; a purchase of the year 999 gets the invoice month
    [999-12], which is not [YYYY-MM]. *)
Lemma accepted_purchase_not_persisted_verbatim :
  (let ins := sampleInput 0%nat (mkIso 2024 3 10) (inject_Z 100000000) (inject_Z 1) in
   insertPurchaseSchema ins = true
   /\ createPurchase UtcOrEast ins sampleDb = (sampleDb, Rejected DatabaseError))
  /\ (let ins := sampleInput 0%nat (mkIso 2024 3 10) (roundToDouble (10005 # 1000))
                   (inject_Z 1) in
      insertPurchaseSchema ins = true
      /\ (Number_toString (roundToDouble (10005 # 1000)) == 10005 # 1000)%Q
      /\ map p_totalValue (purchases (fst (createPurchase UtcOrEast ins sampleDb)))
         = [Dec 1001])
  /\ (let ins := sampleInput 0%nat (mkIso 999 12 10) (inject_Z 100) (inject_Z 1) in
      insertPurchaseSchema ins = true
      /\ map p_invoiceMonth (purchases (fst (createPurchase UtcOrEast ins sampleDb)))
         = ["999-12"]
      /\ isYearMonth "999-12" = false).
Proof. by_computation. Qed.

(* ================================================================== *)
(** ** Installment values                                              *)
(* ================================================================== *)

Lemma sumDecimal_constant {A} (f : A -> decimal) (v : Z) (l : list A) :
  (forall a, In a l -> f a = Dec v) ->
  sumDecimal (map f l) = Dec (Z.of_nat (List.length l) * v).
Proof.
  induction l as [|a l IH]; intros H; [reflexivity|].
  cbn [map List.length]. unfold sumDecimal in *. cbn [fold_right].
  rewrite IH by (intros b Hb; apply H; now right).
  rewrite (H a) by now left. cbn [decimal_add]. f_equal. lia.
Qed.

(** [n] equal installments within [e] of the quotient miss the total by
    at most [n] times [e]. *)
Lemma installments_sum_close (a e : Q) (n v : Z) :
  1 <= n ->
  (Qabs (inject_Z v * (1 # 100) - a / inject_Z n) <= e)%Q ->
  (Qabs (inject_Z (n * v) * (1 # 100) - a) <= inject_Z n * e)%Q.
Proof.
  intros Hn H.
  assert (Nq : (1 <= inject_Z n)%Q) by (unfold Qle; cbn; lia).
  setoid_replace (inject_Z (n * v) * (1 # 100) - a)%Q
    with (inject_Z n * (inject_Z v * (1 # 100) - a / inject_Z n))%Q
    by (rewrite inject_Z_mult; field; lra).
  rewrite Qabs_Qmult, (Qabs_pos (inject_Z n)) by lra.
  apply Qmult_le_l; [lra | exact H].
Qed.

(** C5, as the code has it.  For a card that exists, a whole number [n]
    of installments and a finite total value, the rows a call of
    [createPurchase] appends, however it ends, all carry the same
    [installmentValue]: what the [decimal(10,2)] column makes of the
    text of the double quotient of the total value by the number of
    installments, rounded half away from zero to hundredths, within
    0.005 and a ten-millionth of the exact quotient; no row is adjusted
    for the remainder.  A call that completes has appended [n] rows,
    and the sum of their installment values is within [n] times that
    bound of the total value. *)
Theorem installmentValue_rounded_and_sum_bound (tz : TimeZone) (ins : InsertPurchase)
  (db : Db) (card : Card) (n : Z) (a : Q) :
  getCard (ip_cardId ins) db = (db, Fulfilled (Some card)) ->
  toInteger (ip_totalInstallments ins) = Some n ->
  ip_totalValue ins = Finite a ->
  exists rows,
    purchases (fst (createPurchase tz ins db)) = purchases db ++ rows
    /\ (List.length rows <= Z.to_nat n)%nat
    /\ (forall r, In r rows ->
          toDecimal (Number_div (ip_totalValue ins) (ip_totalInstallments ins))
          = Some (p_installmentValue r)
          /\ exists v,
               p_installmentValue r = Dec v
               /\ (Qabs (inject_Z v * (1 # 100) - a / inject_Z n)
                   <= (1 # 200) + (1 # 10000000))%Q)
    /\ (forall db' returned,
          createPurchase tz ins db = (db', Fulfilled returned) ->
          List.length rows = Z.to_nat n
          /\ returned = hd_error rows
          /\ (1 <= n ->
              exists s,
                sumDecimal (map p_installmentValue rows) = Dec s
                /\ (Qabs (inject_Z s * (1 # 100) - a)
                    <= inject_Z n * ((1 # 200) + (1 # 10000000)))%Q)).
Proof.
  intros Hcard HN Ha.
  rewrite getCard_run in Hcard. injection Hcard as Hcard.
  pose proof (createPurchase_run tz ins db) as R. rewrite Hcard in R.
  destruct R as (rows & len & Hrange & Hp & _ & Hle & Hnth & _ & Hres).
  rewrite (forRange_integer _ _ HN) in Hrange.
  apply (f_equal (@List.length Z)) in Hrange.
  rewrite !length_map, !length_seq in Hrange. subst len.
  pose proof (toInteger_Some _ _ HN) as (b & Eb & Hb & _).
  assert (Hrow : forall r, In r rows ->
            1 <= n
            /\ toDecimal (Number_div (ip_totalValue ins) (ip_totalInstallments ins))
               = Some (p_installmentValue r)).
  { intros r Hr. split.
    - destruct rows; [destruct Hr|]. cbn in Hle. lia.
    - apply In_nth_error in Hr. destruct Hr as (k & Hk).
      destruct (Hnth k r Hk) as (id & Rk). apply installmentData_row in Rk. tauto. }
  assert (Hval : forall r, In r rows ->
            exists v,
              p_installmentValue r = Dec v
              /\ (Qabs (inject_Z v * (1 # 100) - a / inject_Z n)
                  <= (1 # 200) + (1 # 10000000))%Q).
  { intros r Hr. destruct (Hrow r Hr) as [Hn Hv].
    rewrite Ha, Eb in Hv. exact (installmentValue_close a b n _ Hb Hn Hv). }
  exists rows. split; [exact Hp|]. split; [exact Hle|]. split.
  - intros r Hr. split; [apply (Hrow r Hr) | apply (Hval r Hr)].
  - intros db' returned E. rewrite E in Hres. cbn [snd] in Hres.
    destruct Hres as (-> & Hlen & _). split; [exact Hlen|]. split; [reflexivity|].
    intros Hn.
    destruct rows as [|r0 rows']; [cbn in Hlen; lia|].
    destruct (Hval r0 (or_introl eq_refl)) as (v & Ev & Hclose).
    exists (n * v). split.
    + rewrite (sumDecimal_constant p_installmentValue v).
      * rewrite Hlen, Z2Nat.id by lia. reflexivity.
      * intros r Hr. destruct (Hrow r Hr) as [_ Hv].
        destruct (Hrow r0 (or_introl eq_refl)) as [_ Hv0]. congruence.
    + now apply installments_sum_close.
Qed.

Lemma installmentValue_rounded_and_sum_bound_witness :
  exists rows,
    purchases (fst (createPurchase UtcOrEast tenthsPurchase sampleDbAfter))
    = purchases sampleDbAfter ++ rows
    /\ (List.length rows <= 10)%nat
    /\ (forall r, In r rows ->
          toDecimal (Number_div (ip_totalValue tenthsPurchase)
                       (ip_totalInstallments tenthsPurchase))
          = Some (p_installmentValue r)
          /\ exists v,
               p_installmentValue r = Dec v
               /\ (Qabs (inject_Z v * (1 # 100)
                         - roundToDouble (5065 # 100) / inject_Z 10)
                   <= (1 # 200) + (1 # 10000000))%Q)
    /\ (forall db' returned,
          createPurchase UtcOrEast tenthsPurchase sampleDbAfter
          = (db', Fulfilled returned) ->
          List.length rows = 10%nat
          /\ returned = hd_error rows
          /\ (1 <= 10 ->
              exists s,
                sumDecimal (map p_installmentValue rows) = Dec s
                /\ (Qabs (inject_Z s * (1 # 100) - roundToDouble (5065 # 100))
                    <= inject_Z 10 * ((1 # 200) + (1 # 10000000)))%Q)).
Proof.
  apply (installmentValue_rounded_and_sum_bound UtcOrEast tenthsPurchase sampleDbAfter
           (mkCard 0%nat "Nubank" None 15 22) 10 (roundToDouble (5065 # 100))).
  - vm_compute. reflexivity.
  - vm_compute. reflexivity.
  - reflexivity.
Defined.

(** C5, as stated, fails: 100.00 in three installments is stored as three
    rows of 33.33, none of them the quotient, and their sum is 99.99,
    one hundredth short of the total value; 50.65 in ten installments
    is stored as ten rows of 5.06, the double quotient lying below
    5.065, and their sum is 50.60, five hundredths short. *)
Lemma installments_of_100_by_3_sum_to_9999 :
  (exists db' rows,
     createPurchase UtcOrEast samplePurchase sampleDb = (db', Fulfilled (hd_error rows))
     /\ purchases db' = rows
     /\ map p_totalValue rows = [Dec 10000; Dec 10000; Dec 10000]
     /\ map p_installmentValue rows = [Dec 3333; Dec 3333; Dec 3333]
     /\ sumDecimal (map p_installmentValue rows) = Dec 9999
     /\ (inject_Z 100 - inject_Z 9999 * (1 # 100) == 1 # 100)%Q)
  /\ (exists db' rows,
        createPurchase UtcOrEast tenthsPurchase sampleDb
        = (db', Fulfilled (hd_error rows))
        /\ purchases db' = rows
        /\ (Number_toString (roundToDouble (5065 # 100)) == 5065 # 100)%Q
        /\ (Number_toString (roundToDouble (roundToDouble (5065 # 100) / inject_Z 10))
            == 50649999999999995 # 10000000000000000)%Q
        /\ map p_installmentValue rows
           = [Dec 506; Dec 506; Dec 506; Dec 506; Dec 506;
              Dec 506; Dec 506; Dec 506; Dec 506; Dec 506]
        /\ sumDecimal (map p_installmentValue rows) = Dec 5060).
Proof.
  split.
  - exists (fst (createPurchase UtcOrEast samplePurchase sampleDb)),
           (purchases (fst (createPurchase UtcOrEast samplePurchase sampleDb))).
    by_computation.
  - exists (fst (createPurchase UtcOrEast tenthsPurchase sampleDb)),
           (purchases (fst (createPurchase UtcOrEast tenthsPurchase sampleDb))).
    by_computation.
Qed.

(* ================================================================== *)
(** ** The validated number of installments                            *)
(* ================================================================== *)

(** C10, as stated, fails on its first clause: the schema accepts one and
    a half installments, which is no integer; the integer column then
    refuses the first insert and nothing is written. *)
Lemma schema_accepts_fractional_count :
  insertPurchaseSchema fractionalPurchase = true
  /\ ip_totalInstallments fractionalPurchase = Finite (3 # 2)
  /\ (forall n : Z, ~ (3 # 2 == inject_Z n)%Q)
  /\ createPurchase UtcOrEast fractionalPurchase sampleDb
     = (sampleDb, Rejected DatabaseError).
Proof.
  split; [reflexivity|]. split; [reflexivity|]. split; [|vm_compute; reflexivity].
  intros n H. unfold Qeq in H. cbn in H. lia.
Qed.

(** C10, as the code has it.  An input [insertPurchaseSchema] accepts has
    a number of installments from 1 to 99; with such a number the loop of
    [createPurchase] runs for index 0 at least, so whenever
    [createPurchase] completes it returns a record, one of the rows of
    the purchases table, and never the undefined head of an empty list;
    and it does complete when the card exists, the number is integral,
    the date column takes the purchase date, the text of the total
    value has two decimals at most and the column has room for the
    monthly totals of the card. *)
Theorem accepted_count_returns_defined_record (tz : TimeZone) (ins : InsertPurchase)
  (db : Db) :
  insertPurchaseSchema ins = true ->
  (exists q, ip_totalInstallments ins = Finite q /\ (1 <= q /\ q <= 99)%Q)
  /\ (exists rest, forRange (ip_totalInstallments ins) = 0 :: rest)
  /\ (forall db' r,
        createPurchase tz ins db = (db', Fulfilled r) ->
        exists purchase, r = Some purchase /\ In purchase (purchases db'))
  /\ (forall card n a c,
        getCard (ip_cardId ins) db = (db, Fulfilled (Some card)) ->
        toInteger (ip_totalInstallments ins) = Some n ->
        toDate (ip_purchaseDate ins) = Some (ip_purchaseDate ins) ->
        ip_totalValue ins = Finite a ->
        (Number_toString a * inject_Z 100 == inject_Z c)%Q ->
        cardExposure (ip_cardId ins) db + Z.abs c + n < decimalLimit ->
        exists db' purchase,
          createPurchase tz ins db = (db', Fulfilled (Some purchase))).
Proof.
  unfold insertPurchaseSchema.
  destruct (ip_totalInstallments ins) as [q| | |] eqn:EN; try discriminate.
  rewrite andb_true_iff, !Qle_bool_iff. intros [Hlo Hhi].
  assert (Hpos : (0 < q)%Q) by lra.
  destruct (forRange_positive _ Hpos) as (rest & Hrange).
  split; [eauto|]. split; [eauto|]. split.
  - intros db' r E. pose proof (createPurchase_run tz ins db) as R.
    destruct (hd_error _) as [card|]; [|congruence].
    destruct R as (rows & len & Hr & Hp & _ & _ & _ & _ & Hres).
    rewrite E in Hp, Hres. cbn [fst snd] in Hp, Hres.
    destruct Hres as (-> & Hlen & _).
    rewrite EN, Hrange in Hr.
    destruct rows as [|r0 rows]; [|].
    + cbn in Hlen. subst len. discriminate.
    + exists r0. split; [reflexivity|]. rewrite Hp. apply in_or_app. right. now left.
  - intros card n a c Hcard HN Hd Ha Hc Hroom.
    apply (createPurchase_completes tz ins db card n a c); auto.
    + now rewrite EN.
    + rewrite <- EN in HN. pose proof HN as HN'. rewrite EN in HN'.
      apply toInteger_Some in HN'. destruct HN' as (q' & [= <-] & Eq & _).
      rewrite Eq in Hlo. rewrite Zle_Qle. exact Hlo.
Qed.

Lemma accepted_count_returns_defined_record_witness :
  (exists q, ip_totalInstallments secondPurchase = Finite q /\ (1 <= q /\ q <= 99)%Q)
  /\ (exists rest, forRange (ip_totalInstallments secondPurchase) = 0 :: rest)
  /\ (forall db' r,
        createPurchase UtcOrEast secondPurchase sampleDbAfter = (db', Fulfilled r) ->
        exists purchase, r = Some purchase /\ In purchase (purchases db'))
  /\ (forall card n a c,
        getCard (ip_cardId secondPurchase) sampleDbAfter
        = (sampleDbAfter, Fulfilled (Some card)) ->
        toInteger (ip_totalInstallments secondPurchase) = Some n ->
        toDate (ip_purchaseDate secondPurchase) = Some (ip_purchaseDate secondPurchase) ->
        ip_totalValue secondPurchase = Finite a ->
        (Number_toString a * inject_Z 100 == inject_Z c)%Q ->
        cardExposure (ip_cardId secondPurchase) sampleDbAfter + Z.abs c + n
        < decimalLimit ->
        exists db' purchase,
          createPurchase UtcOrEast secondPurchase sampleDbAfter
          = (db', Fulfilled (Some purchase))).
Proof.
  apply (accepted_count_returns_defined_record UtcOrEast secondPurchase sampleDbAfter).
  reflexivity.
Defined.

(* ================================================================== *)
(** ** One card's mutations and the other cards                        *)
(* ================================================================== *)

Lemma refresh_other_card (month : string) (cardId other : Uuid) (db : Db) :
  other <> cardId ->
  filter (fun r => Nat.eqb (mi_cardId r) other) (monthlyInvoices (refresh month cardId db))
  = filter (fun r => Nat.eqb (mi_cardId r) other) (monthlyInvoices db).
Proof.
  intros Hne. unfold refresh.
  destruct (existsb _ (monthlyInvoices db)); cbn [monthlyInvoices].
  - induction (monthlyInvoices db) as [|r l IH]; [reflexivity|].
    cbn [map filter]. rewrite IH.
    destruct (invoiceWhere month cardId r) eqn:W; [|reflexivity].
    apply invoiceWhere_true in W. destruct W as [_ Wc]. cbn [mi_cardId set_totalValue].
    rewrite Wc. destruct (Nat.eqb_spec cardId other); [congruence | reflexivity].
  - rewrite filter_app. cbn [filter mi_cardId].
    destruct (Nat.eqb_spec cardId other); [congruence|]. now rewrite app_nil_r.
Qed.

(** Completed or refused, the refresh of a card leaves the rows of every
    other card alone. *)
Lemma updateMonthlyInvoiceForCard_other_card (month : string) (cardId other : Uuid)
  (db : Db) :
  other <> cardId ->
  filter (fun r => Nat.eqb (mi_cardId r) other)
    (monthlyInvoices (fst (updateMonthlyInvoiceForCard month cardId db)))
  = filter (fun r => Nat.eqb (mi_cardId r) other) (monthlyInvoices db).
Proof.
  intros Hne. rewrite updateMonthlyInvoiceForCard_run.
  destruct (refreshCompletes month cardId db); cbn [fst]; [|reflexivity].
  now apply refresh_other_card.
Qed.

(** An insert, completed or refused, appends at most its own row. *)
Lemma insert_purchases_run (v : PurchaseData) (db : Db) :
  (fst (insert_purchases v db) = db)
  \/ exists row,
       purchaseRow v (nextUuid db) = Some row
       /\ fst (insert_purchases v db)
          = mkDb (cards db) (purchases db ++ [row]) (monthlyInvoices db) (S (nextUuid db)).
Proof.
  unfold insert_purchases.
  destruct (purchaseRow v (nextUuid db)) as [row|]; [|now left].
  destruct (referencesCard _ _); [|now left].
  right. exists row. auto.
Qed.

(** X1.  [createPurchase] for one card leaves every other card alone:
    however the call ends, the cards table is unchanged and the purchase
    rows and the monthly-invoice rows of any other card are the ones that
    were there, in the same order. *)
Theorem createPurchase_other_cards_untouched (tz : TimeZone) (ins : InsertPurchase)
  (db : Db) (other : Uuid) :
  other <> ip_cardId ins ->
  cards (fst (createPurchase tz ins db)) = cards db
  /\ filter (fun p => Nat.eqb (p_cardId p) other)
       (purchases (fst (createPurchase tz ins db)))
     = filter (fun p => Nat.eqb (p_cardId p) other) (purchases db)
  /\ filter (fun r => Nat.eqb (mi_cardId r) other)
       (monthlyInvoices (fst (createPurchase tz ins db)))
     = filter (fun r => Nat.eqb (mi_cardId r) other) (monthlyInvoices db).
Proof.
  intros Hne.
  apply (createPurchase_invariant
           (fun d => cards d = cards db
                     /\ filter (fun p => Nat.eqb (p_cardId p) other) (purchases d)
                        = filter (fun p => Nat.eqb (p_cardId p) other) (purchases db)
                     /\ filter (fun r => Nat.eqb (mi_cardId r) other) (monthlyInvoices d)
                        = filter (fun r => Nat.eqb (mi_cardId r) other)
                            (monthlyInvoices db))).
  - auto.
  - intros v d Hv (Hc & Hp & Hi).
    destruct (insert_purchases_run v d) as [-> | (row & Hrow & ->)]; [auto|].
    cbn [cards purchases monthlyInvoices]. repeat split; auto.
    rewrite filter_app, Hp. cbn [filter].
    apply purchaseRow_Some in Hrow. destruct Hrow as (_ & _ & _ & _ & _ & ->).
    cbn [p_cardId]. rewrite Hv.
    destruct (Nat.eqb_spec (ip_cardId ins) other); [congruence|].
    now rewrite app_nil_r.
  - intros month d (Hc & Hp & Hi).
    destruct (updateMonthlyInvoiceForCard_purchases month (ip_cardId ins) d) as [-> ->].
    rewrite updateMonthlyInvoiceForCard_other_card by exact Hne. auto.
Qed.

Lemma createPurchase_other_cards_untouched_witness :
  cards (fst (createPurchase UtcOrEast samplePurchase sampleDb)) = cards sampleDb
  /\ filter (fun p => Nat.eqb (p_cardId p) 1%nat)
       (purchases (fst (createPurchase UtcOrEast samplePurchase sampleDb)))
     = filter (fun p => Nat.eqb (p_cardId p) 1%nat) (purchases sampleDb)
  /\ filter (fun r => Nat.eqb (mi_cardId r) 1%nat)
       (monthlyInvoices (fst (createPurchase UtcOrEast samplePurchase sampleDb)))
     = filter (fun r => Nat.eqb (mi_cardId r) 1%nat) (monthlyInvoices sampleDb).
Proof.
  apply (createPurchase_other_cards_untouched UtcOrEast samplePurchase sampleDb 1%nat).
  cbn. discriminate.
Defined.

(** X2.  [deletePurchase] leaves every other card alone: with [purchase]
    the row found for the identifier, the cards table is unchanged and
    the purchase rows and the monthly-invoice rows of any card other than
    that of [purchase] are the ones that were there, in the same order. *)
Theorem deletePurchase_other_cards_untouched (id : Uuid) (db : Db)
  (purchase : Purchase) (rest : list Purchase) (other : Uuid) :
  filter (fun p => Nat.eqb (p_id p) id) (purchases db) = purchase :: rest ->
  other <> p_cardId purchase ->
  cards (fst (deletePurchase id db)) = cards db
  /\ filter (fun p => Nat.eqb (p_cardId p) other) (purchases (fst (deletePurchase id db)))
     = filter (fun p => Nat.eqb (p_cardId p) other) (purchases db)
  /\ filter (fun r => Nat.eqb (mi_cardId r) other)
       (monthlyInvoices (fst (deletePurchase id db)))
     = filter (fun r => Nat.eqb (mi_cardId r) other) (monthlyInvoices db).
Proof.
  intros Hfound Hne. rewrite deletePurchase_run, Hfound.
  apply (forOf_invariant
           (fun d => cards d = cards db
                     /\ filter (fun p => Nat.eqb (p_cardId p) other) (purchases d)
                        = filter (fun p => Nat.eqb (p_cardId p) other) (purchases db)
                     /\ filter (fun r => Nat.eqb (mi_cardId r) other) (monthlyInvoices d)
                        = filter (fun r => Nat.eqb (mi_cardId r) other)
                            (monthlyInvoices db))).
  - intros month d (Hc & Hp & Hi).
    destruct (updateMonthlyInvoiceForCard_purchases month (p_cardId purchase) d)
      as [-> ->].
    rewrite updateMonthlyInvoiceForCard_other_card by exact Hne. auto.
  - cbn [withoutSiblings cards purchases monthlyInvoices]. repeat split.
    apply filter_filter_implied. intros q _ Hq. apply Nat.eqb_eq in Hq.
    destruct (siblingWhere purchase q) eqn:S; [|reflexivity].
    apply siblingWhere_true in S. destruct S as [Sc _]. congruence.
Qed.

Lemma deletePurchase_other_cards_untouched_witness :
  cards (fst (deletePurchase 5%nat sampleDbAfter)) = cards sampleDbAfter
  /\ filter (fun p => Nat.eqb (p_cardId p) 1%nat)
       (purchases (fst (deletePurchase 5%nat sampleDbAfter)))
     = filter (fun p => Nat.eqb (p_cardId p) 1%nat) (purchases sampleDbAfter)
  /\ filter (fun r => Nat.eqb (mi_cardId r) 1%nat)
       (monthlyInvoices (fst (deletePurchase 5%nat sampleDbAfter)))
     = filter (fun r => Nat.eqb (mi_cardId r) 1%nat) (monthlyInvoices sampleDbAfter).
Proof.
  eapply (deletePurchase_other_cards_untouched 5%nat sampleDbAfter _ _ 1%nat).
  - vm_compute. reflexivity.
  - vm_compute. discriminate.
Defined.

(* ================================================================== *)
(** ** How a call of [createPurchase] ends                             *)
(* ================================================================== *)

Lemma zeroBelow_false (n : number) : zeroBelow n = false -> forRange n = [].
Proof.
  destruct n as [q| | |]; cbn [zeroBelow]; try discriminate; try reflexivity.
  rewrite negb_false_iff, Qle_bool_iff. apply forRange_nonpositive.
Qed.

Lemma zeroBelow_true (n : number) :
  zeroBelow n = true -> exists rest, forRange n = 0 :: rest.
Proof.
  destruct n as [q| | |]; cbn [zeroBelow]; try discriminate.
  - rewrite negb_true_iff. intros H. apply forRange_positive.
    apply Qnot_le_lt. intros L. apply Qle_bool_iff in L. congruence.
  - intros _. exists []. reflexivity.
Qed.

(** X3.  The ways [createPurchase] ends for a card that exists, by the
    number of installments, which the storage layer does not validate.
    The call completes with [undefined], having written nothing, exactly
    when the loop test fails at index 0: for zero, a negative number,
    [NaN]; when the test passes and the number is no integer the column
    can hold, the call is rejected at the first insert and writes
    nothing; and a call that completes with a record was given an
    integer [n >= 1], which the record carries as its number of
    installments. *)
Theorem createPurchase_outcome_by_count (tz : TimeZone) (ins : InsertPurchase)
  (db : Db) (card : Card) :
  getCard (ip_cardId ins) db = (db, Fulfilled (Some card)) ->
  (zeroBelow (ip_totalInstallments ins) = false
   <-> createPurchase tz ins db = (db, Fulfilled None))
  /\ (zeroBelow (ip_totalInstallments ins) = true ->
      toInteger (ip_totalInstallments ins) = None ->
      createPurchase tz ins db = (db, Rejected DatabaseError))
  /\ (forall db' purchase,
        createPurchase tz ins db = (db', Fulfilled (Some purchase)) ->
        exists n, toInteger (ip_totalInstallments ins) = Some n /\ 1 <= n
                  /\ p_totalInstallments purchase = n).
Proof.
  intros Hcard. rewrite getCard_run in Hcard. injection Hcard as Hcard.
  pose proof (createPurchase_run tz ins db) as R. rewrite Hcard in R.
  destruct R as (rows & len & Hr & Hp & _ & Hlen & Hnth & _ & Hres).
  split; [|split].
  - split.
    + intros Hz. rewrite createPurchase_unfold, Hcard, (zeroBelow_false _ Hz).
      reflexivity.
    + intros E. destruct (zeroBelow (ip_totalInstallments ins)) eqn:Hz; [|reflexivity].
      destruct (zeroBelow_true _ Hz) as (rest & Hrange).
      rewrite E in Hres. cbn [snd] in Hres. destruct Hres as (Hhd & Hl & _).
      rewrite Hr in Hrange. destruct len; [discriminate|].
      destruct rows; [discriminate | discriminate].
  - intros Hz HN. destruct (zeroBelow_true _ Hz) as (rest & Hrange).
    rewrite createPurchase_unfold, Hcard, Hrange. cbn [forPush]. unfold await.
    rewrite installmentTurn_run. cbv zeta. unfold purchaseRow.
    cbn [installmentData pd_purchaseDate pd_totalValue pd_totalInstallments
         pd_installmentValue].
    rewrite HN.
    destruct (toDate _); [|reflexivity].
    destruct (toDecimal (ip_totalValue ins)); reflexivity.
  - intros db' purchase E. rewrite E in Hres. cbn [snd] in Hres.
    destruct Hres as (Hhd & Hl & _).
    destruct rows as [|r rows]; [discriminate|]. injection Hhd as <-.
    destruct (Hnth 0%nat purchase eq_refl) as (id & Hrow).
    apply purchaseRow_Some in Hrow. destruct Hrow as (_ & _ & HN & _).
    cbn [installmentData pd_totalInstallments] in HN.
    exists (p_totalInstallments purchase). split; [exact HN|]. split; [|reflexivity].
    pose proof (forRange_integer _ _ HN) as Hrange. rewrite Hr in Hrange.
    cbn [List.length] in Hl. subst len.
    apply (f_equal (@List.length Z)) in Hrange.
    rewrite !length_map, !length_seq in Hrange. lia.
Qed.

Lemma createPurchase_outcome_by_count_witness :
  ((zeroBelow (ip_totalInstallments fractionalPurchase) = false
    <-> createPurchase UtcOrEast fractionalPurchase sampleDb = (sampleDb, Fulfilled None))
   /\ (zeroBelow (ip_totalInstallments fractionalPurchase) = true ->
       toInteger (ip_totalInstallments fractionalPurchase) = None ->
       createPurchase UtcOrEast fractionalPurchase sampleDb
       = (sampleDb, Rejected DatabaseError))
   /\ (forall db' purchase,
         createPurchase UtcOrEast fractionalPurchase sampleDb
         = (db', Fulfilled (Some purchase)) ->
         exists n, toInteger (ip_totalInstallments fractionalPurchase) = Some n
                   /\ 1 <= n /\ p_totalInstallments purchase = n))
  /\ ((zeroBelow (ip_totalInstallments samplePurchase) = false
       <-> createPurchase UtcOrEast samplePurchase sampleDb = (sampleDb, Fulfilled None))
      /\ (zeroBelow (ip_totalInstallments samplePurchase) = true ->
          toInteger (ip_totalInstallments samplePurchase) = None ->
          createPurchase UtcOrEast samplePurchase sampleDb
          = (sampleDb, Rejected DatabaseError))
      /\ (forall db' purchase,
            createPurchase UtcOrEast samplePurchase sampleDb
            = (db', Fulfilled (Some purchase)) ->
            exists n, toInteger (ip_totalInstallments samplePurchase) = Some n
                      /\ 1 <= n /\ p_totalInstallments purchase = n)).
Proof.
  split.
  - apply (createPurchase_outcome_by_count UtcOrEast fractionalPurchase sampleDb
             (mkCard 0%nat "Nubank" None 15 22)).
    reflexivity.
  - apply (createPurchase_outcome_by_count UtcOrEast samplePurchase sampleDb
             (mkCard 0%nat "Nubank" None 15 22)).
    reflexivity.
Defined.

(* ================================================================== *)
(** ** Writing a total by hand and refreshing it                       *)
(* ================================================================== *)

(** X4.  A refresh overrides whatever [updateMonthlyInvoice] wrote: for
    any number written as the total of a month and card, when the write
    and the refresh of that month and card after it both complete, they
    leave the database the refresh alone would have left, which
    completes as well. *)
Theorem refresh_overrides_updateMonthlyInvoice (month : string) (cardId : Uuid)
  (totalValue : number) (db : Db) :
  snd ((updateMonthlyInvoice month cardId totalValue ;;;
        updateMonthlyInvoiceForCard month cardId) db) = Fulfilled tt ->
  (updateMonthlyInvoice month cardId totalValue ;;;
   updateMonthlyInvoiceForCard month cardId) db
  = updateMonthlyInvoiceForCard month cardId db.
Proof.
  unfold await. rewrite updateMonthlyInvoice_run.
  destruct (toDecimal totalValue) as [t|]; [|discriminate].
  rewrite (updateMonthlyInvoiceForCard_run month cardId db).
  unfold refreshCompletes.
  destruct (existsb (invoiceWhere month cardId) (monthlyInvoices db)) eqn:Ex.
  - rewrite updateMonthlyInvoiceForCard_run. unfold refreshCompletes, invoiceSum.
    cbn [cards purchases monthlyInvoices nextUuid].
    assert (Ex' : existsb (invoiceWhere month cardId)
                    (map (fun r => if invoiceWhere month cardId r
                                   then set_totalValue t r else r)
                         (monthlyInvoices db)) = true).
    { apply existsb_exists in Ex. destruct Ex as (r & Hr & W).
      apply existsb_exists. exists (set_totalValue t r). split.
      - apply in_map_iff. exists r. now rewrite W.
      - apply invoiceWhere_true in W. now apply invoiceWhere_true. }
    rewrite Ex'. fold (invoiceSum month cardId db).
    destruct (fitsColumn (invoiceSum month cardId db)); cbn [andb orb snd];
      [|discriminate].
    intros _. f_equal. unfold refresh, invoiceSum.
    cbn [cards purchases monthlyInvoices nextUuid]. rewrite Ex, Ex'.
    f_equal. rewrite map_map. apply map_ext. intros r.
    destruct (invoiceWhere month cardId r) eqn:W; [|now rewrite W].
    assert (W' : invoiceWhere month cardId (set_totalValue t r) = true).
    { apply invoiceWhere_true in W. now apply invoiceWhere_true. }
    now rewrite W'.
  - destruct (referencesCard cardId db) eqn:Ref; [|discriminate].
    rewrite updateMonthlyInvoiceForCard_run. unfold refreshCompletes, invoiceSum.
    cbn [cards purchases monthlyInvoices nextUuid].
    rewrite existsb_app. cbn [existsb]. rewrite invoiceWhere_refl, orb_true_r.
    fold (invoiceSum month cardId db).
    destruct (fitsColumn (invoiceSum month cardId db)); cbn [andb orb snd];
      [|discriminate].
    intros _. f_equal. unfold refresh, invoiceSum.
    cbn [cards purchases monthlyInvoices nextUuid].
    rewrite existsb_app. cbn [existsb]. rewrite invoiceWhere_refl, orb_true_r, Ex.
    f_equal. rewrite map_app. cbn [map]. rewrite invoiceWhere_refl.
    f_equal. rewrite <- (map_id (monthlyInvoices db)) at 2.
    apply map_ext_in. intros r Hr.
    destruct (invoiceWhere month cardId r) eqn:W; [|reflexivity].
    assert (X : existsb (invoiceWhere month cardId) (monthlyInvoices db) = true)
      by (apply existsb_exists; eauto).
    congruence.
Qed.

Lemma refresh_overrides_updateMonthlyInvoice_witness :
  (updateMonthlyInvoice "2024-03" 0%nat (inject_Z 12345) ;;;
   updateMonthlyInvoiceForCard "2024-03" 0%nat) sampleDbAfter
  = updateMonthlyInvoiceForCard "2024-03" 0%nat sampleDbAfter.
Proof.
  apply (refresh_overrides_updateMonthlyInvoice "2024-03" 0%nat (inject_Z 12345)
           sampleDbAfter).
  vm_compute. reflexivity.
Defined.

(* ================================================================== *)
(** ** Cards                                                           *)
(* ================================================================== *)

Lemma filter_all {A} (f : A -> bool) (l : list A) :
  (forall a, In a l -> f a = true) -> filter f l = l.
Proof.
  induction l as [|a l IH]; intros H; cbn [filter]; [reflexivity|].
  rewrite (H a) by now left. f_equal. apply IH. intros b Hb. apply H. now right.
Qed.

Lemma hd_error_filter_None {A} (f : A -> bool) (l : list A) :
  hd_error (filter f l) = None <-> forall a, In a l -> f a = false.
Proof.
  split.
  - intros H a Ha. destruct (f a) eqn:F; [|reflexivity].
    assert (X : In a (filter f l)) by (apply filter_In; auto).
    destruct (filter f l); [destruct X | discriminate].
  - intros H. destruct (filter f l) as [|a r] eqn:E; [reflexivity|].
    assert (X : In a (filter f l)) by (rewrite E; now left).
    apply filter_In in X. destruct X as [Ha F]. rewrite (H a Ha) in F. discriminate.
Qed.

(** The cascade test of [deleteCard]: a row goes when it references the
    identifier and a card carries that identifier. *)
Lemma deleteCard_deleted (id cardId : Uuid) (cs : list Card) :
  existsb (fun c => Nat.eqb (c_id c) id && Nat.eqb (c_id c) cardId) cs = true
  <-> cardId = id /\ hd_error (filter (fun c => Nat.eqb (c_id c) id) cs) <> None.
Proof.
  rewrite existsb_exists. split.
  - intros (c & Hc & E). apply andb_true_iff in E. destruct E as [E1 E2].
    apply Nat.eqb_eq in E1, E2. split; [congruence|].
    intros N. rewrite hd_error_filter_None in N. specialize (N c Hc).
    apply Nat.eqb_neq in N. congruence.
  - intros [-> N]. destruct (filter _ cs) as [|c r] eqn:E; [now destruct N|].
    assert (X : In c (filter (fun c => Nat.eqb (c_id c) id) cs)) by (rewrite E; now left).
    apply filter_In in X. destruct X as [Hc Ec]. exists c. split; [exact Hc|].
    now rewrite Ec.
Qed.

Lemma deleteCard_run (id : Uuid) (db : Db) :
  deleteCard id db =
  (mkDb (filter (fun c => negb (Nat.eqb (c_id c) id)) (cards db))
        (filter (fun p =>
                   negb (existsb (fun c => Nat.eqb (c_id c) id
                                           && Nat.eqb (c_id c) (p_cardId p)) (cards db)))
                (purchases db))
        (filter (fun r =>
                   negb (existsb (fun c => Nat.eqb (c_id c) id
                                           && Nat.eqb (c_id c) (mi_cardId r)) (cards db)))
                (monthlyInvoices db))
        (nextUuid db),
   Fulfilled tt).
Proof. reflexivity. Qed.

(** X5.  [deleteCard] on an identifier no card carries completes and
    leaves the database as it was.  On the identifier of a card it
    completes and removes the card together with every purchase row and
    every monthly-invoice row that references it: afterwards [getCard]
    finds no card for the identifier, no purchase or monthly-invoice row
    carries it, and a [createPurchase] for it is rejected with
    [CardNotFound]. *)
Theorem deleteCard_cascades (tz : TimeZone) (id : Uuid) (db : Db) :
  match hd_error (filter (fun c => Nat.eqb (c_id c) id) (cards db)) with
  | None => deleteCard id db = (db, Fulfilled tt)
  | Some _ =>
      let db' := fst (deleteCard id db) in
      deleteCard id db = (db', Fulfilled tt)
      /\ getCard id db' = (db', Fulfilled None)
      /\ (forall p, In p (purchases db') <-> In p (purchases db) /\ p_cardId p <> id)
      /\ (forall r, In r (monthlyInvoices db') <->
                    In r (monthlyInvoices db) /\ mi_cardId r <> id)
      /\ (forall ins, ip_cardId ins = id ->
                      createPurchase tz ins db' = (db', Rejected CardNotFound))
  end.
Proof.
  pose proof (deleteCard_deleted id) as D.
  destruct (hd_error _) as [card|] eqn:Hc.
  - assert (Hd : forall cardId,
               negb (existsb (fun c => Nat.eqb (c_id c) id && Nat.eqb (c_id c) cardId)
                       (cards db)) = true <-> cardId <> id).
    { intros cardId. rewrite negb_true_iff, <- not_true_iff_false, D, Hc.
      split; [intros H E; apply H; split; [exact E | discriminate] | tauto]. }
    assert (Hg : hd_error (filter (fun c => Nat.eqb (c_id c) id)
                             (cards (fst (deleteCard id db)))) = None).
    { apply hd_error_filter_None.
      rewrite deleteCard_run. cbn [fst cards]. intros c X.
      apply filter_In in X. destruct X as [_ X]. now apply negb_true_iff in X. }
    cbv zeta. split; [reflexivity|]. split; [now rewrite getCard_run, Hg|].
    split; [|split].
    + intros p. rewrite deleteCard_run. cbn [fst purchases].
      now rewrite filter_In, Hd.
    + intros r. rewrite deleteCard_run. cbn [fst monthlyInvoices].
      now rewrite filter_In, Hd.
    + intros ins <-. now rewrite createPurchase_unfold, Hg.
  - rewrite deleteCard_run.
    assert (Hd : forall cardId,
               negb (existsb (fun c => Nat.eqb (c_id c) id && Nat.eqb (c_id c) cardId)
                       (cards db)) = true).
    { intros cardId. rewrite negb_true_iff, <- not_true_iff_false, D, Hc. tauto. }
    rewrite !filter_all; [now destruct db | | |]; intros; try apply Hd.
    rewrite hd_error_filter_None in Hc. now rewrite Hc.
Qed.

(** X6.  [deleteCard] leaves every other card alone: the card found for
    any other identifier, its purchase rows and its monthly-invoice rows
    are what they were. *)
Theorem deleteCard_other_cards_untouched (id other : Uuid) (db : Db) :
  other <> id ->
  getCard other (fst (deleteCard id db))
  = (fst (deleteCard id db), snd (getCard other db))
  /\ filter (fun p => Nat.eqb (p_cardId p) other) (purchases (fst (deleteCard id db)))
     = filter (fun p => Nat.eqb (p_cardId p) other) (purchases db)
  /\ filter (fun r => Nat.eqb (mi_cardId r) other)
       (monthlyInvoices (fst (deleteCard id db)))
     = filter (fun r => Nat.eqb (mi_cardId r) other) (monthlyInvoices db).
Proof.
  intros Hne. rewrite !getCard_run, deleteCard_run.
  cbn [fst snd cards purchases monthlyInvoices].
  assert (Hd : forall cardId, cardId = other ->
               negb (existsb (fun c => Nat.eqb (c_id c) id && Nat.eqb (c_id c) cardId)
                       (cards db)) = true).
  { intros cardId ->. rewrite negb_true_iff, <- not_true_iff_false, deleteCard_deleted.
    tauto. }
  repeat split.
  - rewrite filter_filter_implied; [reflexivity|]. intros c _ E.
    apply Nat.eqb_eq in E. rewrite E. apply negb_true_iff. now apply Nat.eqb_neq.
  - apply filter_filter_implied. intros p _ E. apply Nat.eqb_eq in E. now apply Hd.
  - apply filter_filter_implied. intros r _ E. apply Nat.eqb_eq in E. now apply Hd.
Qed.

Lemma deleteCard_other_cards_untouched_witness :
  getCard 1%nat (fst (deleteCard 0%nat sampleDbAfter))
  = (fst (deleteCard 0%nat sampleDbAfter), snd (getCard 1%nat sampleDbAfter))
  /\ filter (fun p => Nat.eqb (p_cardId p) 1%nat)
       (purchases (fst (deleteCard 0%nat sampleDbAfter)))
     = filter (fun p => Nat.eqb (p_cardId p) 1%nat) (purchases sampleDbAfter)
  /\ filter (fun r => Nat.eqb (mi_cardId r) 1%nat)
       (monthlyInvoices (fst (deleteCard 0%nat sampleDbAfter)))
     = filter (fun r => Nat.eqb (mi_cardId r) 1%nat) (monthlyInvoices sampleDbAfter).
Proof.
  apply (deleteCard_other_cards_untouched 0%nat 1%nat sampleDbAfter). discriminate.
Defined.

(** X7.  [deleteCard] keeps the invoice table consistent: if every
    monthly-invoice row holds the sum of its installments before the
    call, every row that is left holds it afterwards. *)
Theorem deleteCard_keeps_invoices_consistent (id : Uuid) (db : Db) :
  invoicesConsistent db = true ->
  invoicesConsistent (fst (deleteCard id db)) = true.
Proof.
  rewrite !invoicesConsistent_iff, deleteCard_run.
  cbn [fst monthlyInvoices]. intros H r Hr.
  apply filter_In in Hr. destruct Hr as [Hr Hd]. rewrite (H r Hr).
  unfold invoiceSum. cbn [purchases]. f_equal. f_equal. symmetry.
  apply filter_filter_implied. intros p _ W.
  apply purchaseWhere_true in W. destruct W as [_ ->]. exact Hd.
Qed.

Lemma deleteCard_keeps_invoices_consistent_witness :
  invoicesConsistent (fst (deleteCard 0%nat sampleDbAfter)) = true.
Proof.
  apply (deleteCard_keeps_invoices_consistent 0%nat sampleDbAfter). reflexivity.
Defined.

(** X8.  [createCard] with days the integer columns take, under an
    identifier no card carries yet, completes and appends one card with
    the fields of the input, touching no purchase and no monthly
    invoice; [getCard] then finds that card, so a [createPurchase] for it
    is not rejected with [CardNotFound]; and days [insertCardSchema]
    accepted lie between 1 and 31. *)
Theorem createCard_then_getCard (ic : InsertCard) (db : Db) (closingDay dueDay : Z) :
  toInteger (ic_closingDay ic) = Some closingDay ->
  toInteger (ic_dueDay ic) = Some dueDay ->
  (forall c, In c (cards db) -> c_id c <> nextUuid db) ->
  exists db' card,
    createCard ic db = (db', Fulfilled card)
    /\ card = mkCard (c_id card) (ic_bankName ic) (ic_logoUrl ic) closingDay dueDay
    /\ cards db' = cards db ++ [card]
    /\ purchases db' = purchases db
    /\ monthlyInvoices db' = monthlyInvoices db
    /\ getCard (c_id card) db' = (db', Fulfilled (Some card))
    /\ (forall tz ins, ip_cardId ins = c_id card ->
                       snd (createPurchase tz ins db') <> Rejected CardNotFound)
    /\ (insertCardSchema ic = true ->
        1 <= c_closingDay card <= 31 /\ 1 <= c_dueDay card <= 31).
Proof.
  intros Hc Hd Hfresh. unfold createCard, insert_cards. rewrite Hc, Hd.
  eexists; eexists. split; [reflexivity|].
  cbn [c_id cards purchases monthlyInvoices c_closingDay c_dueDay].
  assert (Hg : hd_error
                 (filter (fun c => Nat.eqb (c_id c) (nextUuid db))
                    (cards db ++ [mkCard (nextUuid db) (ic_bankName ic) (ic_logoUrl ic)
                                    closingDay dueDay]))
               = Some (mkCard (nextUuid db) (ic_bankName ic) (ic_logoUrl ic)
                         closingDay dueDay)).
  { rewrite filter_app. cbn [filter c_id]. rewrite Nat.eqb_refl.
    replace (filter _ (cards db)) with (@nil Card); [reflexivity|].
    symmetry. destruct (filter _ (cards db)) as [|c r] eqn:E; [reflexivity|].
    assert (X : In c (filter (fun c => Nat.eqb (c_id c) (nextUuid db)) (cards db)))
      by (rewrite E; now left).
    apply filter_In in X. destruct X as [Hin Ec]. apply Nat.eqb_eq in Ec.
    now destruct (Hfresh c Hin). }
  split; [reflexivity|]. split; [reflexivity|]. split; [reflexivity|].
  split; [reflexivity|]. split; [|split].
  - rewrite getCard_run. cbn [cards]. now rewrite Hg.
  - intros tz ins Hi.
    match goal with |- snd (createPurchase tz ins ?d) <> _ =>
      pose proof (createPurchase_run tz ins d) as R
    end.
    rewrite Hi in R. cbn [cards] in R. rewrite Hg in R.
    destruct R as (rows & len & _ & _ & _ & _ & _ & _ & Hres).
    destruct (snd (createPurchase tz ins _)) as [r|e]; [discriminate|].
    subst e. discriminate.
  - intros H. unfold insertCardSchema in H.
    apply toInteger_Some in Hc, Hd.
    destruct Hc as (qc & Ec & Hqc & _), Hd as (qd & Ed & Hqd & _).
    rewrite Ec, Ed in H.
    rewrite !andb_true_iff, !Qle_bool_iff, Hqc, Hqd in H.
    change 1%Q with (inject_Z 1) in H. change 31%Q with (inject_Z 31) in H.
    rewrite <- !Zle_Qle in H. lia.
Qed.

Lemma createCard_then_getCard_witness :
  exists db' card,
    createCard sampleNewCard sampleDbAfter = (db', Fulfilled card)
    /\ card = mkCard (c_id card) "Bradesco" None 5 12
    /\ cards db' = cards sampleDbAfter ++ [card]
    /\ purchases db' = purchases sampleDbAfter
    /\ monthlyInvoices db' = monthlyInvoices sampleDbAfter
    /\ getCard (c_id card) db' = (db', Fulfilled (Some card))
    /\ (forall tz ins, ip_cardId ins = c_id card ->
                       snd (createPurchase tz ins db') <> Rejected CardNotFound)
    /\ (insertCardSchema sampleNewCard = true ->
        1 <= c_closingDay card <= 31 /\ 1 <= c_dueDay card <= 31).
Proof.
  apply (createCard_then_getCard sampleNewCard sampleDbAfter 5 12).
  - reflexivity.
  - reflexivity.
  - vm_compute. intros c [<- | [<- | [<- | []]]]; discriminate.
Defined.

(* ================================================================== *)
(** ** Creating a purchase and deleting it again                       *)
(* ================================================================== *)

Lemma refresh_keeps_keys (month : string) (cardId : Uuid) (db : Db) (r : MonthlyInvoice) :
  In r (monthlyInvoices db) ->
  exists r', In r' (monthlyInvoices (refresh month cardId db))
             /\ invoiceKey r' = invoiceKey r.
Proof.
  intros Hr. unfold refresh.
  destruct (existsb _ (monthlyInvoices db)); cbn [monthlyInvoices].
  - eexists. split; [apply in_map; exact Hr|].
    now destruct (invoiceWhere month cardId r).
  - exists r. split; [apply in_or_app; now left | reflexivity].
Qed.

Lemma refreshAll_keeps_keys (months : list string) (cardId : Uuid) (db : Db)
  (r : MonthlyInvoice) :
  In r (monthlyInvoices db) ->
  exists r', In r' (monthlyInvoices (refreshAll months cardId db))
             /\ invoiceKey r' = invoiceKey r.
Proof.
  unfold refreshAll. revert db r.
  induction months as [|m months IH]; intros db r Hr; cbn [fold_left]; [eauto|].
  destruct (refresh_keeps_keys m cardId db r Hr) as (r1 & H1 & K1).
  destruct (IH _ r1 H1) as (r2 & H2 & K2). exists r2. split; [exact H2 | congruence].
Qed.

Lemma createPurchase_keeps_keys (tz : TimeZone) (ins : InsertPurchase) (db : Db)
  (r : MonthlyInvoice) :
  In r (monthlyInvoices db) ->
  exists r', In r' (monthlyInvoices (fst (createPurchase tz ins db)))
             /\ invoiceKey r' = invoiceKey r.
Proof.
  intros Hr.
  apply (createPurchase_invariant
           (fun d => exists r', In r' (monthlyInvoices d) /\ invoiceKey r' = invoiceKey r)).
  - eauto.
  - intros v d _ H.
    now destruct (insert_purchases_run v d) as [-> | (row & _ & ->)].
  - intros month d (r1 & H1 & K1). rewrite updateMonthlyInvoiceForCard_run.
    destruct (refreshCompletes _ _ _); cbn [fst]; [|eauto].
    destruct (refresh_keeps_keys month (ip_cardId ins) d r1 H1) as (r2 & H2 & K2).
    exists r2. split; [exact H2 | congruence].
Qed.

Lemma filter_none {A} (f : A -> bool) (l : list A) :
  (forall a, In a l -> f a = false) -> filter f l = [].
Proof.
  induction l as [|a l IH]; intros H; cbn [filter]; [reflexivity|].
  rewrite (H a) by now left. apply IH. intros b Hb. apply H. now right.
Qed.

(** The rows one call of [createPurchase] writes agree on the five
    columns by which [deletePurchase] groups. *)
Lemma installment_rows_siblings (tz : TimeZone) (ins : InsertPurchase) (closingDay : Z)
  (i j : Z) (id id' : Uuid) (r r' : Purchase) :
  purchaseRow (installmentData tz ins closingDay i) id = Some r ->
  purchaseRow (installmentData tz ins closingDay j) id' = Some r' ->
  siblingWhere r r' = true.
Proof.
  intros H H'. apply purchaseRow_Some in H, H'.
  destruct H as (Hd & Ht & Hn & _ & _ & E), H' as (Hd' & Ht' & Hn' & _ & _ & E').
  cbn [installmentData pd_purchaseDate pd_totalValue pd_totalInstallments pd_cardId
       pd_name] in *.
  apply siblingWhere_true. rewrite E, E'. cbn.
  repeat split; congruence.
Qed.

(** X9.  A purchase created and then deleted through the record
    [createPurchase] returned leaves the tables as they were.  When both
    calls complete, the next identifier being one no purchase row
    carries and no purchase row of before being equal to the record on
    card, date, name, total value and number of installments: afterwards
    the cards and the purchase rows are exactly those of before, and,
    the invoice table having been consistent, it is consistent again and
    every monthly-invoice row of before is still there, unchanged. *)
Theorem createPurchase_then_deletePurchase (tz : TimeZone) (ins : InsertPurchase)
  (db db1 db2 : Db) (first : Purchase) :
  createPurchase tz ins db = (db1, Fulfilled (Some first)) ->
  deletePurchase (p_id first) db1 = (db2, Fulfilled tt) ->
  (forall q, In q (purchases db) -> p_id q <> nextUuid db) ->
  (forall q, In q (purchases db) ->
             ~ (p_cardId q = p_cardId first
                /\ p_purchaseDate q = p_purchaseDate first
                /\ p_name q = p_name first
                /\ p_totalValue q = p_totalValue first
                /\ p_totalInstallments q = p_totalInstallments first)) ->
  invoicesConsistent db = true ->
  cards db2 = cards db
  /\ purchases db2 = purchases db
  /\ invoicesConsistent db2 = true
  /\ forall r, In r (monthlyInvoices db) -> In r (monthlyInvoices db2).
Proof.
  intros E D Hfresh Hnew Hcons.
  pose proof (createPurchase_run tz ins db) as R.
  destruct (hd_error _) as [card|]; [|congruence].
  destruct R as (rows & len & _ & Hp & Hc & _ & Hnth & Hid & Hres).
  rewrite E in Hp, Hc, Hres. cbn [fst snd] in Hp, Hc, Hres.
  destruct Hres as (Hhd & _ & Hi).
  destruct rows as [|first' rows']; [discriminate|]. injection Hhd as <-.
  specialize (Hid first eq_refl).
  destruct (Hnth 0%nat first eq_refl) as (id0 & E0).
  (* every new row is a sibling of the first, no old row is *)
  assert (Hsib : forall r, In r (first :: rows') -> siblingWhere first r = true).
  { intros r Hr. apply In_nth_error in Hr. destruct Hr as (k & Hk).
    destruct (Hnth k r Hk) as (id & Ek).
    exact (installment_rows_siblings _ _ _ _ _ _ _ _ _ E0 Ek). }
  assert (Hold : forall q, In q (purchases db) -> siblingWhere first q = false).
  { intros q Hq. destruct (siblingWhere first q) eqn:S; [|reflexivity].
    apply siblingWhere_true in S. now destruct (Hnew q Hq). }
  (* the row found for the identifier is the first *)
  assert (Hfound : exists rest,
             filter (fun p => Nat.eqb (p_id p) (p_id first)) (purchases db1)
             = first :: rest).
  { rewrite Hp, filter_app. rewrite filter_none.
    - cbn [filter app]. rewrite Nat.eqb_refl. eauto.
    - intros q Hq. apply Nat.eqb_neq. rewrite Hid. now apply Hfresh. }
  destruct Hfound as (rest & Hfound).
  rewrite deletePurchase_run, Hfound in D. apply forOf_fulfilled in D.
  assert (Hpurch : filter (fun p => negb (siblingWhere first p)) (purchases db1)
                   = purchases db).
  { rewrite Hp, filter_app. rewrite filter_all, filter_none.
    - apply app_nil_r.
    - intros r Hr. now rewrite (Hsib r Hr).
    - intros q Hq. now rewrite (Hold q Hq). }
  assert (Hcons2 : invoicesConsistent db2 = true).
  { subst db2. apply refreshAll_consistent, withoutSiblings_consistentExcept.
    now apply Hi. }
  assert (Hp2 : purchases db2 = purchases db).
  { subst db2. rewrite refreshAll_purchases. exact Hpurch. }
  split; [subst db2; rewrite refreshAll_cards; exact Hc|].
  split; [exact Hp2|]. split; [exact Hcons2|].
  intros r Hr.
  destruct (createPurchase_keeps_keys tz ins db r Hr) as (r1 & H1 & K1).
  rewrite E in H1. cbn [fst] in H1.
  destruct (refreshAll_keeps_keys
              (arrayFromSet
                 (map p_invoiceMonth (filter (siblingWhere first) (purchases db1))))
              (p_cardId first) (withoutSiblings first db1) r1 H1) as (r2 & H2 & K2).
  rewrite <- D in H2.
  replace r with r2; [exact H2|].
  rewrite invoicesConsistent_iff in Hcons2, Hcons.
  pose proof (Hcons2 r2 H2) as T2. pose proof (Hcons r Hr) as T.
  rewrite (invoiceSum_purchases _ _ db) in T2 by exact Hp2.
  assert (K : invoiceKey r2 = invoiceKey r) by congruence.
  unfold invoiceKey in K. injection K as K1' K2' K3'.
  destruct r2, r; cbn in *. congruence.
Qed.

Lemma createPurchase_then_deletePurchase_witness :
  createPurchase UtcOrEast secondPurchase sampleDbAfter
  = (fst (createPurchase UtcOrEast secondPurchase sampleDbAfter),
     Fulfilled (Some (mkPurchase 9%nat 0%nat (mkIso 2024 3 20) "Geladeira" "casa"
                        25050 2 1 12525 "2024-04")))
  /\ cards (fst (deletePurchase 9%nat
                   (fst (createPurchase UtcOrEast secondPurchase sampleDbAfter))))
     = cards sampleDbAfter
  /\ purchases (fst (deletePurchase 9%nat
                       (fst (createPurchase UtcOrEast secondPurchase sampleDbAfter))))
     = purchases sampleDbAfter
  /\ invoicesConsistent
       (fst (deletePurchase 9%nat
               (fst (createPurchase UtcOrEast secondPurchase sampleDbAfter)))) = true
  /\ forall r, In r (monthlyInvoices sampleDbAfter) ->
               In r (monthlyInvoices
                       (fst (deletePurchase 9%nat
                               (fst (createPurchase UtcOrEast secondPurchase
                                       sampleDbAfter))))).
Proof.
  split; [vm_compute; reflexivity|].
  apply (createPurchase_then_deletePurchase UtcOrEast secondPurchase sampleDbAfter
           (fst (createPurchase UtcOrEast secondPurchase sampleDbAfter))
           (fst (deletePurchase 9%nat
                   (fst (createPurchase UtcOrEast secondPurchase sampleDbAfter))))
           (mkPurchase 9%nat 0%nat (mkIso 2024 3 20) "Geladeira" "casa"
              25050 2 1 12525 "2024-04")).
  - vm_compute. reflexivity.
  - vm_compute. reflexivity.
  - vm_compute. intros q [<- | [<- | [<- | []]]]; discriminate.
  - vm_compute. intros q [<- | [<- | [<- | []]]] (_ & _ & H & _); discriminate.
  - vm_compute. reflexivity.
Defined.

Lemma NoDup_map_eq {A B} (f : A -> B) (l : list A) (a b : A) :
  NoDup (map f l) -> In a l -> In b l -> f a = f b -> a = b.
Proof.
  induction l as [|x l IH]; cbn [map]; intros N Ha Hb E; [destruct Ha|].
  inversion N as [|y m Hx N']; subst.
  destruct Ha as [<- | Ha], Hb as [<- | Hb]; auto.
  - exfalso. apply Hx. rewrite E. now apply in_map.
  - exfalso. apply Hx. rewrite <- E. now apply in_map.
Qed.

Lemma siblingWhere_refl (p : Purchase) : siblingWhere p p = true.
Proof. apply siblingWhere_true. auto. Qed.

(** Completed or not, a run of refreshes leaves the purchase rows
    alone. *)
Lemma forOf_purchases (months : list string) (cardId : Uuid) (db : Db) :
  purchases
    (fst (forOf months
            (fun invoiceMonth => updateMonthlyInvoiceForCard invoiceMonth cardId) db))
  = purchases db.
Proof.
  apply (forOf_invariant (fun d => purchases d = purchases db)); [|reflexivity].
  intros month d <-. apply updateMonthlyInvoiceForCard_purchases.
Qed.

(** X10.  Deleting the same purchase twice is deleting it once: with
    purchase identifiers unique, a second [deletePurchase] on the same
    identifier finds no row and leaves the database the first one
    left; a first call the database rejects ends the sequence. *)
Theorem deletePurchase_twice (id : Uuid) (db : Db) :
  NoDup (map p_id (purchases db)) ->
  (deletePurchase id ;;; deletePurchase id) db = deletePurchase id db.
Proof.
  intros N. unfold await.
  destruct (deletePurchase id db) as [db1 [[]|e]] eqn:D; [|reflexivity].
  rewrite deletePurchase_run in D.
  destruct (filter _ (purchases db)) as [|purchase rest] eqn:F.
  - injection D as <-. now rewrite deletePurchase_run, F.
  - apply (f_equal fst) in D. cbn [fst] in D.
    apply (f_equal purchases) in D. rewrite forOf_purchases in D.
    cbn [withoutSiblings purchases] in D.
    rewrite deletePurchase_run, <- D, filter_none; [reflexivity|].
    intros q Hq. apply filter_In in Hq. destruct Hq as [Hq S].
    apply Nat.eqb_neq. intros Eid.
    assert (X : In purchase (filter (fun p => Nat.eqb (p_id p) id) (purchases db)))
      by (rewrite F; now left).
    apply filter_In in X. destruct X as [Hp Ep]. apply Nat.eqb_eq in Ep.
    assert (q = purchase) by (apply (NoDup_map_eq p_id (purchases db)); congruence).
    subst q. now rewrite siblingWhere_refl in S.
Qed.

Lemma deletePurchase_twice_witness :
  (deletePurchase 5%nat ;;; deletePurchase 5%nat) sampleDbAfter
  = deletePurchase 5%nat sampleDbAfter.
Proof.
  apply (deletePurchase_twice 5%nat sampleDbAfter).
  vm_compute. repeat constructor; cbn; intuition discriminate.
Defined.

(* ================================================================== *)
(** ** The read queries                                                *)
(* ================================================================== *)

Lemma IsoDate_leb_iff (a b : IsoDate) :
  IsoDate_leb a b = true <->
  iso_year a < iso_year b
  \/ (iso_year a = iso_year b
      /\ (iso_month a < iso_month b
          \/ (iso_month a = iso_month b /\ iso_day a <= iso_day b))).
Proof.
  unfold IsoDate_leb.
  rewrite !orb_true_iff, !andb_true_iff, !orb_true_iff, !andb_true_iff,
    !Z.ltb_lt, !Z.eqb_eq, Z.leb_le.
  tauto.
Qed.

Lemma IsoDate_leb_total (a b : IsoDate) :
  IsoDate_leb a b = false -> IsoDate_leb b a = true.
Proof.
  rewrite <- not_true_iff_false, !IsoDate_leb_iff. lia.
Qed.

Lemma IsoDate_leb_trans (a b c : IsoDate) :
  IsoDate_leb a b = true -> IsoDate_leb b c = true -> IsoDate_leb a c = true.
Proof. rewrite !IsoDate_leb_iff. lia. Qed.

Section OrderByDesc.
Context {A : Type} (date : A -> IsoDate).

Lemma insertDesc_Permutation (x : A) (l : list A) :
  Permutation (insertDesc date x l) (x :: l).
Proof.
  induction l as [|y l IH]; cbn [insertDesc]; [reflexivity|].
  destruct (IsoDate_leb (date y) (date x)); [reflexivity|].
  rewrite IH. apply perm_swap.
Qed.

Lemma orderByDesc_Permutation (l : list A) : Permutation (orderByDesc date l) l.
Proof.
  unfold orderByDesc. induction l as [|x l IH]; cbn [fold_right]; [reflexivity|].
  rewrite insertDesc_Permutation. now apply perm_skip.
Qed.

Lemma insertDesc_sorted (x : A) (l : list A) :
  StronglySorted (notBefore date) l ->
  StronglySorted (notBefore date) (insertDesc date x l).
Proof.
  induction l as [|y l IH]; intros S; cbn [insertDesc].
  - constructor; [constructor | constructor].
  - apply StronglySorted_inv in S. destruct S as [S Hy].
    destruct (IsoDate_leb (date y) (date x)) eqn:L.
    + constructor; [constructor; assumption|].
      constructor; [exact L|].
      rewrite Forall_forall in *. intros z Hz. unfold notBefore in *.
      eapply IsoDate_leb_trans; [apply (Hy z Hz) | exact L].
    + constructor; [now apply IH|].
      rewrite Forall_forall in *. intros z Hz.
      apply (Permutation_in _ (insertDesc_Permutation x l)) in Hz.
      destruct Hz as [<- | Hz]; [|now apply Hy].
      unfold notBefore. now apply IsoDate_leb_total.
Qed.

Lemma orderByDesc_sorted (l : list A) :
  StronglySorted (notBefore date) (orderByDesc date l).
Proof.
  unfold orderByDesc. induction l as [|x l IH]; cbn [fold_right]; [constructor|].
  now apply insertDesc_sorted.
Qed.
End OrderByDesc.

Lemma filter_Permutation {A} (f : A -> bool) (l l' : list A) :
  Permutation l l' -> Permutation (filter f l) (filter f l').
Proof.
  induction 1 as [|x l l' _ IH|x y l|l l' l'' _ IH1 _ IH2]; cbn [filter].
  - reflexivity.
  - destruct (f x); [now apply perm_skip | exact IH].
  - destruct (f x), (f y); try reflexivity. apply perm_swap.
  - now rewrite IH1.
Qed.

Lemma sumDecimal_Permutation (l l' : list decimal) :
  Permutation l l' -> sumDecimal l = sumDecimal l'.
Proof.
  unfold sumDecimal.
  induction 1 as [|x l l' _ IH|x y l|l l' l'' _ IH1 _ IH2]; cbn [fold_right].
  - reflexivity.
  - now rewrite IH.
  - now rewrite !decimal_add_assoc, (decimal_add_comm y x).
  - congruence.
Qed.

Lemma leftJoin_cards_cons {A} (cardId : A -> Uuid) (a : A) (rows : list A)
  (cs : list Card) :
  leftJoin_cards cardId (a :: rows) cs
  = match filter (fun c => Nat.eqb (cardId a) (c_id c)) cs with
    | [] => [(a, None)]
    | matching => map (fun c => (a, Some c)) matching
    end ++ leftJoin_cards cardId rows cs.
Proof. reflexivity. Qed.

(** With card identifiers unique the join pairs every row with the card
    [getCard] finds for it, one pair a row. *)
Lemma leftJoin_cards_unique {A} (cardId : A -> Uuid) (rows : list A) (cs : list Card) :
  NoDup (map c_id cs) ->
  leftJoin_cards cardId rows cs
  = map (fun a => (a, hd_error (filter (fun c => Nat.eqb (c_id c) (cardId a)) cs))) rows.
Proof.
  intros N.
  induction rows as [|a rows IH]; [reflexivity|].
  rewrite leftJoin_cards_cons, IH. cbn [map].
  replace (filter (fun c => Nat.eqb (cardId a) (c_id c)) cs)
    with (filter (fun c => Nat.eqb (c_id c) (cardId a)) cs)
    by (apply filter_ext; intros c; apply Nat.eqb_sym).
  destruct (filter (fun c => Nat.eqb (c_id c) (cardId a)) cs) as [|c [|c' more]] eqn:F;
    [reflexivity | reflexivity | exfalso].
  assert (Hc : In c (filter (fun c => Nat.eqb (c_id c) (cardId a)) cs))
    by (rewrite F; now left).
  assert (Hc' : In c' (filter (fun c => Nat.eqb (c_id c) (cardId a)) cs))
    by (rewrite F; right; now left).
  apply filter_In in Hc, Hc'. destruct Hc as [Hc Ec], Hc' as [Hc' Ec'].
  apply Nat.eqb_eq in Ec, Ec'.
  assert (E : c = c') by (apply (NoDup_map_eq c_id cs); congruence).
  subst c'.
  assert (N2 : NoDup (filter (fun c => Nat.eqb (c_id c) (cardId a)) cs)).
  { apply NoDup_filter. eapply NoDup_map_inv. exact N. }
  rewrite F in N2. inversion N2 as [|x m Hx _]; subst. apply Hx. now left.
Qed.

Lemma map_fst_filter_join {A B} (g : A -> bool) (h : A -> B) (l : list A) :
  map fst (filter (fun row => g (fst row)) (map (fun a => (a, h a)) l)) = filter g l.
Proof.
  induction l as [|a l IH]; cbn [map filter fst]; [reflexivity|].
  destruct (g a); cbn [map fst]; now rewrite IH.
Qed.

(** X11.  [getPurchasesByMonth], card identifiers being unique: the call
    changes nothing and returns the purchase rows whose invoice month is
    the one asked for, each once, latest purchase date first, each with
    the card [getCard] finds for it. *)
Theorem getPurchasesByMonth_rows (month : string) (db : Db) :
  NoDup (map c_id (cards db)) ->
  exists rows,
    getPurchasesByMonth month db = (db, Fulfilled rows)
    /\ Permutation (map fst rows)
         (filter (fun p => String.eqb (p_invoiceMonth p) month) (purchases db))
    /\ StronglySorted (notBefore (fun row => p_purchaseDate (fst row))) rows
    /\ forall p c, In (p, c) rows ->
         p_invoiceMonth p = month /\ getCard (p_cardId p) db = (db, Fulfilled c).
Proof.
  intros N. eexists. split; [reflexivity|].
  rewrite (leftJoin_cards_unique p_cardId _ _ N).
  split; [|split].
  - rewrite (Permutation_map fst (orderByDesc_Permutation _ _)).
    now rewrite (map_fst_filter_join (fun p => String.eqb (p_invoiceMonth p) month)).
  - apply orderByDesc_sorted.
  - intros p c Hin.
    apply (Permutation_in _ (orderByDesc_Permutation _ _)) in Hin.
    apply filter_In in Hin. destruct Hin as [Hin Em]. cbn [fst] in Em.
    apply in_map_iff in Hin. destruct Hin as (q & [= -> <-] & _).
    split; [now apply String.eqb_eq | apply getCard_run].
Qed.

Lemma getPurchasesByMonth_rows_witness :
  exists rows,
    getPurchasesByMonth "2024-04" sampleDbAfter = (sampleDbAfter, Fulfilled rows)
    /\ Permutation (map fst rows)
         (filter (fun p => String.eqb (p_invoiceMonth p) "2024-04")
            (purchases sampleDbAfter))
    /\ StronglySorted (notBefore (fun row => p_purchaseDate (fst row))) rows
    /\ forall p c, In (p, c) rows ->
         p_invoiceMonth p = "2024-04"
         /\ getCard (p_cardId p) sampleDbAfter = (sampleDbAfter, Fulfilled c).
Proof.
  apply (getPurchasesByMonth_rows "2024-04" sampleDbAfter).
  vm_compute. repeat constructor; cbn; intuition discriminate.
Defined.

Lemma sum_of_joined_month_rows {B} (month : string) (cardId : Uuid) (h : Purchase -> B)
  (l : list Purchase) :
  sumDecimal
    (map (fun row => p_installmentValue (fst row))
       (filter (fun row => Nat.eqb (p_cardId (fst row)) cardId)
          (filter (fun row => String.eqb (p_invoiceMonth (fst row)) month)
             (map (fun p => (p, h p)) l))))
  = sumDecimal (map p_installmentValue (filter (purchaseWhere month cardId) l)).
Proof.
  induction l as [|p l IH]; [reflexivity|].
  cbn [map filter fst]. unfold purchaseWhere at 1.
  destruct (String.eqb (p_invoiceMonth p) month); cbn [filter fst andb]; [|exact IH].
  destruct (Nat.eqb (p_cardId p) cardId); cbn [map fst]; [|exact IH].
  unfold sumDecimal in *. cbn [fold_right]. now rewrite IH.
Qed.

(** X12.  The monthly invoices agree with the purchases of the month.
    With card identifiers unique and the invoice table consistent, every
    invoice [getMonthlyInvoices] returns for a month is of that month and
    its total is the sum of the installment values of the rows
    [getPurchasesByMonth] returns for the same month and the card of the
    invoice. *)
Theorem invoice_totals_match_month_purchases (month : string) (db : Db) :
  NoDup (map c_id (cards db)) ->
  invoicesConsistent db = true ->
  exists invoices rows,
    getMonthlyInvoices month db = (db, Fulfilled invoices)
    /\ getPurchasesByMonth month db = (db, Fulfilled rows)
    /\ forall r c, In (r, c) invoices ->
         mi_month r = month
         /\ mi_totalValue r
            = sumDecimal
                (map (fun row => p_installmentValue (fst row))
                   (filter (fun row => Nat.eqb (p_cardId (fst row)) (mi_cardId r)) rows)).
Proof.
  intros N Hcons. eexists; eexists. split; [reflexivity|]. split; [reflexivity|].
  intros r c Hin. apply filter_In in Hin. destruct Hin as [Hin Em].
  cbn [fst] in Em. apply String.eqb_eq in Em.
  rewrite (leftJoin_cards_unique mi_cardId _ _ N) in Hin.
  apply in_map_iff in Hin. destruct Hin as (r0 & [= -> _] & Hr).
  split; [exact Em|].
  rewrite invoicesConsistent_iff in Hcons. rewrite (Hcons r Hr), Em.
  rewrite (leftJoin_cards_unique p_cardId _ _ N).
  unfold invoiceSum.
  rewrite <- (sum_of_joined_month_rows month (mi_cardId r)
                (fun p => hd_error (filter (fun c => Nat.eqb (c_id c) (p_cardId p))
                                      (cards db)))).
  apply sumDecimal_Permutation, Permutation_map, filter_Permutation.
  symmetry. apply orderByDesc_Permutation.
Qed.

Lemma invoice_totals_match_month_purchases_witness :
  exists invoices rows,
    getMonthlyInvoices "2024-04" sampleDbAfter = (sampleDbAfter, Fulfilled invoices)
    /\ getPurchasesByMonth "2024-04" sampleDbAfter = (sampleDbAfter, Fulfilled rows)
    /\ forall r c, In (r, c) invoices ->
         mi_month r = "2024-04"
         /\ mi_totalValue r
            = sumDecimal
                (map (fun row => p_installmentValue (fst row))
                   (filter (fun row => Nat.eqb (p_cardId (fst row)) (mi_cardId r)) rows)).
Proof.
  apply (invoice_totals_match_month_purchases "2024-04" sampleDbAfter).
  - vm_compute. repeat constructor; cbn; intuition discriminate.
  - vm_compute. reflexivity.
Defined.

(** The rows a call of [createPurchase] has written, however it ended:
    appended to the table, all of the card of the input, as many as the
    loop has indices when the call completes. *)
Lemma createPurchase_rows (tz : TimeZone) (ins : InsertPurchase) (db : Db) (card : Card) :
  getCard (ip_cardId ins) db = (db, Fulfilled (Some card)) ->
  exists rows,
    purchases (fst (createPurchase tz ins db)) = purchases db ++ rows
    /\ (forall returned,
          snd (createPurchase tz ins db) = Fulfilled returned ->
          returned = hd_error rows
          /\ List.length rows = List.length (forRange (ip_totalInstallments ins)))
    /\ (forall k r, nth_error rows k = Some r ->
          exists id,
            purchaseRow (installmentData tz ins (c_closingDay card) (Z.of_nat k)) id
            = Some r).
Proof.
  intros Hcard. rewrite getCard_run in Hcard. injection Hcard as Hcard.
  pose proof (createPurchase_run tz ins db) as R. rewrite Hcard in R.
  destruct R as (rows & len & Hr & Hp & _ & _ & Hnth & _ & Hres).
  exists rows. split; [exact Hp|]. split; [|exact Hnth].
  intros returned E. rewrite E in Hres. destruct Hres as (-> & Hl & _).
  split; [reflexivity|]. now rewrite Hr, length_map, length_seq.
Qed.

(** X13.  The installments of a new purchase show up under its card.
    For a card that exists, however the call of [createPurchase] ends,
    [getPurchasesByCard] for that card returns after it the rows it
    returned before together with the rows the call has appended to the
    purchases table, and nothing else, latest purchase date first; when
    the call completes these are as many rows as the loop has indices,
    and the record returned is the first of them. *)
Theorem getPurchasesByCard_after_createPurchase (tz : TimeZone) (ins : InsertPurchase)
  (db : Db) (card : Card) :
  getCard (ip_cardId ins) db = (db, Fulfilled (Some card)) ->
  exists rows before after,
    purchases (fst (createPurchase tz ins db)) = purchases db ++ rows
    /\ (forall returned,
          snd (createPurchase tz ins db) = Fulfilled returned ->
          returned = hd_error rows
          /\ List.length rows = List.length (forRange (ip_totalInstallments ins)))
    /\ getPurchasesByCard (ip_cardId ins) db = (db, Fulfilled before)
    /\ getPurchasesByCard (ip_cardId ins) (fst (createPurchase tz ins db))
       = (fst (createPurchase tz ins db), Fulfilled after)
    /\ Permutation after (before ++ rows)
    /\ StronglySorted (notBefore p_purchaseDate) after.
Proof.
  intros Hcard.
  destruct (createPurchase_rows tz ins db card Hcard) as (rows & Hp & Hres & Hnth).
  exists rows. eexists; eexists.
  split; [exact Hp|]. split; [exact Hres|]. split; [reflexivity|]. split; [reflexivity|].
  split; [|apply orderByDesc_sorted].
  rewrite !orderByDesc_Permutation, Hp, filter_app.
  apply Permutation_app_head. rewrite filter_all; [reflexivity|].
  intros r Hr. apply In_nth_error in Hr. destruct Hr as (k & Hk).
  destruct (Hnth k r Hk) as (id & Hrow). apply purchaseRow_Some in Hrow.
  destruct Hrow as (_ & _ & _ & _ & _ & ->). apply Nat.eqb_refl.
Qed.

Lemma getPurchasesByCard_after_createPurchase_witness :
  exists rows before after,
    purchases (fst (createPurchase UtcOrEast secondPurchase sampleDbAfter))
    = purchases sampleDbAfter ++ rows
    /\ (forall returned,
          snd (createPurchase UtcOrEast secondPurchase sampleDbAfter)
          = Fulfilled returned ->
          returned = hd_error rows
          /\ List.length rows
             = List.length (forRange (ip_totalInstallments secondPurchase)))
    /\ getPurchasesByCard 0%nat sampleDbAfter = (sampleDbAfter, Fulfilled before)
    /\ getPurchasesByCard 0%nat (fst (createPurchase UtcOrEast secondPurchase sampleDbAfter))
       = (fst (createPurchase UtcOrEast secondPurchase sampleDbAfter), Fulfilled after)
    /\ Permutation after (before ++ rows)
    /\ StronglySorted (notBefore p_purchaseDate) after.
Proof.
  apply (getPurchasesByCard_after_createPurchase UtcOrEast secondPurchase sampleDbAfter
           (mkCard 0%nat "Nubank" None 15 22)).
  vm_compute. reflexivity.
Defined.

(* ================================================================== *)
(** ** Where the installments are billed                               *)
(* ================================================================== *)

Lemma invoiceMonthOf_yearMonth (d : JsDate) :
  0 <= d_month d <= 11 -> invoiceMonthOf d = yearMonth (monthIndex d).
Proof.
  intros H. unfold yearMonth, invoiceMonthOf, monthIndex, getFullYear, getMonth.
  cbn [d_year d_month].
  replace ((12 * d_year d + d_month d) / 12) with (d_year d)
    by (Z.to_euclidean_division_equations; lia).
  replace ((12 * d_year d + d_month d) mod 12) with (d_month d)
    by (Z.to_euclidean_division_equations; lia).
  reflexivity.
Qed.

Lemma installmentDate_month_range (first : JsDate) (i : Z) :
  0 <= d_month (installmentDate first i) <= 11.
Proof. apply MakeDay_month_range. Qed.

Lemma installmentDate_bounds (first : JsDate) (i : Z) :
  monthIndex first + i <= monthIndex (installmentDate first i) <= monthIndex first + i + 1.
Proof.
  unfold installmentDate, setMonth, getMonth.
  pose proof (MakeDay_monthIndex (d_year first) (d_month first + i) (d_date first)) as B.
  unfold monthIndex in *. lia.
Qed.

Lemma firstInvoiceDate_bounds (tz : TimeZone) (isoDate : IsoDate) (closingDay : Z) :
  let local := newDate tz isoDate in
  if getDate local <? closingDay
  then firstInvoiceDate tz isoDate closingDay = local
  else monthIndex local + 1 <= monthIndex (firstInvoiceDate tz isoDate closingDay)
                            <= monthIndex local + 2.
Proof.
  intros local. unfold firstInvoiceDate. fold local. cbv zeta.
  destruct (Z.ltb_spec (getDate local) closingDay) as [L|L];
    destruct (Z.leb_spec closingDay (getDate local)); try lia; [reflexivity|].
  unfold setMonth, getMonth.
  pose proof (MakeDay_monthIndex (d_year local) (d_month local + 1) (d_date local)) as B.
  unfold monthIndex in *. lia.
Qed.

(** X14.  No installment is billed early and none more than a month
    late.  For a card that exists and a calendar purchase date, however
    the call of [createPurchase] ends, row [k] of the rows it has
    appended to the purchases table carries the invoice month of index
    [m k], where [m 0], [m 1], ... never decrease and [m k] is [k] or
    [k + 1] months after the month of the first invoice date; that month
    is the local month of the purchase when its day is before the
    closing day and one or two months later otherwise.  When the call
    completes there are as many rows as the loop has indices, and the
    record returned is the first of them. *)
Theorem installment_months_at_most_one_late (tz : TimeZone) (ins : InsertPurchase)
  (db : Db) (card : Card) :
  getCard (ip_cardId ins) db = (db, Fulfilled (Some card)) ->
  validIsoDate (ip_purchaseDate ins) = true ->
  let local := newDate tz (ip_purchaseDate ins) in
  let first := firstInvoiceDate tz (ip_purchaseDate ins) (c_closingDay card) in
  let m := fun k : nat => monthIndex (installmentDate first (Z.of_nat k)) in
  exists rows,
    purchases (fst (createPurchase tz ins db)) = purchases db ++ rows
    /\ (forall returned,
          snd (createPurchase tz ins db) = Fulfilled returned ->
          returned = hd_error rows
          /\ List.length rows = List.length (forRange (ip_totalInstallments ins)))
    /\ (forall k r, nth_error rows k = Some r -> p_invoiceMonth r = yearMonth (m k))
    /\ (forall k, monthIndex first + Z.of_nat k <= m k <= monthIndex first + Z.of_nat k + 1)
    /\ (forall j k, (j <= k)%nat -> m j <= m k)
    /\ (if getDate local <? c_closingDay card
        then monthIndex first = monthIndex local
        else monthIndex local + 1 <= monthIndex first <= monthIndex local + 2).
Proof.
  intros Hcard Hdate local first m.
  destruct (createPurchase_rows tz ins db card Hcard) as (rows & Hp & Hres & Hnth).
  exists rows. split; [exact Hp|]. split; [exact Hres|]. split; [|split; [|split]].
  - intros k r Hk. destruct (Hnth k r Hk) as (id & Hrow).
    apply purchaseRow_Some in Hrow. destruct Hrow as (_ & _ & _ & _ & _ & ->).
    cbn [installmentData pd_invoiceMonth p_invoiceMonth].
    apply invoiceMonthOf_yearMonth. apply installmentDate_month_range.
  - intros k. apply installmentDate_bounds.
  - intros j k Hjk. subst m. cbv beta.
    destruct (Nat.eq_dec j k) as [->|Hne]; [lia|].
    pose proof (installmentDate_bounds first (Z.of_nat j)).
    pose proof (installmentDate_bounds first (Z.of_nat k)). lia.
  - pose proof (firstInvoiceDate_bounds tz (ip_purchaseDate ins) (c_closingDay card)) as B.
    cbv zeta in B. fold local first in B.
    destruct (getDate local <? c_closingDay card); [now rewrite B | exact B].
Qed.

Lemma installment_months_at_most_one_late_witness :
  exists rows,
    purchases (fst (createPurchase UtcOrEast secondPurchase sampleDbAfter))
    = purchases sampleDbAfter ++ rows
    /\ (forall returned,
          snd (createPurchase UtcOrEast secondPurchase sampleDbAfter)
          = Fulfilled returned ->
          returned = hd_error rows
          /\ List.length rows
             = List.length (forRange (ip_totalInstallments secondPurchase)))
    /\ (forall k r, nth_error rows k = Some r ->
          p_invoiceMonth r
          = yearMonth
              (monthIndex
                 (installmentDate (firstInvoiceDate UtcOrEast (mkIso 2024 3 20) 15)
                    (Z.of_nat k))))
    /\ (forall k,
          monthIndex (firstInvoiceDate UtcOrEast (mkIso 2024 3 20) 15) + Z.of_nat k
          <= monthIndex
               (installmentDate (firstInvoiceDate UtcOrEast (mkIso 2024 3 20) 15)
                  (Z.of_nat k))
          <= monthIndex (firstInvoiceDate UtcOrEast (mkIso 2024 3 20) 15)
             + Z.of_nat k + 1)
    /\ (forall j k, (j <= k)%nat ->
          monthIndex
            (installmentDate (firstInvoiceDate UtcOrEast (mkIso 2024 3 20) 15)
               (Z.of_nat j))
          <= monthIndex
               (installmentDate (firstInvoiceDate UtcOrEast (mkIso 2024 3 20) 15)
                  (Z.of_nat k)))
    /\ (if getDate (newDate UtcOrEast (mkIso 2024 3 20)) <? 15
        then monthIndex (firstInvoiceDate UtcOrEast (mkIso 2024 3 20) 15)
             = monthIndex (newDate UtcOrEast (mkIso 2024 3 20))
        else monthIndex (newDate UtcOrEast (mkIso 2024 3 20)) + 1
             <= monthIndex (firstInvoiceDate UtcOrEast (mkIso 2024 3 20) 15)
             <= monthIndex (newDate UtcOrEast (mkIso 2024 3 20)) + 2).
Proof.
  apply (installment_months_at_most_one_late UtcOrEast secondPurchase sampleDbAfter
           (mkCard 0%nat "Nubank" None 15 22)).
  - vm_compute. reflexivity.
  - reflexivity.
Defined.

(** X15.  The closing-day rule as the code keeps it.  For a card that
    exists and a calendar purchase date whose local day of the month is
    at most 28, however the call of [createPurchase] ends, row [k] of
    the rows it has appended to the purchases table carries the invoice
    month that lies exactly [k] months after the local month of the
    purchase when the day is before the closing day, and exactly [k + 1]
    months after it otherwise.  When the call completes there are as
    many rows as the loop has indices, and the record returned is the
    first of them. *)
Theorem installment_months_exact_upto_day_28 (tz : TimeZone) (ins : InsertPurchase)
  (db : Db) (card : Card) :
  getCard (ip_cardId ins) db = (db, Fulfilled (Some card)) ->
  validIsoDate (ip_purchaseDate ins) = true ->
  getDate (newDate tz (ip_purchaseDate ins)) <= 28 ->
  let local := newDate tz (ip_purchaseDate ins) in
  exists rows,
    purchases (fst (createPurchase tz ins db)) = purchases db ++ rows
    /\ (forall returned,
          snd (createPurchase tz ins db) = Fulfilled returned ->
          returned = hd_error rows
          /\ List.length rows = List.length (forRange (ip_totalInstallments ins)))
    /\ forall k r, nth_error rows k = Some r ->
         p_invoiceMonth r
         = yearMonth (monthIndex local + Z.of_nat k
                      + (if getDate local <? c_closingDay card then 0 else 1)).
Proof.
  intros Hcard Hdate Hday local.
  destruct (createPurchase_rows tz ins db card Hcard) as (rows & Hp & Hres & Hnth).
  exists rows. split; [exact Hp|]. split; [exact Hres|].
  intros k r Hk. destruct (Hnth k r Hk) as (id & Hrow).
  apply purchaseRow_Some in Hrow. destruct Hrow as (_ & _ & _ & _ & _ & ->).
  cbn [installmentData pd_invoiceMonth p_invoiceMonth].
  rewrite invoiceMonthOf_yearMonth by apply installmentDate_month_range.
  f_equal.
  set (first := firstInvoiceDate tz (ip_purchaseDate ins) (c_closingDay card)).
  assert (Hfirst : getDate first <= 28).
  { subst first. unfold firstInvoiceDate. cbv zeta.
    destruct (c_closingDay card <=? _); [|exact Hday].
    destruct (setMonth_monthIndex (newDate tz (ip_purchaseDate ins))
                (getMonth (newDate tz (ip_purchaseDate ins)) + 1) Hday) as [_ Ed].
    unfold getDate. now rewrite Ed. }
  rewrite (installmentDate_upto_28 first _ Hfirst). subst first.
  pose proof (firstInvoiceDate_upto_28 tz (ip_purchaseDate ins) (c_closingDay card)) as F.
  cbv zeta in F. rewrite (F Hday). fold local.
  destruct (getDate local <? c_closingDay card); lia.
Qed.

Lemma installment_months_exact_upto_day_28_witness :
  exists rows,
    purchases (fst (createPurchase UtcOrEast secondPurchase sampleDbAfter))
    = purchases sampleDbAfter ++ rows
    /\ (forall returned,
          snd (createPurchase UtcOrEast secondPurchase sampleDbAfter)
          = Fulfilled returned ->
          returned = hd_error rows
          /\ List.length rows
             = List.length (forRange (ip_totalInstallments secondPurchase)))
    /\ forall k r, nth_error rows k = Some r ->
         p_invoiceMonth r
         = yearMonth (monthIndex (newDate UtcOrEast (mkIso 2024 3 20)) + Z.of_nat k
                      + (if getDate (newDate UtcOrEast (mkIso 2024 3 20)) <? 15
                         then 0 else 1)).
Proof.
  apply (installment_months_exact_upto_day_28 UtcOrEast secondPurchase sampleDbAfter
           (mkCard 0%nat "Nubank" None 15 22)).
  - vm_compute. reflexivity.
  - reflexivity.
  - vm_compute. discriminate.
Defined.

(** X16.  [getPurchases], card identifiers being unique: the call
    changes nothing and returns every purchase row once, latest purchase
    date first, each with the card [getCard] finds for it. *)
Theorem getPurchases_rows (db : Db) :
  NoDup (map c_id (cards db)) ->
  exists rows,
    getPurchases db = (db, Fulfilled rows)
    /\ Permutation (map fst rows) (purchases db)
    /\ StronglySorted (notBefore (fun row => p_purchaseDate (fst row))) rows
    /\ forall p c, In (p, c) rows -> getCard (p_cardId p) db = (db, Fulfilled c).
Proof.
  intros N. eexists. split; [reflexivity|].
  rewrite (leftJoin_cards_unique p_cardId _ _ N).
  split; [|split].
  - rewrite (Permutation_map fst (orderByDesc_Permutation _ _)).
    rewrite map_map. cbn [fst]. now rewrite map_id.
  - apply orderByDesc_sorted.
  - intros p c Hin.
    apply (Permutation_in _ (orderByDesc_Permutation _ _)) in Hin.
    apply in_map_iff in Hin. destruct Hin as (q & [= -> <-] & _).
    apply getCard_run.
Qed.

Lemma getPurchases_rows_witness :
  exists rows,
    getPurchases sampleDbAfter = (sampleDbAfter, Fulfilled rows)
    /\ Permutation (map fst rows) (purchases sampleDbAfter)
    /\ StronglySorted (notBefore (fun row => p_purchaseDate (fst row))) rows
    /\ forall p c, In (p, c) rows ->
         getCard (p_cardId p) sampleDbAfter = (sampleDbAfter, Fulfilled c).
Proof.
  apply (getPurchases_rows sampleDbAfter).
  vm_compute. repeat constructor; cbn; intuition discriminate.
Defined.

Lemma year_digits_checked :
  forallb
    (fun y =>
       match String_of_Z y with
       | String a (String b (String c (String d EmptyString))) =>
           1000 * Z.of_nat (digitValue a) + 100 * Z.of_nat (digitValue b)
           + 10 * Z.of_nat (digitValue c) + Z.of_nat (digitValue d) =? y
       | _ => false
       end)
    (rangeZ 1000 9000) = true.
Proof. vm_compute. reflexivity. Qed.

Lemma month_digits_checked :
  forallb
    (fun m =>
       match padStart (String_of_Z (m + 1)) 2 "0" with
       | String m1 (String m2 EmptyString) =>
           10 * Z.of_nat (digitValue m1) + Z.of_nat (digitValue m2) =? m + 1
       | _ => false
       end)
    (rangeZ 0 12) = true.
Proof. vm_compute. reflexivity. Qed.

(** An invoice-month string of a four-digit year names its month. *)
Lemma monthIndexOfString_yearMonth (index : Z) :
  12000 <= index < 120000 -> monthIndexOfString (yearMonth index) = index.
Proof.
  intros H. unfold yearMonth, invoiceMonthOf, getFullYear, getMonth.
  cbn [d_year d_month].
  pose proof year_digits_checked as Y. rewrite forallb_forall in Y.
  assert (Hy : 1000 <= index / 12 < 1000 + 9000)
    by (Z.to_euclidean_division_equations; lia).
  assert (Hm : 0 <= index mod 12 < 0 + 12)
    by (Z.to_euclidean_division_equations; lia).
  specialize (Y (index / 12) (rangeZ_In 1000 9000 _ Hy)).
  pose proof month_digits_checked as M. rewrite forallb_forall in M.
  specialize (M (index mod 12) (rangeZ_In 0 12 _ Hm)).
  destruct (String_of_Z (index / 12)) as [|a [|b [|c [|d [|e r]]]]]; try discriminate.
  destruct (padStart (String_of_Z (index mod 12 + 1)) 2 "0") as [|m1 [|m2 [|m3 r]]];
    try discriminate.
  cbn [String.append monthIndexOfString].
  apply Z.eqb_eq in Y, M. rewrite Y, M.
  Z.to_euclidean_division_equations; lia.
Qed.

(** X17.  Months do not share a key: for years of four digits, two
    different calendar months are written as two different invoice-month
    strings, the string naming its month. *)
Theorem yearMonth_injective (a b : Z) :
  12000 <= a < 120000 -> 12000 <= b < 120000 ->
  yearMonth a = yearMonth b -> a = b.
Proof.
  intros Ha Hb E.
  rewrite <- (monthIndexOfString_yearMonth a Ha), <- (monthIndexOfString_yearMonth b Hb).
  now rewrite E.
Qed.

Lemma yearMonth_injective_witness :
  12000 <= 24290 < 120000 /\ 12000 <= 12 * 2024 + 2 < 120000 /\
  yearMonth 24290 = yearMonth (12 * 2024 + 2) /\ 24290 = 12 * 2024 + 2.
Proof.
  split; [lia|]. split; [lia|]. split; [reflexivity|].
  apply (yearMonth_injective 24290 (12 * 2024 + 2)); [lia | lia | reflexivity].
Defined.

